(** * Role-based access and moderation workflow of the study planner

  A shallow embedding of the admin panel (the [Admin] component with
  [checkUserRole], [loadAdminData], [assignRole], [removeRole] and
  [handleReply]), of the second, ungated [Admin] dashboard ([fetchData])
  and of the route table ([AppRoutes]), together with the hosted row store
  they talk to.

  The components are asynchronous event handlers over React state and a
  remote store.  They are embedded as computations in a state-and-exception
  monad over a [World]: the store's tables, the environment's faults, the
  clock, the trace of store requests issued, the console, the alerts shown
  and the component's state variables. *)

From Stdlib Require Import String Ascii List Bool Arith NArith Lia Permutation.
From Stdlib Require Import Sorted.
Import ListNotations.
Local Open Scope string_scope.
Local Open Scope list_scope.

(* ================================================================= *)
(** ** JavaScript values used by the handlers *)

Module JS.

(** Text typed by the operator is a sequence of UTF-16 code units. *)
Definition code_units := list N.

Definition of_string (s : string) : code_units :=
  map N_of_ascii (list_ascii_of_string s).

(** ECMAScript [WhiteSpace] and [LineTerminator] code points, the ones
    [String.prototype.trim] strips. *)
Definition is_white_space (c : N) : bool :=
  ((c =? 9) || (c =? 10) || (c =? 11) || (c =? 12) || (c =? 13) || (c =? 32)
   || (c =? 160) || (c =? 5760) || ((8192 <=? c) && (c <=? 8202))
   || (c =? 8232) || (c =? 8233) || (c =? 8239) || (c =? 8287)
   || (c =? 12288) || (c =? 65279))%N.

Fixpoint trimStart (s : code_units) : code_units :=
  match s with
  | [] => []
  | c :: s' => if is_white_space c then trimStart s' else s
  end.

Fixpoint trimEnd (s : code_units) : code_units :=
  match s with
  | [] => []
  | c :: s' =>
      match trimEnd s' with
      | [] => if is_white_space c then [] else [c]
      | t => c :: t
      end
  end.

(** [s.trim()] *)
Definition trim (s : code_units) : code_units := trimEnd (trimStart s).

(** Truthiness of a string: only the empty string is falsy. *)
Definition truthy_units (s : code_units) : bool :=
  match s with [] => false | _ => true end.

Definition truthy (s : string) : bool :=
  match s with EmptyString => false | _ => true end.

(** [v || d] where [v] is a string, or [undefined] or [null] ([None]). *)
Definition or_else (v : option string) (d : string) : string :=
  match v with
  | Some s => if truthy s then s else d
  | None => d
  end.

(** [xs.find(p)] *)
Definition find {A} (p : A -> bool) (xs : list A) : option A := List.find p xs.

End JS.

(* ================================================================= *)
(** ** Rows of the store's collections (the interfaces of the components) *)

(** ['user' | 'moderator' | 'admin'] *)
Inductive Role := role_user | role_moderator | role_admin.

Definition role_name (r : Role) : string :=
  match r with
  | role_user => "user"
  | role_moderator => "moderator"
  | role_admin => "admin"
  end.

Definition Role_eqb (a b : Role) : bool :=
  match a, b with
  | role_user, role_user | role_moderator, role_moderator
  | role_admin, role_admin => true
  | _, _ => false
  end.

(** ['pending' | 'resolved'] *)
Inductive Status := pending | resolved.

Definition Status_eqb (a b : Status) : bool :=
  match a, b with
  | pending, pending | resolved, resolved => true
  | _, _ => false
  end.

(** [interface User] *)
Record User := {
  u_id : string;
  u_name : string;
  u_email : string;
  u_institution : option string;
  u_phone : option string;
  u_created_at : string
}.

(** [interface UserRole] *)
Record UserRole := {
  ur_id : string;
  ur_user_id : string;
  ur_role : Role;
  ur_assigned_by : string;
  ur_created_at : string
}.

(** [interface Complaint]; the three optional fields are absent ([None])
    until a reply is stored. *)
Record Complaint := {
  c_id : string;
  c_email : string;
  c_phone : string;
  c_subject : string;
  c_message : string;
  c_status : Status;
  c_created_at : string;
  c_admin_reply : option JS.code_units;
  c_replied_at : option string;
  c_replied_by : option string
}.

(** [interface Contact] *)
Record Contact := {
  k_id : string;
  k_name : string;
  k_email : string;
  k_message : string;
  k_created_at : string
}.

(** The signed-in identity handed out by [useAuth()]; the components read
    its [id] only. *)
Record AuthUser := { auth_id : string }.

(* ================================================================= *)
(** ** The row store *)

Module Store.

(** The error object a store call resolves with ([{ data, error }]). *)
Record StoreError := { code : string; message : string }.

Record Response (A : Type) := {
  data : option A;
  error : option StoreError
}.
Arguments data {A} _.
Arguments error {A} _.

Definition ok {A} (a : A) : Response A := {| data := Some a; error := None |}.
Definition done {A} : Response A := {| data := None; error := None |}.
Definition failed {A} (e : StoreError) : Response A :=
  {| data := None; error := Some e |}.

(** [.single()] found zero or several rows. *)
Definition PGRST116 : StoreError :=
  {| code := "PGRST116";
     message := "JSON object requested, multiple (or no) rows returned" |}.

(** A UNIQUE constraint rejected the written row. *)
Definition unique_violation : StoreError :=
  {| code := "23505";
     message := "duplicate key value violates unique constraint" |}.

(** The column an [upsert] on [user_roles] with no [onConflict] option
    resolves duplicates on: the key of the table.  The components address
    a role row by [id] ([removeRole]) and look rows up by [user_id]
    ([checkUserRole]); which of the two the table is keyed on is decided by
    its schema. *)
Inductive ConflictKey := key_id | key_user_id.

(** The tables.  The schema is not part of the components, so what it
    decides is a parameter of the store: [upsert_key] is the key of
    [user_roles], and [user_id_unique] says whether a table keyed on [id]
    declares [user_id] UNIQUE as well.  The [id] of a new row is filled in
    by the store with a generated identifier ([uuid_seq] numbers them). *)
Record Database := {
  users : list User;
  user_roles : list UserRole;
  complaints : list Complaint;
  contacts : list Contact;
  uuid_seq : nat;
  user_id_unique : bool;
  upsert_key : ConflictKey
}.

Definition with_user_roles (rows : list UserRole) (n : nat) (d : Database) :=
  {| users := users d; user_roles := rows; complaints := complaints d;
     contacts := contacts d; uuid_seq := n;
     user_id_unique := user_id_unique d; upsert_key := upsert_key d |}.

Definition with_complaints (rows : list Complaint) (d : Database) :=
  {| users := users d; user_roles := user_roles d; complaints := rows;
     contacts := contacts d; uuid_seq := uuid_seq d;
     user_id_unique := user_id_unique d; upsert_key := upsert_key d |}.

(** The identifier the store generates for the [n]-th inserted row; the
    components compare identifiers for equality only. *)
Definition gen_random_uuid (n : nat) : string :=
  "uuid-" ++ String.concat "" (repeat "i" n).

(** *** [.order('created_at', { ascending: false })] *)

Section Order.
Context {R : Type} (created_at : R -> string).

Fixpoint insert_desc (x : R) (l : list R) : list R :=
  match l with
  | [] => [x]
  | y :: l' =>
      if String.ltb (created_at x) (created_at y)
      then y :: insert_desc x l'
      else x :: l
  end.

Fixpoint order_desc (l : list R) : list R :=
  match l with
  | [] => []
  | x :: l' => insert_desc x (order_desc l')
  end.
End Order.

(** [from(t).select('*').order('created_at', { ascending: false })] *)
Definition select_all {R} (created_at : R -> string) (rows : list R)
  : Response (list R) :=
  ok (order_desc created_at rows).

(** The rows of [user_roles] with [user_id = uid]. *)
Definition roles_of (uid : string) (rows : list UserRole) : list UserRole :=
  filter (fun r => String.eqb (ur_user_id r) uid) rows.

(** [from('user_roles').select('role').eq('user_id', uid).single()]:
    the one matching row, and an error when there is none or several. *)
Definition select_role_single (uid : string) (d : Database) : Response Role :=
  match roles_of uid (user_roles d) with
  | [r] => ok (ur_role r)
  | _ => failed PGRST116
  end.

(** The row object handed to [upsert]; a key the object does not have is
    [None]. *)
Record RoleWrite := {
  w_id : option string;
  w_user_id : string;
  w_role : Role;
  w_assigned_by : string
}.

(** [INSERT]: the row is appended unless a UNIQUE constraint on [user_id]
    rejects it; [created_at] defaults to the store's clock. *)
Definition insert_user_role (now id : string) (seq : nat) (v : RoleWrite)
    (d : Database) : Database * Response unit :=
  if user_id_unique d
     && existsb (fun r => String.eqb (ur_user_id r) (w_user_id v)) (user_roles d)
  then (d, failed unique_violation)
  else
    let row := {| ur_id := id;
                  ur_user_id := w_user_id v;
                  ur_role := w_role v;
                  ur_assigned_by := w_assigned_by v;
                  ur_created_at := now |} in
    (with_user_roles (user_roles d ++ [row]) seq d, done).

(** [ON CONFLICT (id) DO UPDATE]: the written columns of the row with that
    [id] are overwritten. *)
Definition overwrite (v : RoleWrite) (r : UserRole) : UserRole :=
  {| ur_id := ur_id r;
     ur_user_id := w_user_id v;
     ur_role := w_role v;
     ur_assigned_by := w_assigned_by v;
     ur_created_at := ur_created_at r |}.

(** The upsert on a table keyed on [id]: a row written with the [id] of an
    existing row overwrites it.  A row written without [id] gets a
    generated one, which no existing row has, and is inserted. *)
Definition upsert_on_id (now : string) (v : RoleWrite) (d : Database)
  : Database * Response unit :=
  match w_id v with
  | Some i =>
      if existsb (fun r => String.eqb (ur_id r) i) (user_roles d)
      then
        if user_id_unique d
           && existsb (fun r => String.eqb (ur_user_id r) (w_user_id v)
                                && negb (String.eqb (ur_id r) i))
                (user_roles d)
        then (d, failed unique_violation)
        else
          (with_user_roles
             (map (fun r => if String.eqb (ur_id r) i then overwrite v r else r)
                (user_roles d))
             (uuid_seq d) d,
           done)
      else insert_user_role now i (uuid_seq d) v d
  | None =>
      insert_user_role now (gen_random_uuid (uuid_seq d)) (S (uuid_seq d)) v d
  end.

(** [ON CONFLICT (user_id) DO UPDATE]: the written columns of the account's
    row are overwritten; [id] is one of them only when the written object
    has it, and [created_at] never is. *)
Definition overwrite_account (v : RoleWrite) (r : UserRole) : UserRole :=
  {| ur_id := match w_id v with Some i => i | None => ur_id r end;
     ur_user_id := w_user_id v;
     ur_role := w_role v;
     ur_assigned_by := w_assigned_by v;
     ur_created_at := ur_created_at r |}.

(** Modelled from the spec: the schema of [user_roles] is missing from the
    sources, and the spec has the role written by an "upsert keyed on
    account reference" ("insert-or-update-if-exists operation keyed by a
    unique field"), the "creation timestamp ... set only on first insert".
    On a table keyed on [user_id] a written row whose account has a row
    already overwrites it, and a row for an account without one is
    inserted, with a generated [id] when the object has none. *)
Definition upsert_on_account (now : string) (v : RoleWrite) (d : Database)
  : Database * Response unit :=
  if existsb (fun r => String.eqb (ur_user_id r) (w_user_id v)) (user_roles d)
  then
    (with_user_roles
       (map (fun r => if String.eqb (ur_user_id r) (w_user_id v)
                      then overwrite_account v r else r)
          (user_roles d))
       (uuid_seq d) d,
     done)
  else
    match w_id v with
    | Some i => insert_user_role now i (uuid_seq d) v d
    | None =>
        insert_user_role now (gen_random_uuid (uuid_seq d)) (S (uuid_seq d)) v d
    end.

(** [from('user_roles').upsert(v)], with no [onConflict] option: the store
    resolves duplicates on the key of the table ([onConflict] is what
    names another UNIQUE column to resolve on). *)
Definition upsert_user_role (now : string) (v : RoleWrite) (d : Database)
  : Database * Response unit :=
  match upsert_key d with
  | key_id => upsert_on_id now v d
  | key_user_id => upsert_on_account now v d
  end.

(** [from('user_roles').delete().eq('id', roleId)]; deleting no row is not
    an error. *)
Definition delete_user_role (roleId : string) (d : Database)
  : Database * Response unit :=
  (with_user_roles
     (filter (fun r => negb (String.eqb (ur_id r) roleId)) (user_roles d))
     (uuid_seq d) d,
   done).

(** The body of an [update] call on [complaints].  A key whose value is
    [undefined] is dropped when the body is serialised: [None] here, and
    the column keeps its value. *)
Record ComplaintPatch := {
  p_status : option Status;
  p_admin_reply : option JS.code_units;
  p_replied_at : option string;
  p_replied_by : option string
}.

Definition patched {A} (new : option A) (old : option A) : option A :=
  match new with Some v => Some v | None => old end.

Definition apply_patch (p : ComplaintPatch) (c : Complaint) : Complaint :=
  {| c_id := c_id c; c_email := c_email c; c_phone := c_phone c;
     c_subject := c_subject c; c_message := c_message c;
     c_status := match p_status p with Some s => s | None => c_status c end;
     c_created_at := c_created_at c;
     c_admin_reply := patched (p_admin_reply p) (c_admin_reply c);
     c_replied_at := patched (p_replied_at p) (c_replied_at c);
     c_replied_by := patched (p_replied_by p) (c_replied_by c) |}.

(** [from('complaints').update(patch).eq('id', id)]: one statement that
    rewrites every matching row; matching no row is not an error. *)
Definition update_complaint (id : string) (p : ComplaintPatch) (d : Database)
  : Database * Response unit :=
  (with_complaints
     (map (fun c => if String.eqb (c_id c) id then apply_patch p c else c)
          (complaints d)) d,
   done).

(** The store calls the components issue. *)
Inductive Table := t_users | t_user_roles | t_complaints | t_contacts.

Inductive Request :=
| SelectRoleSingle (uid : string)
| SelectAll (t : Table)
| UpsertUserRole (v : RoleWrite)
| DeleteUserRole (roleId : string)
| UpdateComplaint (id : string) (p : ComplaintPatch).

Definition is_write (rq : Request) : bool :=
  match rq with
  | SelectRoleSingle _ | SelectAll _ => false
  | _ => true
  end.

End Store.


(* ================================================================= *)
(** ** Effects of an event handler *)

Module Effects.

(** A thrown value: a store error rethrown by [throw error], or the reason
    of a rejected request promise. *)
Inductive Exn :=
| ExnStore (e : Store.StoreError)
| ExnRejected (reason : string).

(** What the environment does to a request: the call resolves with
    [{ data: null, error }], or its promise rejects. *)
Inductive Fault :=
| FaultError (e : Store.StoreError)
| FaultReject (reason : string).

(** Everything a handler reads or changes; [S] is the state of the mounted
    component. *)
Record World (S : Type) := {
  db : Store.Database;
  fault : Store.Request -> option Fault;
  now : string;
  user : option AuthUser;
  requests : list Store.Request;
  console : list (string * Exn);
  alerts : list string;
  unhandled : list Exn;
  view : S
}.
Arguments db {S} _.
Arguments fault {S} _.
Arguments now {S} _.
Arguments user {S} _.
Arguments requests {S} _.
Arguments console {S} _.
Arguments alerts {S} _.
Arguments unhandled {S} _.
Arguments view {S} _.

Inductive Outcome (A : Type) :=
| Returned (a : A)
| Thrown (x : Exn).
Arguments Returned {A} _.
Arguments Thrown {A} _.

Definition M (S A : Type) : Type := World S -> Outcome A * World S.

Section Monad.
Context {S : Type}.

Definition ret {A} (a : A) : M S A := fun w => (Returned a, w).

Definition bind {A B} (m : M S A) (k : A -> M S B) : M S B :=
  fun w =>
    match m w with
    | (Returned a, w') => k a w'
    | (Thrown x, w') => (Thrown x, w')
    end.

Definition throw {A} (x : Exn) : M S A := fun w => (Thrown x, w).

(** [try { m } catch (e) { h e }] *)
Definition try_catch {A} (m : M S A) (h : Exn -> M S A) : M S A :=
  fun w =>
    match m w with
    | (Returned a, w') => (Returned a, w')
    | (Thrown x, w') => h x w'
    end.

(** [try { m } finally { f }] *)
Definition try_finally {A} (m : M S A) (f : M S unit) : M S A :=
  fun w =>
    match m w with
    | (o, w') =>
        match f w' with
        | (Returned _, w'') => (o, w'')
        | (Thrown x, w'') => (Thrown x, w'')
        end
    end.

Definition get_view : M S S := fun w => (Returned (view w), w).
Definition get_user : M S (option AuthUser) := fun w => (Returned (user w), w).
Definition get_now : M S string := fun w => (Returned (now w), w).

(** A state setter of the component. *)
Definition set_view (f : S -> S) : M S unit :=
  fun w =>
    (Returned tt,
     {| db := db w; fault := fault w; now := now w; user := user w;
        requests := requests w; console := console w; alerts := alerts w;
        unhandled := unhandled w; view := f (view w) |}).

(** [console.error(msg, x)] *)
Definition console_error (msg : string) (x : Exn) : M S unit :=
  fun w =>
    (Returned tt,
     {| db := db w; fault := fault w; now := now w; user := user w;
        requests := requests w; console := console w ++ [(msg, x)];
        alerts := alerts w; unhandled := unhandled w; view := view w |}).

(** [alert(msg)] *)
Definition alert (msg : string) : M S unit :=
  fun w =>
    (Returned tt,
     {| db := db w; fault := fault w; now := now w; user := user w;
        requests := requests w; console := console w;
        alerts := alerts w ++ [msg]; unhandled := unhandled w;
        view := view w |}).

(** [await supabase.from(..)...]: the request is recorded; the environment
    may fail it, and otherwise the store executes it. *)
Definition await_store {A} (rq : Store.Request)
    (exec : string -> Store.Database -> Store.Database * Store.Response A)
  : M S (Store.Response A) :=
  fun w =>
    let sent d :=
      {| db := d; fault := fault w; now := now w; user := user w;
         requests := requests w ++ [rq]; console := console w;
         alerts := alerts w; unhandled := unhandled w; view := view w |} in
    match fault w rq with
    | Some (FaultReject reason) => (Thrown (ExnRejected reason), sent (db w))
    | Some (FaultError e) => (Returned (Store.failed e), sent (db w))
    | None =>
        match exec (now w) (db w) with
        | (d, r) => (Returned r, sent d)
        end
    end.

(** A call of an async function whose promise is neither awaited nor given
    a handler: it runs on, and a rejection stays unhandled.  The call and
    the rest of the caller touch different state, so the call is run to its
    end where it is made. *)
Definition detached (m : M S unit) : M S unit :=
  fun w =>
    match m w with
    | (Returned _, w') => (Returned tt, w')
    | (Thrown x, w') =>
        (Returned tt,
         {| db := db w'; fault := fault w'; now := now w'; user := user w';
            requests := requests w'; console := console w';
            alerts := alerts w'; unhandled := unhandled w' ++ [x];
            view := view w' |})
    end.

(** [await Promise.all(ms)]: every call is started and runs to its end
    whatever the others do; the joined promise rejects with the first
    rejection, if there is one. *)
Fixpoint promise_all (ms : list (M S unit)) : M S unit :=
  match ms with
  | [] => ret tt
  | m :: ms' =>
      fun w =>
        match m w with
        | (Returned _, w') => promise_all ms' w'
        | (Thrown x, w') =>
            match promise_all ms' w' with
            | (_, w'') => (Thrown x, w'')
            end
        end
  end.

End Monad.

Notation "x <- m ;; k" := (bind m (fun x => k))
  (at level 61, m at next level, right associativity).
Notation "m ;; k" := (bind m (fun _ => k))
  (at level 61, right associativity).

(** *** The store calls of the components *)

Section Calls.
Context {S : Type}.

Definition select_role_of (uid : string) : M S (Store.Response Role) :=
  await_store (Store.SelectRoleSingle uid)
    (fun _ d => (d, Store.select_role_single uid d)).

Definition select_users : M S (Store.Response (list User)) :=
  await_store (Store.SelectAll Store.t_users)
    (fun _ d => (d, Store.select_all u_created_at (Store.users d))).

Definition select_user_roles : M S (Store.Response (list UserRole)) :=
  await_store (Store.SelectAll Store.t_user_roles)
    (fun _ d => (d, Store.select_all ur_created_at (Store.user_roles d))).

Definition select_complaints : M S (Store.Response (list Complaint)) :=
  await_store (Store.SelectAll Store.t_complaints)
    (fun _ d => (d, Store.select_all c_created_at (Store.complaints d))).

Definition select_contacts : M S (Store.Response (list Contact)) :=
  await_store (Store.SelectAll Store.t_contacts)
    (fun _ d => (d, Store.select_all k_created_at (Store.contacts d))).

Definition upsert_role (v : Store.RoleWrite) : M S (Store.Response unit) :=
  await_store (Store.UpsertUserRole v)
    (fun t d => Store.upsert_user_role t v d).

Definition delete_role (roleId : string) : M S (Store.Response unit) :=
  await_store (Store.DeleteUserRole roleId)
    (fun _ d => Store.delete_user_role roleId d).

Definition update_complaint (id : string) (p : Store.ComplaintPatch)
  : M S (Store.Response unit) :=
  await_store (Store.UpdateComplaint id p)
    (fun _ d => Store.update_complaint id p d).

End Calls.

End Effects.


(* ================================================================= *)
(** ** The admin panel: the gated [Admin] component *)

Module AdminPanel.
Import Effects.

(** The state variables of the component. *)
Record State := {
  users : list User;
  userRoles : list UserRole;
  complaints : list Complaint;
  isLoading : bool;
  currentUserRole : string;
  showRoleModal : bool;
  selectedUser : option User;
  newRole : Role;
  showReplyModal : bool;
  selectedComplaint : option Complaint;
  replyMessage : JS.code_units;
  isReplying : bool
}.

(** The state at mount: the [useState] initial values. *)
Definition mount : State :=
  {| users := []; userRoles := []; complaints := []; isLoading := true;
     currentUserRole := "user"; showRoleModal := false; selectedUser := None;
     newRole := role_user; showReplyModal := false; selectedComplaint := None;
     replyMessage := []; isReplying := false |}.

Definition setUsers (v : list User) : M State unit :=
  set_view (fun s =>
    {| users := v; userRoles := userRoles s; complaints := complaints s;
       isLoading := isLoading s; currentUserRole := currentUserRole s;
       showRoleModal := showRoleModal s; selectedUser := selectedUser s;
       newRole := newRole s; showReplyModal := showReplyModal s;
       selectedComplaint := selectedComplaint s;
       replyMessage := replyMessage s; isReplying := isReplying s |}).

Definition setUserRoles (v : list UserRole) : M State unit :=
  set_view (fun s =>
    {| users := users s; userRoles := v; complaints := complaints s;
       isLoading := isLoading s; currentUserRole := currentUserRole s;
       showRoleModal := showRoleModal s; selectedUser := selectedUser s;
       newRole := newRole s; showReplyModal := showReplyModal s;
       selectedComplaint := selectedComplaint s;
       replyMessage := replyMessage s; isReplying := isReplying s |}).

Definition setComplaints (v : list Complaint) : M State unit :=
  set_view (fun s =>
    {| users := users s; userRoles := userRoles s; complaints := v;
       isLoading := isLoading s; currentUserRole := currentUserRole s;
       showRoleModal := showRoleModal s; selectedUser := selectedUser s;
       newRole := newRole s; showReplyModal := showReplyModal s;
       selectedComplaint := selectedComplaint s;
       replyMessage := replyMessage s; isReplying := isReplying s |}).

Definition setIsLoading (v : bool) : M State unit :=
  set_view (fun s =>
    {| users := users s; userRoles := userRoles s; complaints := complaints s;
       isLoading := v; currentUserRole := currentUserRole s;
       showRoleModal := showRoleModal s; selectedUser := selectedUser s;
       newRole := newRole s; showReplyModal := showReplyModal s;
       selectedComplaint := selectedComplaint s;
       replyMessage := replyMessage s; isReplying := isReplying s |}).

Definition setCurrentUserRole (v : string) : M State unit :=
  set_view (fun s =>
    {| users := users s; userRoles := userRoles s; complaints := complaints s;
       isLoading := isLoading s; currentUserRole := v;
       showRoleModal := showRoleModal s; selectedUser := selectedUser s;
       newRole := newRole s; showReplyModal := showReplyModal s;
       selectedComplaint := selectedComplaint s;
       replyMessage := replyMessage s; isReplying := isReplying s |}).

Definition setShowRoleModal (v : bool) : M State unit :=
  set_view (fun s =>
    {| users := users s; userRoles := userRoles s; complaints := complaints s;
       isLoading := isLoading s; currentUserRole := currentUserRole s;
       showRoleModal := v; selectedUser := selectedUser s;
       newRole := newRole s; showReplyModal := showReplyModal s;
       selectedComplaint := selectedComplaint s;
       replyMessage := replyMessage s; isReplying := isReplying s |}).

Definition setSelectedUser (v : option User) : M State unit :=
  set_view (fun s =>
    {| users := users s; userRoles := userRoles s; complaints := complaints s;
       isLoading := isLoading s; currentUserRole := currentUserRole s;
       showRoleModal := showRoleModal s; selectedUser := v;
       newRole := newRole s; showReplyModal := showReplyModal s;
       selectedComplaint := selectedComplaint s;
       replyMessage := replyMessage s; isReplying := isReplying s |}).

Definition setNewRole (v : Role) : M State unit :=
  set_view (fun s =>
    {| users := users s; userRoles := userRoles s; complaints := complaints s;
       isLoading := isLoading s; currentUserRole := currentUserRole s;
       showRoleModal := showRoleModal s; selectedUser := selectedUser s;
       newRole := v; showReplyModal := showReplyModal s;
       selectedComplaint := selectedComplaint s;
       replyMessage := replyMessage s; isReplying := isReplying s |}).

Definition setShowReplyModal (v : bool) : M State unit :=
  set_view (fun s =>
    {| users := users s; userRoles := userRoles s; complaints := complaints s;
       isLoading := isLoading s; currentUserRole := currentUserRole s;
       showRoleModal := showRoleModal s; selectedUser := selectedUser s;
       newRole := newRole s; showReplyModal := v;
       selectedComplaint := selectedComplaint s;
       replyMessage := replyMessage s; isReplying := isReplying s |}).

Definition setSelectedComplaint (v : option Complaint) : M State unit :=
  set_view (fun s =>
    {| users := users s; userRoles := userRoles s; complaints := complaints s;
       isLoading := isLoading s; currentUserRole := currentUserRole s;
       showRoleModal := showRoleModal s; selectedUser := selectedUser s;
       newRole := newRole s; showReplyModal := showReplyModal s;
       selectedComplaint := v;
       replyMessage := replyMessage s; isReplying := isReplying s |}).

Definition setReplyMessage (v : JS.code_units) : M State unit :=
  set_view (fun s =>
    {| users := users s; userRoles := userRoles s; complaints := complaints s;
       isLoading := isLoading s; currentUserRole := currentUserRole s;
       showRoleModal := showRoleModal s; selectedUser := selectedUser s;
       newRole := newRole s; showReplyModal := showReplyModal s;
       selectedComplaint := selectedComplaint s;
       replyMessage := v; isReplying := isReplying s |}).

Definition setIsReplying (v : bool) : M State unit :=
  set_view (fun s =>
    {| users := users s; userRoles := userRoles s; complaints := complaints s;
       isLoading := isLoading s; currentUserRole := currentUserRole s;
       showRoleModal := showRoleModal s; selectedUser := selectedUser s;
       newRole := newRole s; showReplyModal := showReplyModal s;
       selectedComplaint := selectedComplaint s;
       replyMessage := replyMessage s; isReplying := v |}).

(** [data || []] *)
Definition rows_or_empty {R} (d : option (list R)) : list R :=
  match d with Some rows => rows | None => [] end.

(** The Authorization Resolver. *)
Definition checkUserRole : M State unit :=
  u <- get_user ;;
  match u with
  | None => ret tt
  | Some u =>
      try_catch
        (r <- select_role_of (auth_id u) ;;
         match Store.error r with
         | Some _ => setCurrentUserRole "user"
         | None =>
             setCurrentUserRole
               (JS.or_else (option_map role_name (Store.data r)) "user")
         end)
        (fun e =>
           console_error "Error checking user role:" e ;;
           setCurrentUserRole "user")
  end.

Definition loadUsers : M State unit :=
  r <- select_users ;;
  match Store.error r with
  | Some e => console_error "Error loading users:" (ExnStore e)
  | None => setUsers (rows_or_empty (Store.data r))
  end.

Definition loadUserRoles : M State unit :=
  r <- select_user_roles ;;
  match Store.error r with
  | Some e => console_error "Error loading user roles:" (ExnStore e)
  | None => setUserRoles (rows_or_empty (Store.data r))
  end.

Definition loadComplaints : M State unit :=
  r <- select_complaints ;;
  match Store.error r with
  | Some e => console_error "Error loading complaints:" (ExnStore e)
  | None => setComplaints (rows_or_empty (Store.data r))
  end.

(** The Admin Data Aggregator. *)
Definition loadAdminData : M State unit :=
  setIsLoading true ;;
  try_finally
    (try_catch
       (promise_all [loadUsers; loadUserRoles; loadComplaints])
       (fun e => console_error "Error loading admin data:" e))
    (setIsLoading false).

(** The Role Mutation Service.  The handler is a closure over the state of
    the render it was created in: [selectedUser] and [newRole] are read
    once, on entry. *)
Definition assignRole : M State unit :=
  st <- get_view ;;
  u <- get_user ;;
  match selectedUser st, u with
  | Some sel, Some u =>
      try_catch
        (r <- upsert_role {| Store.w_id := None;
                             Store.w_user_id := u_id sel;
                             Store.w_role := newRole st;
                             Store.w_assigned_by := auth_id u |} ;;
         match Store.error r with
         | Some e => throw (ExnStore e)
         | None =>
             setShowRoleModal false ;;
             setSelectedUser None ;;
             detached loadUserRoles ;;
             alert ("Role " ++ role_name (newRole st) ++ " assigned successfully!")
         end)
        (fun e =>
           console_error "Error assigning role:" e ;;
           alert "Failed to assign role. Please try again.")
  | _, _ => ret tt
  end.

Definition removeRole (roleId : string) : M State unit :=
  try_catch
    (r <- delete_role roleId ;;
     match Store.error r with
     | Some e => throw (ExnStore e)
     | None =>
         detached loadUserRoles ;;
         alert "Role removed successfully!"
     end)
    (fun e =>
       console_error "Error removing role:" e ;;
       alert "Failed to remove role. Please try again.").

(** The body of the update [handleReply] sends: [replied_by: user?.id] is
    [undefined] when nobody is signed in. *)
Definition resolution (reply : JS.code_units) (t : string)
    (u : option AuthUser) : Store.ComplaintPatch :=
  {| Store.p_status := Some resolved;
     Store.p_admin_reply := Some (JS.trim reply);
     Store.p_replied_at := Some t;
     Store.p_replied_by := option_map auth_id u |}.

(** The Complaint Resolution Service ([e.preventDefault()] has no effect on
    the state modelled here). *)
Definition handleReply : M State unit :=
  st <- get_view ;;
  u <- get_user ;;
  match selectedComplaint st with
  | None => ret tt
  | Some c =>
      if negb (JS.truthy_units (JS.trim (replyMessage st))) then ret tt
      else
        setIsReplying true ;;
        try_finally
          (try_catch
             (t <- get_now ;;
              r <- update_complaint (c_id c)
                     (resolution (replyMessage st) t u) ;;
              match Store.error r with
              | Some e => throw (ExnStore e)
              | None =>
                  setShowReplyModal false ;;
                  setSelectedComplaint None ;;
                  setReplyMessage [] ;;
                  detached loadComplaints ;;
                  alert "Reply sent successfully!"
              end)
             (fun e =>
                console_error "Error sending reply:" e ;;
                alert "Failed to send reply. Please try again."))
          (setIsReplying false)
  end.

(** [getUserRole(userId)], over the loaded [userRoles]. *)
Definition getUserRole (st : State) (userId : string) : string :=
  JS.or_else
    (option_map (fun r => role_name (ur_role r))
       (JS.find (fun r => String.eqb (ur_user_id r) userId) (userRoles st)))
    "user".

(** The counters of the panel's header. *)
Definition totalUsers (st : State) : nat := length (users st).

Definition moderators (st : State) : nat :=
  length (filter (fun r => Role_eqb (ur_role r) role_moderator) (userRoles st)).

Definition admins (st : State) : nat :=
  length (filter (fun r => Role_eqb (ur_role r) role_admin) (userRoles st)).

Definition pendingComplaints (st : State) : nat :=
  length (filter (fun c => Status_eqb (c_status c) pending) (complaints st)).

(** [s as 'user' | 'moderator' | 'admin']: the cast of a role name. *)
Definition as_role (s : string) : Role :=
  if String.eqb s "admin" then role_admin
  else if String.eqb s "moderator" then role_moderator
  else role_user.

(** The "Manage Role" button of an account's row. *)
Definition clickManageRole (u : User) : M State unit :=
  st <- get_view ;;
  setSelectedUser (Some u) ;;
  setNewRole (as_role (getUserRole st (u_id u))) ;;
  setShowRoleModal true.

(** The "Reply" button of a complaint; it is rendered for pending
    complaints only. *)
Definition clickReply (c : Complaint) : M State unit :=
  setSelectedComplaint (Some c) ;;
  setShowReplyModal true.

(** What the component renders: the panel is shown to a viewer whose
    resolved role is ['admin'] only. *)
Inductive Screen :=
| AccessDenied
| LoadingPanel
| Panel (st : State).

Definition render (st : State) : Screen :=
  if negb (String.eqb (currentUserRole st) "admin") then AccessDenied
  else if isLoading st then LoadingPanel
  else Panel st.

(** [useEffect(.., [user])] *)
Definition onUserChange : M State unit :=
  u <- get_user ;;
  match u with
  | Some _ => checkUserRole
  | None => ret tt
  end.

(** [useEffect(.., [currentUserRole])] *)
Definition onCurrentUserRoleChange : M State unit :=
  st <- get_view ;;
  if String.eqb (currentUserRole st) "admin" then loadAdminData else ret tt.

End AdminPanel.


(* ================================================================= *)
(** ** The second [Admin] component: the dashboard of complaints and
       contact messages *)

Module AdminDashboard.
Import Effects.

Record State := {
  complaints : list Complaint;
  contacts : list Contact;
  loading : bool
}.

Definition mount : State :=
  {| complaints := []; contacts := []; loading := true |}.

Definition setComplaints (v : list Complaint) : M State unit :=
  set_view (fun s =>
    {| complaints := v; contacts := contacts s; loading := loading s |}).

Definition setContacts (v : list Contact) : M State unit :=
  set_view (fun s =>
    {| complaints := complaints s; contacts := v; loading := loading s |}).

Definition setLoading (v : bool) : M State unit :=
  set_view (fun s =>
    {| complaints := complaints s; contacts := contacts s; loading := v |}).

(** [fetchData]: the two reads, one after the other; the [error] of a
    response is not looked at, and an array, even an empty one, is truthy. *)
Definition fetchData : M State unit :=
  r1 <- select_complaints ;;
  r2 <- select_contacts ;;
  match Store.data r1 with
  | Some rows => setComplaints rows
  | None => ret tt
  end ;;
  match Store.data r2 with
  | Some rows => setContacts rows
  | None => ret tt
  end ;;
  setLoading false.

(** [useEffect(() => { ...; fetchData(); }, [])] *)
Definition onMount : M State unit := detached fetchData.

Inductive Screen :=
| LoadingDashboard
| Dashboard (cs : list Complaint) (ks : list Contact).

Definition render (st : State) : Screen :=
  if loading st then LoadingDashboard
  else Dashboard (complaints st) (contacts st).

End AdminDashboard.

(* ================================================================= *)
(** ** The route table *)

Module Routes.

(** The components the route table names. *)
Inductive Page :=
| Landing | SignIn | SignUp | PasswordReset | Dashboard | Calendar
| GroupStudy | Notes | StudyStatus | Admin | ModeratorPanel.

(** The identifier the JSX refers to a component by. *)
Definition identifier (p : Page) : string :=
  match p with
  | Landing => "Landing"
  | SignIn => "SignIn"
  | SignUp => "SignUp"
  | PasswordReset => "PasswordReset"
  | Dashboard => "Dashboard"
  | Calendar => "Calendar"
  | GroupStudy => "GroupStudy"
  | Notes => "Notes"
  | StudyStatus => "StudyStatus"
  | Admin => "Admin"
  | ModeratorPanel => "ModeratorPanel"
  end.

(** The identifiers the module binds: its imports, in the order of the
    import statements, and its two declarations.  [Admin] is the default
    export of [./components/Admin]; the sources hold two components of
    that name and do not say which of them the file is. *)
Definition module_scope : list string :=
  ["React"; "Router"; "Routes"; "Route"; "Navigate"; "AuthProvider";
   "useAuth"; "DataProvider"; "ThemeProvider"; "FriendsProvider"; "Landing";
   "SignIn"; "SignUp"; "Dashboard"; "Calendar"; "GroupStudy"; "StudyStatus";
   "Notes"; "Admin"; "PasswordReset"; "ProtectedRoute"; "AppRoutes"; "App"].

Definition bound (scope : list string) (name : string) : bool :=
  existsb (String.eqb name) scope.

(** The [element] of a route. *)
Inductive Element :=
| Navigate (to : string)
| Unwrapped (p : Page)
| ProtectedRoute (p : Page).

(** The identifiers the evaluation of an element reads, in order. *)
Definition references (e : Element) : list string :=
  match e with
  | Navigate _ => ["Navigate"]
  | Unwrapped p => [identifier p]
  | ProtectedRoute p => ["ProtectedRoute"; identifier p]
  end.

(** The [<Route>] children of [<Routes>], in source order, as pairs of
    [path] and [element]; of [user ? .. : ..] the branch taken. *)
Definition routes (user : option AuthUser) : list (string * Element) :=
  let public p :=
    match user with
    | Some _ => Navigate "/dashboard"
    | None => Unwrapped p
    end in
  [("/", public Landing);
   ("/signin", public SignIn);
   ("/signup", public SignUp);
   ("/reset-password", Unwrapped PasswordReset);
   ("/dashboard", ProtectedRoute Dashboard);
   ("/calendar", ProtectedRoute Calendar);
   ("/group-study", ProtectedRoute GroupStudy);
   ("/notes", ProtectedRoute Notes);
   ("/study-status", ProtectedRoute StudyStatus);
   ("/admin", Unwrapped Admin);
   ("/moderator", Unwrapped ModeratorPanel)].

(** What a render comes to: the value, or the [ReferenceError] thrown at
    the first identifier that is not bound. *)
Inductive Rendered (A : Type) :=
| Value (a : A)
| ReferenceError (name : string).
Arguments Value {A} _.
Arguments ReferenceError {A} _.

(** [AppRoutes], in a module that binds the identifiers [scope].  A render
    calls [useAuth()] and evaluates the whole JSX expression, whatever the
    location: [Routes], then for every route [Route] and the identifiers
    of its element.  The route table is the value when all of them are
    bound. *)
Definition AppRoutes (scope : list string) (user : option AuthUser)
  : Rendered (list (string * Element)) :=
  match find (fun name => negb (bound scope name))
          ("useAuth" :: "Routes"
           :: flat_map (fun r => "Route" :: references (snd r)) (routes user))
  with
  | Some name => ReferenceError name
  | None => Value (routes user)
  end.

(** *** Matching a pathname

    react-router compiles the [path] of a leaf route to a regular
    expression: the pattern without its trailing slashes, followed by any
    number of slashes, matched from start to end without regard to case
    (routes are not [caseSensitive] unless they say so). *)

Definition lower (c : ascii) : ascii :=
  let n := N_of_ascii c in
  if (N.leb 65 n && N.leb n 90)%bool then ascii_of_N (n + 32) else c.

Fixpoint lowercase (s : string) : string :=
  match s with
  | EmptyString => EmptyString
  | String c s' => String (lower c) (lowercase s')
  end.

(** [s] without its trailing slashes. *)
Fixpoint strip (s : string) : string :=
  match s with
  | EmptyString => EmptyString
  | String c s' =>
      match strip s' with
      | EmptyString => if Ascii.eqb c "/" then EmptyString else String c EmptyString
      | rest => String c rest
      end
  end.

Definition normal (s : string) : string := lowercase (strip s).

(** [pathname] is the pathname of the location as the router hands it to
    the matcher; it is not empty. *)
Definition matches (pattern pathname : string) : bool :=
  negb (String.eqb pathname "")
  && String.eqb (normal pathname) (normal pattern).

(** The element [<Routes>] renders at a pathname: that of the route that
    matches.  The router ranks the routes first; the patterns of this
    table are static and no two of them match the same pathname, so the
    rank does not decide anything. *)
Definition matchRoutes (table : list (string * Element)) (pathname : string)
  : option Element :=
  option_map snd (find (fun r => matches (fst r) pathname) table).

(** What [<AppRoutes />] comes to at a pathname. *)
Definition render (scope : list string) (user : option AuthUser)
    (pathname : string) : Rendered (option Element) :=
  match AppRoutes scope user with
  | Value table => Value (matchRoutes table pathname)
  | ReferenceError name => ReferenceError name
  end.

End Routes.


(* ================================================================= *)
(** ** Sessions, events and the notions the properties are stated with *)

Module Workflow.
Import Effects.
Import AdminPanel.

(** A freshly mounted admin panel in the browser of account [a], over the
    store and the environment of [w]. *)
Definition session {S} (a : AuthUser) (w : World S) : World State :=
  {| db := db w; fault := fault w; now := now w; user := Some a;
     requests := []; console := []; alerts := []; unhandled := [];
     view := mount |}.

(** The role the Authorization Resolver yields for account [a] over the
    store of [w]. *)
Definition Resolver {S} (w : World S) (a : AuthUser) : string :=
  currentUserRole (view (snd (checkUserRole (session a w)))).

(** The role lookup of account [a] fails: its promise rejects, or it
    resolves with an error. *)
Definition lookup_fails {S} (w : World S) (a : AuthUser) : Prop :=
  match fst (select_role_of (auth_id a) w) with
  | Thrown _ => True
  | Returned r => Store.error r <> None
  end.

(** The identity an account signs in with. *)
Definition identity (u : User) : AuthUser := {| auth_id := u_id u |}.

(** The operator opens the role dialog of account [u], picks [r] and
    presses "Assign Role". *)
Definition assign (u : User) (r : Role) : M State unit :=
  clickManageRole u ;; setNewRole r ;; assignRole.

(** The row the store inserts when operator [by_] assigns [r] to [u]. *)
Definition assigned {S} (w : World S) (u : User) (r : Role) (by_ : AuthUser)
  : UserRole :=
  {| ur_id := Store.gen_random_uuid (Store.uuid_seq (db w));
     ur_user_id := u_id u;
     ur_role := r;
     ur_assigned_by := auth_id by_;
     ur_created_at := now w |}.

(** The requests a run from [w] to [w'] has issued. *)
Definition issued {S} (w w' : World S) : list Store.Request :=
  skipn (length (requests w)) (requests w').

(** The all-or-nothing shape of a complaint: pending with no reply field,
    or resolved with the three of them. *)
Definition well_replied (c : Complaint) : Prop :=
  match c_status c with
  | pending =>
      c_admin_reply c = None /\ c_replied_at c = None /\ c_replied_by c = None
  | resolved =>
      c_admin_reply c <> None /\ c_replied_at c <> None /\ c_replied_by c <> None
  end.

(** The part of it that [handleReply] keeps without a signed-in operator. *)
Definition reply_present (c : Complaint) : Prop :=
  c_status c = resolved -> c_admin_reply c <> None.

(** A computation keeps a property of the store. *)
Definition preserves {S A} (I : Store.Database -> Prop) (m : M S A) : Prop :=
  forall w, I (db w) -> I (db (snd (m w))).

(** The three collections the Admin Data Aggregator loads. *)
Inductive Collection := Accounts | Roles | Complaints.

Definition table_of (c : Collection) : Store.Table :=
  match c with
  | Accounts => Store.t_users
  | Roles => Store.t_user_roles
  | Complaints => Store.t_complaints
  end.

(** What the console shows when the read of collection [c] fails: the
    loader logs an error the call resolved with, and [loadAdminData] logs
    the rejection of the joined promise. *)
Definition load_failure (c : Collection) (how : Fault) : string * Exn :=
  match how with
  | FaultError e =>
      (match c with
       | Accounts => "Error loading users:"
       | Roles => "Error loading user roles:"
       | Complaints => "Error loading complaints:"
       end, ExnStore e)
  | FaultReject reason => ("Error loading admin data:", ExnRejected reason)
  end.

(** Every resolved complaint of the store carries a reply. *)
Definition replies_present (d : Store.Database) : Prop :=
  Forall reply_present (Store.complaints d).

(** What can happen to a mounted panel: the operator's actions, the
    component's effects, and the environment changing the signed-in
    identity, the faults and the clock, or filing a new complaint through
    the submission form (pending, with no reply field). *)
Inductive Event :=
| EvUserChange (u : option AuthUser)
| EvEnvironment (f : Store.Request -> option Fault) (t : string)
| EvComplaintFiled (id email phone subject message : string)
| EvCurrentUserRoleChange
| EvManageRole (u : User)
| EvSelectRole (r : Role)
| EvCloseRoleModal
| EvAssignRole
| EvRemoveRole (roleId : string)
| EvReply (c : Complaint)
| EvTypeReply (text : JS.code_units)
| EvCloseReplyModal
| EvSubmitReply.

Definition filed (id email phone subject message t : string) : Complaint :=
  {| c_id := id; c_email := email; c_phone := phone; c_subject := subject;
     c_message := message; c_status := pending; c_created_at := t;
     c_admin_reply := None; c_replied_at := None; c_replied_by := None |}.

Definition handle (e : Event) : M State unit :=
  match e with
  | EvUserChange u =>
      (fun w =>
         (Returned tt,
          {| db := db w; fault := fault w; now := now w; user := u;
             requests := requests w; console := console w;
             alerts := alerts w; unhandled := unhandled w;
             view := view w |})) ;;
      onUserChange
  | EvEnvironment f t =>
      fun w =>
        (Returned tt,
         {| db := db w; fault := f; now := t; user := user w;
            requests := requests w; console := console w;
            alerts := alerts w; unhandled := unhandled w; view := view w |})
  | EvComplaintFiled id email phone subject message =>
      fun w =>
        (Returned tt,
         {| db := Store.with_complaints
                    (Store.complaints (db w)
                     ++ [filed id email phone subject message (now w)])
                    (db w);
            fault := fault w; now := now w; user := user w;
            requests := requests w; console := console w;
            alerts := alerts w; unhandled := unhandled w; view := view w |})
  | EvCurrentUserRoleChange => onCurrentUserRoleChange
  | EvManageRole u => clickManageRole u
  | EvSelectRole r => setNewRole r
  | EvCloseRoleModal => setShowRoleModal false
  | EvAssignRole => assignRole
  | EvRemoveRole roleId => removeRole roleId
  | EvReply c => clickReply c
  | EvTypeReply text => setReplyMessage text
  | EvCloseReplyModal => setShowReplyModal false
  | EvSubmitReply => handleReply
  end.

(** The world after a sequence of events; a handler started from an event
    is not awaited. *)
Fixpoint after (es : list Event) (w : World State) : World State :=
  match es with
  | [] => w
  | e :: es' => after es' (snd (detached (handle e) w))
  end.

End Workflow.

(* ================================================================= *)
(** ** Concrete stores and sessions *)

Module Scenario.
Import Effects.
Import Workflow.

Definition no_fault : Store.Request -> option Fault := fun _ => None.

Definition network_down : Fault := FaultReject "Failed to fetch".

Definition denied : Fault :=
  FaultError {| Store.code := "42501"; Store.message := "permission denied" |}.

(** The environment in which the read of one table fails. *)
Definition read_fails (t : Store.Table) (how : Fault)
  : Store.Request -> option Fault :=
  fun rq =>
    match rq, t with
    | Store.SelectAll Store.t_users, Store.t_users
    | Store.SelectAll Store.t_user_roles, Store.t_user_roles
    | Store.SelectAll Store.t_complaints, Store.t_complaints
    | Store.SelectAll Store.t_contacts, Store.t_contacts => Some how
    | _, _ => None
    end.

(** The environment in which every write fails. *)
Definition writes_fail (how : Fault) : Store.Request -> option Fault :=
  fun rq => if Store.is_write rq then Some how else None.

Definition alice : User :=
  {| u_id := "A"; u_name := "Alice"; u_email := "alice@example.org";
     u_institution := None; u_phone := None;
     u_created_at := "2024-03-01T09:00:00.000Z" |}.

(** The operator, and the role row that makes them an admin. *)
Definition root : AuthUser := {| auth_id := "root" |}.

Definition root_row : UserRole :=
  {| ur_id := "R0"; ur_user_id := "root"; ur_role := role_admin;
     ur_assigned_by := "root"; ur_created_at := "2024-01-01T00:00:00.000Z" |}.

Definition moderator_row : UserRole :=
  {| ur_id := "R1"; ur_user_id := "A"; ur_role := role_moderator;
     ur_assigned_by := "root"; ur_created_at := "2024-04-01T00:00:00.000Z" |}.

Definition admin_row : UserRole :=
  {| ur_id := "R2"; ur_user_id := "A"; ur_role := role_admin;
     ur_assigned_by := "root"; ur_created_at := "2024-04-05T00:00:00.000Z" |}.

Definition bug_report : Complaint :=
  {| c_id := "C-1"; c_email := "x@y.com"; c_phone := "555-0100";
     c_subject := "Bug"; c_message := "The calendar loses my exams";
     c_status := pending; c_created_at := "2024-04-02T08:30:00.000Z";
     c_admin_reply := None; c_replied_at := None; c_replied_by := None |}.

Definition hello : Contact :=
  {| k_id := "K1"; k_name := "Bob"; k_email := "bob@example.org";
     k_message := "Hello"; k_created_at := "2024-04-03T12:00:00.000Z" |}.

(** A store with one account that has no role row, the operator's role
    row, one pending complaint and one contact message; [user_roles] is
    keyed on [id]. *)
Definition store (unique : bool) : Store.Database :=
  {| Store.users := [alice]; Store.user_roles := [root_row];
     Store.complaints := [bug_report]; Store.contacts := [hello];
     Store.uuid_seq := 0; Store.user_id_unique := unique;
     Store.upsert_key := Store.key_id |}.

(** The same store holding the role rows [rows] instead, with no UNIQUE
    constraint on [user_id]. *)
Definition with_roles (rows : list UserRole) : Store.Database :=
  Store.with_user_roles rows (length rows) (store false).

Definition world {S} (d : Store.Database)
    (f : Store.Request -> option Fault) (u : option AuthUser) (st : S)
  : World S :=
  {| db := d; fault := f; now := "2024-05-01T10:00:00.000Z"; user := u;
     requests := []; console := []; alerts := []; unhandled := [];
     view := st |}.

(** A panel just mounted, nobody signed in yet. *)
Definition mounted (unique : bool) : World AdminPanel.State :=
  world (store unique) no_fault None AdminPanel.mount.

(** The operator's panel while the network is down. *)
Definition offline : World AdminPanel.State :=
  world (store true) (fun _ => Some network_down) (Some root)
    AdminPanel.mount.

(** Alice's session over a store where she has the given role rows. *)
Definition alice_with (rows : list UserRole) : World AdminPanel.State :=
  world (with_roles rows) no_fault (Some (identity alice)) AdminPanel.mount.

(** The operator signs in; the role resolves to ['admin'] and the panel
    loads. *)
Definition sign_in : list Event :=
  [EvUserChange (Some root); EvCurrentUserRoleChange].

Definition loaded (unique : bool) : World AdminPanel.State :=
  after sign_in (mounted unique).

(** The operator opens the reply dialog of the complaint and types
    [text]. *)
Definition draft (text : string) : list Event :=
  [EvReply bug_report; EvTypeReply (JS.of_string text)].

(** The loaded panel with the reply typed in; [how], when given, is what
    the environment then does to every write. *)
Definition drafting (how : option Fault) (text : string)
  : World AdminPanel.State :=
  after (draft text
         ++ [EvEnvironment
               (match how with
                | Some h => writes_fail h
                | None => no_fault
                end)
               "2024-05-01T10:02:00.000Z"])
    (loaded true).

(** The same, the operator's session having ended while the dialog was
    open. *)
Definition drafting_signed_out (text : string) : World AdminPanel.State :=
  after (draft text ++ [EvUserChange None]) (loaded true).

(** The loaded panel whose role lookup failed once while the network was
    down and has been answered again since; the read of the complaints
    still fails.  The role is ['admin'] again and the aggregator is about
    to run a second time. *)
Definition reloading (how : Fault) : World AdminPanel.State :=
  after [EvEnvironment (fun _ => Some network_down) "2024-05-01T10:05:00.000Z";
         EvUserChange (Some root);
         EvCurrentUserRoleChange;
         EvEnvironment (read_fails Store.t_complaints how)
           "2024-05-01T10:06:00.000Z";
         EvUserChange (Some root)]
    (loaded true).

(** The dashboard as mounted for a viewer [u], over a store with the role
    rows [rows]. *)
Definition dashboard (rows : list UserRole) (u : option AuthUser)
  : World AdminDashboard.State :=
  world (with_roles rows) no_fault u AdminDashboard.mount.

End Scenario.

(* ================================================================= *)
(** ** The contact form: the [ContactForm] component *)

Module ContactForm.

(** The state variables of the component. *)
Record State := {
  name : string;
  email : string;
  message : string;
  loading : bool;
  error : string
}.

Definition mount : State :=
  {| name := ""; email := ""; message := ""; loading := false; error := "" |}.

(** The props of the component: the two callbacks of its parent. *)
Inductive Callback := onSuccess | onClose.

(** What [handleSubmit] reads or changes: the store, what the environment
    does to the insert, the clock, the calls made to the parent, and the
    state of the form. *)
Record World := {
  db : Store.Database;
  fault : option Effects.Fault;
  now : string;
  calls : list Callback;
  view : State
}.

Definition M (A : Type) : Type := World -> Effects.Outcome A * World.

Definition ret {A} (a : A) : M A := fun w => (Effects.Returned a, w).

Definition bind {A B} (m : M A) (k : A -> M B) : M B :=
  fun w =>
    match m w with
    | (Effects.Returned a, w') => k a w'
    | (Effects.Thrown x, w') => (Effects.Thrown x, w')
    end.

Definition throw {A} (x : Effects.Exn) : M A := fun w => (Effects.Thrown x, w).

Definition try_catch {A} (m : M A) (h : Effects.Exn -> M A) : M A :=
  fun w =>
    match m w with
    | (Effects.Returned a, w') => (Effects.Returned a, w')
    | (Effects.Thrown x, w') => h x w'
    end.

Definition try_finally {A} (m : M A) (f : M unit) : M A :=
  fun w =>
    match m w with
    | (o, w') =>
        match f w' with
        | (Effects.Returned _, w'') => (o, w'')
        | (Effects.Thrown x, w'') => (Effects.Thrown x, w'')
        end
    end.

Local Notation "x <- m ;; k" := (bind m (fun x => k))
  (at level 61, m at next level, right associativity).
Local Notation "m ;; k" := (bind m (fun _ => k))
  (at level 61, right associativity).

Definition get_view : M State := fun w => (Effects.Returned (view w), w).
Definition get_now : M string := fun w => (Effects.Returned (now w), w).

Definition set_view (f : State -> State) : M unit :=
  fun w =>
    (Effects.Returned tt,
     {| db := db w; fault := fault w; now := now w; calls := calls w;
        view := f (view w) |}).

(** A call of one of the parent's callbacks. *)
Definition call (c : Callback) : M unit :=
  fun w =>
    (Effects.Returned tt,
     {| db := db w; fault := fault w; now := now w; calls := calls w ++ [c];
        view := view w |}).

Definition setName (v : string) : M unit :=
  set_view (fun s =>
    {| name := v; email := email s; message := message s;
       loading := loading s; error := error s |}).

Definition setEmail (v : string) : M unit :=
  set_view (fun s =>
    {| name := name s; email := v; message := message s;
       loading := loading s; error := error s |}).

Definition setMessage (v : string) : M unit :=
  set_view (fun s =>
    {| name := name s; email := email s; message := v;
       loading := loading s; error := error s |}).

Definition setLoading (v : bool) : M unit :=
  set_view (fun s =>
    {| name := name s; email := email s; message := message s;
       loading := v; error := error s |}).

Definition setError (v : string) : M unit :=
  set_view (fun s =>
    {| name := name s; email := email s; message := message s;
       loading := loading s; error := v |}).

(** The row the store appends for an inserted contact message; its [id] is
    generated. *)
Definition inserted (d : Store.Database) (n e m t : string) : Contact :=
  {| k_id := Store.gen_random_uuid (Store.uuid_seq d);
     k_name := n; k_email := e; k_message := m; k_created_at := t |}.

(** [from('contacts').insert([{ name, email, message, created_at }])] *)
Definition insert_contact (n e m t : string) : M (Store.Response unit) :=
  fun w =>
    match fault w with
    | Some (Effects.FaultReject reason) =>
        (Effects.Thrown (Effects.ExnRejected reason), w)
    | Some (Effects.FaultError err) => (Effects.Returned (Store.failed err), w)
    | None =>
        (Effects.Returned Store.done,
         {| db := {| Store.users := Store.users (db w);
                     Store.user_roles := Store.user_roles (db w);
                     Store.complaints := Store.complaints (db w);
                     Store.contacts :=
                       Store.contacts (db w) ++ [inserted (db w) n e m t];
                     Store.uuid_seq := S (Store.uuid_seq (db w));
                     Store.user_id_unique := Store.user_id_unique (db w);
                     Store.upsert_key := Store.upsert_key (db w) |};
            fault := fault w; now := now w; calls := calls w;
            view := view w |})
    end.

(** [err.message] of the value caught. *)
Definition message_of (x : Effects.Exn) : string :=
  match x with
  | Effects.ExnStore e => Store.message e
  | Effects.ExnRejected reason => reason
  end.

(** [handleSubmit] ([e.preventDefault()] has no effect on the state
    modelled here).  The handler is a closure over the fields of the
    render it was created in. *)
Definition handleSubmit : M unit :=
  st <- get_view ;;
  if negb (JS.truthy (name st)) || negb (JS.truthy (email st))
     || negb (JS.truthy (message st))
  then setError "Please fill in all fields"
  else
    setLoading true ;;
    setError "" ;;
    try_finally
      (try_catch
         (t <- get_now ;;
          r <- insert_contact (name st) (email st) (message st) t ;;
          match Store.error r with
          | Some e => throw (Effects.ExnStore e)
          | None =>
              setName "" ;;
              setEmail "" ;;
              setMessage "" ;;
              call onSuccess ;;
              call onClose
          end)
         (fun err =>
            setError (JS.or_else (Some (message_of err)) "Something went wrong")))
      (setLoading false).

End ContactForm.

(* ================================================================= *)
(** ** The exam form: the [ExamForm] component *)

Module ExamForm.

(** The state variables of the component. *)
Record State := {
  subject : string;
  date : string;
  time : string
}.

Definition mount : State := {| subject := ""; date := ""; time := "" |}.

(** The object handed to [addExam]. *)
Record Exam := {
  e_subject : string;
  e_date : string;
  e_time : string
}.

(** The calls the component makes: [addExam] of the data context and the
    [onClose] prop. *)
Inductive Callback :=
| addExam (e : Exam)
| onClose.

Record World := {
  calls : list Callback;
  view : State
}.

(** [handleSubmit] *)
Definition handleSubmit (w : World) : World :=
  let st := view w in
  if JS.truthy (subject st) && JS.truthy (date st) && JS.truthy (time st)
  then
    {| calls := calls w
                ++ [addExam {| e_subject := subject st; e_date := date st;
                               e_time := time st |};
                    onClose];
       view := st |}
  else w.

(** What the user can do with the form: type into a field, submit, or
    press one of the two buttons wired to [onClose]. *)
Inductive Event :=
| SetSubject (v : string)
| SetDate (v : string)
| SetTime (v : string)
| Submit
| Close.

Definition handle (e : Event) (w : World) : World :=
  match e with
  | SetSubject v =>
      {| calls := calls w;
         view := {| subject := v; date := date (view w); time := time (view w) |} |}
  | SetDate v =>
      {| calls := calls w;
         view := {| subject := subject (view w); date := v; time := time (view w) |} |}
  | SetTime v =>
      {| calls := calls w;
         view := {| subject := subject (view w); date := date (view w); time := v |} |}
  | Submit => handleSubmit w
  | Close => {| calls := calls w ++ [onClose]; view := view w |}
  end.

Definition after (es : list Event) (w : World) : World :=
  fold_left (fun w e => handle e w) es w.

(** The exams handed to [addExam] so far. *)
Fixpoint added (cs : list Callback) : list Exam :=
  match cs with
  | [] => []
  | addExam e :: cs' => e :: added cs'
  | onClose :: cs' => added cs'
  end.

End ExamForm.

(* ================================================================= *)
(** ** Measures and frames of the panel *)

Module Frames.
Import Effects.

(** A computation keeps a property of the store and of the component's
    state. *)
Definition maintains {S A} (P : Store.Database -> S -> Prop) (m : M S A)
  : Prop :=
  forall w, P (db w) (view w) -> P (db (snd (m w))) (view (snd (m w))).



(** A resolved complaint carries its reply and the time of the reply. *)
Definition answered (c : Complaint) : Prop :=
  c_status c = resolved ->
  c_admin_reply c <> None /\ c_replied_at c <> None.

(** The complaint at place [i] of the table has identifier [id] and is
    resolved. *)
Definition resolved_at (i : nat) (id : string) (d : Store.Database) : Prop :=
  exists c, nth_error (Store.complaints d) i = Some c /\
            c_id c = id /\ c_status c = resolved.

(** The thrown value a failed request ends up as in a handler's [catch]. *)
Definition caught (how : Fault) : Exn :=
  match how with
  | FaultError e => ExnStore e
  | FaultReject reason => ExnRejected reason
  end.

(** No row after a row of the list is newer than it. *)
Definition newest_first {R} (key : R -> string) (l : list R) : Prop :=
  StronglySorted (fun x y => String.ltb (key x) (key y) = false) l.

(** The role rows of the store that hold role [r]. *)
Definition holding (r : Role) (rows : list UserRole) : nat :=
  length (filter (fun x => Role_eqb (ur_role x) r) rows).

(** The pending complaints among [cs]. *)
Definition pending_among (cs : list Complaint) : nat :=
  length (filter (fun c => Status_eqb (c_status c) pending) cs).

(** The sign-in of account [a] on a mounted panel: the identity changes,
    the role is looked up, and the effect on the role runs. *)
Definition sign_in (a : AuthUser) : list Workflow.Event :=
  [Workflow.EvUserChange (Some a); Workflow.EvCurrentUserRoleChange].

(** The sign-in of account [a] on a rendered panel, with the dependency
    lists of the two effects: the effect on [user] runs, and
    [useEffect(.., [currentUserRole])] runs after it only when the role
    the lookup has set differs from the role of the render before. *)
Definition signs_in (a : AuthUser) (w : World AdminPanel.State)
  : World AdminPanel.State :=
  let w1 := Workflow.after [Workflow.EvUserChange (Some a)] w in
  if String.eqb (AdminPanel.currentUserRole (view w1))
                (AdminPanel.currentUserRole (view w))
  then w1
  else Workflow.after [Workflow.EvCurrentUserRoleChange] w1.

End Frames.

(* ================================================================= *)
(** ** Concrete forms *)

Module Cases.

(** The contact form with the three fields typed in, over the store of the
    scenarios; [f] is what the environment does to the insert. *)
Definition form (f : option Effects.Fault) (n e m : string)
  : ContactForm.World :=
  {| ContactForm.db := Scenario.store true;
     ContactForm.fault := f;
     ContactForm.now := "2024-05-02T09:00:00.000Z";
     ContactForm.calls := [];
     ContactForm.view :=
       {| ContactForm.name := n; ContactForm.email := e;
          ContactForm.message := m; ContactForm.loading := false;
          ContactForm.error := "" |} |}.

(** The dashboard mounted by an anonymous visitor over the store [d]. *)
Definition dashboard_over (d : Store.Database)
  : Effects.World AdminDashboard.State :=
  Scenario.world d Scenario.no_fault None AdminDashboard.mount.

(** The store [d] with [user_roles] keyed on [user_id]. *)
Definition keyed_on_account (d : Store.Database) : Store.Database :=
  {| Store.users := Store.users d; Store.user_roles := Store.user_roles d;
     Store.complaints := Store.complaints d;
     Store.contacts := Store.contacts d; Store.uuid_seq := Store.uuid_seq d;
     Store.user_id_unique := Store.user_id_unique d;
     Store.upsert_key := Store.key_user_id |}.

(** The operator's loaded panel over the store of the scenarios keyed on
    [user_id]. *)
Definition keyed_panel : Effects.World AdminPanel.State :=
  Workflow.after Scenario.sign_in
    (Scenario.world (keyed_on_account (Scenario.store true))
       Scenario.no_fault None AdminPanel.mount).

(** The exam form just opened. *)
Definition exam_form : ExamForm.World :=
  {| ExamForm.calls := []; ExamForm.view := ExamForm.mount |}.

(** An exam has its three fields filled. *)
Definition filled (e : ExamForm.Exam) : Prop :=
  ExamForm.e_subject e <> "" /\ ExamForm.e_date e <> "" /\
  ExamForm.e_time e <> "".

(** The number of submissions among the events [es]. *)
Definition submissions (es : list ExamForm.Event) : nat :=
  length (filter (fun e => match e with ExamForm.Submit => true | _ => false end)
            es).

End Cases.



Import Effects.
Import AdminPanel.
Import Workflow.

(** Unfolds a handler, applied to a world given by its fields, into the
    world it produces; what stays is a [match] on the answer of the
    environment or of the store. *)
Ltac run :=
  cbv [checkUserRole loadUsers loadUserRoles loadComplaints loadAdminData
       assignRole removeRole handleReply clickManageRole clickReply
       onUserChange onCurrentUserRoleChange assign resolution
       setUsers setUserRoles setComplaints setIsLoading setCurrentUserRole
       setShowRoleModal setSelectedUser setNewRole setShowReplyModal
       setSelectedComplaint setReplyMessage setIsReplying rows_or_empty
       select_role_of select_users select_user_roles select_complaints
       select_contacts upsert_role delete_role update_complaint
       bind ret throw try_catch try_finally get_view get_user get_now
       set_view console_error alert await_store detached promise_all
       Resolver session identity
       Store.error Store.data Store.ok Store.done Store.failed
       Store.select_all Store.delete_user_role Store.update_complaint
       db fault now user requests console alerts unhandled view fst snd
       users userRoles complaints isLoading currentUserRole showRoleModal
       selectedUser newRole showReplyModal selectedComplaint replyMessage
       isReplying].

(* ================================================================= *)
(** ** Facts about lists, ordering and trimming *)

Section ListFacts.
Context {R : Type}.

Lemma filter_nil_existsb (p : R -> bool) (l : list R) :
  filter p l = [] -> existsb p l = false.
Proof.
  induction l as [|x l IH]; simpl; [reflexivity|].
  destruct (p x); [discriminate|auto].
Qed.

Lemma filter_cons_existsb (p : R -> bool) (l : list R) (x : R) (l' : list R) :
  filter p l = x :: l' -> existsb p l = true.
Proof.
  induction l as [|y l IH]; simpl; [discriminate|].
  destruct (p y); [reflexivity|auto].
Qed.

Lemma filter_filter_comm (p q : R -> bool) (l : list R) :
  filter p (filter q l) = filter q (filter p l).
Proof.
  induction l as [|x l IH]; simpl; [reflexivity|].
  destruct (q x) eqn:Hq, (p x) eqn:Hp; simpl; rewrite ?Hq, ?Hp, IH; reflexivity.
Qed.

Lemma filter_map_stable (p : R -> bool) (f : R -> R) (l : list R) :
  (forall x, In x l -> p (f x) = p x) ->
  filter p (map f l) = map f (filter p l).
Proof.
  induction l as [|x l IH]; intros H; simpl; [reflexivity|].
  rewrite (H x (or_introl eq_refl)), IH by (intros y Hy; apply H; right; exact Hy).
  destruct (p x); reflexivity.
Qed.

Lemma insert_desc_perm (key : R -> string) (x : R) (l : list R) :
  Permutation (Store.insert_desc key x l) (x :: l).
Proof.
  induction l as [|y l IH]; simpl; [reflexivity|].
  destruct (String.ltb (key x) (key y)); [|reflexivity].
  rewrite IH. apply perm_swap.
Qed.

Lemma order_desc_perm (key : R -> string) (l : list R) :
  Permutation (Store.order_desc key l) l.
Proof.
  induction l as [|x l IH]; simpl; [reflexivity|].
  rewrite insert_desc_perm. constructor. exact IH.
Qed.

Lemma find_in_permuted (p : R -> bool) (l l' : list R) (x : R) :
  Permutation l' l -> In x l -> p x = true ->
  exists y, find p l' = Some y /\ In y l /\ p y = true.
Proof.
  intros Hperm Hin Hp.
  destruct (find p l') as [y|] eqn:Hfind.
  - apply find_some in Hfind. destruct Hfind as [Hy Hpy].
    exists y. repeat split; auto.
    eapply Permutation_in; eauto.
  - exfalso. eapply find_none in Hfind.
    + rewrite Hp in Hfind. discriminate.
    + eapply Permutation_in; [symmetry|]; eauto.
Qed.

End ListFacts.

Lemma trimStart_blank (s : JS.code_units) :
  forallb JS.is_white_space s = true -> JS.trimStart s = [].
Proof.
  induction s as [|c s IH]; simpl; [reflexivity|].
  destruct (JS.is_white_space c); simpl; [exact IH|discriminate].
Qed.

Lemma trim_blank (s : JS.code_units) :
  forallb JS.is_white_space s = true -> JS.trim s = [].
Proof.
  intros H. unfold JS.trim. rewrite trimStart_blank by exact H. reflexivity.
Qed.

Lemma trim_nil_blank (s : JS.code_units) :
  JS.trim s = [] -> forallb JS.is_white_space s = true.
Proof.
  unfold JS.trim. induction s as [|c s IH]; simpl; [reflexivity|].
  destruct (JS.is_white_space c) eqn:Hc; simpl.
  - exact IH.
  - destruct (JS.trimEnd s); [rewrite Hc|]; discriminate.
Qed.

(* ================================================================= *)
(** ** The Authorization Resolver *)

Lemma role_name_truthy (r : Role) : JS.truthy (role_name r) = true.
Proof. destruct r; reflexivity. Qed.

(** C4.  For an account with no role row, and whenever the role lookup
    fails, for whatever reason (the call resolves with an error or its
    promise rejects), the Resolver sets the current role to ['user']; the
    failure does not reach the caller: the handler returns normally, shows
    no alert and leaves no rejection unhandled. *)
Theorem checkUserRole_fails_closed :
  forall (w : World State) (a : AuthUser),
    user w = Some a ->
    Store.roles_of (auth_id a) (Store.user_roles (db w)) = [] \/
    lookup_fails w a ->
    exists w',
      checkUserRole w = (Returned tt, w') /\
      currentUserRole (view w') = "user" /\
      alerts w' = alerts w /\ unhandled w' = unhandled w.
Proof.
  intros [d f t u rq co al un st] a Hu Hfail; simpl in *; subst u.
  unfold lookup_fails, select_role_of, await_store in Hfail. simpl in Hfail.
  run.
  destruct (f (Store.SelectRoleSingle (auth_id a))) as [[e|reason]|] eqn:Hf.
  - eexists; repeat split; reflexivity.
  - eexists; repeat split; reflexivity.
  - unfold Store.select_role_single in *.
    destruct (Store.roles_of (auth_id a) (Store.user_roles d)) as [|r [|r' rest]];
      try (eexists; repeat split; reflexivity).
    exfalso. destruct Hfail as [Hnone|Herr]; [discriminate|].
    apply Herr. reflexivity.
Qed.

Lemma checkUserRole_fails_closed_witness :
  user Scenario.offline = Some Scenario.root /\
  lookup_fails Scenario.offline Scenario.root /\
  exists w',
    checkUserRole Scenario.offline = (Returned tt, w') /\
    currentUserRole (view w') = "user" /\
    alerts w' = alerts Scenario.offline /\
    unhandled w' = unhandled Scenario.offline.
Proof.
  assert (Hfails : lookup_fails Scenario.offline Scenario.root)
    by (vm_compute; exact I).
  split; [reflexivity|]. split; [exact Hfails|].
  apply (checkUserRole_fails_closed Scenario.offline Scenario.root).
  - reflexivity.
  - right. exact Hfails.
Defined.

(** C5.  For an account with exactly one role row, when the lookup is
    answered, the Resolver sets the current role to that row's role. *)
Theorem checkUserRole_single_row :
  forall (w : World State) (a : AuthUser) (r : UserRole),
    user w = Some a ->
    fault w (Store.SelectRoleSingle (auth_id a)) = None ->
    Store.roles_of (auth_id a) (Store.user_roles (db w)) = [r] ->
    exists w',
      checkUserRole w = (Returned tt, w') /\
      currentUserRole (view w') = role_name (ur_role r).
Proof.
  intros [d f t u rq co al un st] a r Hu Hf Hone; simpl in *; subst u. run.
  rewrite Hf. unfold Store.select_role_single. rewrite Hone. run.
  eexists; split; [reflexivity|]. simpl.
  unfold JS.or_else. simpl. rewrite role_name_truthy. reflexivity.
Qed.

Lemma checkUserRole_single_row_witness :
  Store.roles_of "A"
    (Store.user_roles (db (Scenario.alice_with [Scenario.moderator_row])))
    = [Scenario.moderator_row] /\
  exists w',
    checkUserRole (Scenario.alice_with [Scenario.moderator_row])
      = (Returned tt, w') /\
    currentUserRole (view w') = "moderator".
Proof.
  split; [reflexivity|].
  apply (checkUserRole_single_row
           (Scenario.alice_with [Scenario.moderator_row])
           (identity Scenario.alice) Scenario.moderator_row);
    reflexivity.
Defined.

(** C9.  For an account with more than one role row the Resolver sets the
    current role to ['user'], whatever the roles of the rows: the
    single-row lookup resolves with an error. *)
Theorem checkUserRole_several_rows :
  forall (w : World State) (a : AuthUser),
    user w = Some a ->
    2 <= length (Store.roles_of (auth_id a) (Store.user_roles (db w))) ->
    exists w',
      checkUserRole w = (Returned tt, w') /\
      currentUserRole (view w') = "user".
Proof.
  intros [d f t u rq co al un st] a Hu Hmany; simpl in *; subst u. run.
  destruct (f (Store.SelectRoleSingle (auth_id a))) as [[e|reason]|] eqn:Hf;
    try (eexists; split; reflexivity).
  unfold Store.select_role_single.
  destruct (Store.roles_of (auth_id a) (Store.user_roles d))
    as [|r1 [|r2 rest]]; simpl in Hmany; try lia.
  eexists; split; reflexivity.
Qed.

Lemma checkUserRole_several_rows_witness :
  map ur_role
    (Store.roles_of "A"
       (Store.user_roles
          (db (Scenario.alice_with [Scenario.moderator_row; Scenario.admin_row]))))
    = [role_moderator; role_admin] /\
  exists w',
    checkUserRole
      (Scenario.alice_with [Scenario.moderator_row; Scenario.admin_row])
      = (Returned tt, w') /\
    currentUserRole (view w') = "user".
Proof.
  split; [reflexivity|].
  apply (checkUserRole_several_rows
           (Scenario.alice_with [Scenario.moderator_row; Scenario.admin_row])
           (identity Scenario.alice)).
  - reflexivity.
  - simpl. lia.
Defined.

(** The role the Resolver yields, as a function of the account's rows. *)
Lemma Resolver_answered {S} (w : World S) (a : AuthUser) :
  fault w (Store.SelectRoleSingle (auth_id a)) = None ->
  Resolver w a =
    match Store.roles_of (auth_id a) (Store.user_roles (db w)) with
    | [r] => role_name (ur_role r)
    | _ => "user"
    end.
Proof.
  destruct w as [d f t u rq co al un st]; simpl. intros Hf. run.
  rewrite Hf. unfold Store.select_role_single.
  destruct (Store.roles_of (auth_id a) (Store.user_roles d)) as [|r [|r' rest]];
    try reflexivity.
  run. unfold JS.or_else. simpl. rewrite role_name_truthy. reflexivity.
Qed.

(* ================================================================= *)
(** ** The Role Mutation Service *)

Lemma roles_of_app (uid : string) (l1 l2 : list UserRole) :
  Store.roles_of uid (l1 ++ l2) = Store.roles_of uid l1 ++ Store.roles_of uid l2.
Proof. apply filter_app. Qed.

(** Overwriting the row of an account keeps every account's rows in
    place. *)
Lemma roles_of_overwritten (uid : string) (v : Store.RoleWrite)
    (rows : list UserRole) :
  let f := fun x => if String.eqb (ur_user_id x) (Store.w_user_id v)
                    then Store.overwrite_account v x else x in
  Store.roles_of uid (map f rows) = map f (Store.roles_of uid rows).
Proof.
  intros f. unfold Store.roles_of. apply filter_map_stable.
  intros x _. unfold f.
  destruct (String.eqb (ur_user_id x) (Store.w_user_id v)) eqn:E; [|reflexivity].
  simpl. apply String.eqb_eq in E. rewrite E. reflexivity.
Qed.

(** What the store does with a row written without [id].  It is inserted
    when its account has no row, whatever the key of the table, and on a
    table keyed on [id] with no UNIQUE constraint on [user_id]. *)
Lemma upsert_inserts (t uid by_ : string) (r : Role) (d : Store.Database) :
  Store.roles_of uid (Store.user_roles d) = [] \/
  (Store.upsert_key d = Store.key_id /\ Store.user_id_unique d = false) ->
  Store.upsert_user_role t
    {| Store.w_id := None; Store.w_user_id := uid; Store.w_role := r;
       Store.w_assigned_by := by_ |} d
  = (Store.with_user_roles
       (Store.user_roles d
        ++ [{| ur_id := Store.gen_random_uuid (Store.uuid_seq d);
               ur_user_id := uid; ur_role := r; ur_assigned_by := by_;
               ur_created_at := t |}])
       (S (Store.uuid_seq d)) d,
     Store.done).
Proof.
  intros Hfree.
  unfold Store.upsert_user_role, Store.upsert_on_id, Store.upsert_on_account,
    Store.insert_user_role. simpl.
  destruct Hfree as [Hnone|(Hkey & Hu)].
  - rewrite (filter_nil_existsb _ _ Hnone), Bool.andb_false_r.
    destruct (Store.upsert_key d); reflexivity.
  - rewrite Hkey, Hu. reflexivity.
Qed.

(** On a table keyed on [id] that declares [user_id] UNIQUE, it is
    rejected when its account has a row already. *)
Lemma upsert_rejects (t uid by_ : string) (r : Role) (d : Store.Database) :
  Store.upsert_key d = Store.key_id ->
  Store.user_id_unique d = true ->
  Store.roles_of uid (Store.user_roles d) <> [] ->
  Store.upsert_user_role t
    {| Store.w_id := None; Store.w_user_id := uid; Store.w_role := r;
       Store.w_assigned_by := by_ |} d
  = (d, Store.failed Store.unique_violation).
Proof.
  intros Hkey Hu Hsome.
  unfold Store.upsert_user_role, Store.upsert_on_id, Store.insert_user_role.
  simpl. rewrite Hkey, Hu. simpl.
  destruct (Store.roles_of uid (Store.user_roles d)) as [|x l] eqn:Hrows;
    [congruence|].
  rewrite (filter_cons_existsb _ _ _ _ Hrows). reflexivity.
Qed.

(** On a table keyed on [user_id], it overwrites the row of its account. *)
Lemma upsert_overwrites (t uid by_ : string) (r : Role) (d : Store.Database) :
  Store.upsert_key d = Store.key_user_id ->
  Store.roles_of uid (Store.user_roles d) <> [] ->
  let v := {| Store.w_id := None; Store.w_user_id := uid; Store.w_role := r;
              Store.w_assigned_by := by_ |} in
  Store.upsert_user_role t v d
  = (Store.with_user_roles
       (map (fun x => if String.eqb (ur_user_id x) uid
                      then Store.overwrite_account v x else x)
          (Store.user_roles d))
       (Store.uuid_seq d) d,
     Store.done).
Proof.
  intros Hkey Hsome v.
  unfold Store.upsert_user_role, Store.upsert_on_account. simpl. rewrite Hkey.
  destruct (Store.roles_of uid (Store.user_roles d)) as [|x l] eqn:Hrows;
    [congruence|].
  rewrite (filter_cons_existsb _ _ _ _ Hrows). reflexivity.
Qed.

(** An assignment to an account the store accepts a new row for, in an
    environment without faults: the row is appended and the panel reloads
    the role rows. *)
Lemma assign_inserts (w : World State) (A : User) (r : Role) (op : AuthUser) :
  (forall rq, fault w rq = None) ->
  user w = Some op ->
  Store.roles_of (u_id A) (Store.user_roles (db w)) = [] \/
  (Store.upsert_key (db w) = Store.key_id /\
   Store.user_id_unique (db w) = false) ->
  let w' := snd (assign A r w) in
  Store.user_roles (db w') = Store.user_roles (db w) ++ [assigned w A r op] /\
  Store.user_id_unique (db w') = Store.user_id_unique (db w) /\
  Store.upsert_key (db w') = Store.upsert_key (db w) /\
  fault w' = fault w /\ user w' = user w /\ now w' = now w /\
  userRoles (view w') = Store.order_desc ur_created_at (Store.user_roles (db w')) /\
  alerts w' = alerts w ++ [("Role " ++ role_name r ++ " assigned successfully!")%string].
Proof.
  destruct w as [d f t u rq co al un st]; simpl. intros Hf Hu Hfree. subst u.
  run. rewrite Hf. rewrite (upsert_inserts t (u_id A) (auth_id op) r d Hfree).
  run. rewrite Hf. run. repeat split; reflexivity.
Qed.

(** An assignment to an account that has a row already, on a table keyed
    on [user_id]: the row is overwritten in place and the panel reloads
    the role rows. *)
Lemma assign_overwrites (w : World State) (A : User) (r : Role) (op : AuthUser) :
  (forall rq, fault w rq = None) ->
  user w = Some op ->
  Store.upsert_key (db w) = Store.key_user_id ->
  Store.roles_of (u_id A) (Store.user_roles (db w)) <> [] ->
  let w' := snd (assign A r w) in
  Store.user_roles (db w')
    = map (fun x => if String.eqb (ur_user_id x) (u_id A)
                    then Store.overwrite_account
                           {| Store.w_id := None; Store.w_user_id := u_id A;
                              Store.w_role := r;
                              Store.w_assigned_by := auth_id op |} x
                    else x)
        (Store.user_roles (db w)) /\
  Store.upsert_key (db w') = Store.upsert_key (db w) /\
  fault w' = fault w /\ user w' = user w /\
  userRoles (view w') = Store.order_desc ur_created_at (Store.user_roles (db w')) /\
  alerts w' = alerts w ++ [("Role " ++ role_name r ++ " assigned successfully!")%string].
Proof.
  destruct w as [d f t u rq co al un st]; simpl. intros Hf Hu Hkey Hsome. subst u.
  run. rewrite Hf.
  rewrite (upsert_overwrites t (u_id A) (auth_id op) r d Hkey Hsome).
  run. rewrite Hf. run. repeat split; reflexivity.
Qed.

(** An assignment to an account that has a row already, on a table keyed
    on [id] under a UNIQUE constraint on [user_id]: the store rejects the
    row, nothing is written and the operator is told that the assignment
    failed. *)
Lemma assign_rejected (w : World State) (A : User) (r : Role) (op : AuthUser) :
  (forall rq, fault w rq = None) ->
  user w = Some op ->
  Store.upsert_key (db w) = Store.key_id ->
  Store.user_id_unique (db w) = true ->
  Store.roles_of (u_id A) (Store.user_roles (db w)) <> [] ->
  let w' := snd (assign A r w) in
  db w' = db w /\
  alerts w' = alerts w ++ ["Failed to assign role. Please try again."] /\
  console w' = console w
               ++ [("Error assigning role:", ExnStore Store.unique_violation)].
Proof.
  destruct w as [d f t u rq co al un st]; simpl.
  intros Hf Hu Hkey Huniq Hsome. subst u.
  run. rewrite Hf.
  rewrite (upsert_rejects t (u_id A) (auth_id op) r d Hkey Huniq Hsome).
  run. repeat split; reflexivity.
Qed.

(** A removal that is answered deletes the rows with the given [id]. *)
Lemma removeRole_deletes (w : World State) (roleId : string) :
  fault w (Store.DeleteUserRole roleId) = None ->
  let w' := snd (removeRole roleId w) in
  Store.user_roles (db w')
    = filter (fun r => negb (String.eqb (ur_id r) roleId)) (Store.user_roles (db w)) /\
  fault w' = fault w.
Proof.
  destruct w as [d f t u rq co al un st]; simpl. intros Hf.
  run. rewrite Hf. run.
  destruct (f (Store.SelectAll Store.t_user_roles)) as [[e|reason]|];
    split; reflexivity.
Qed.

(** C3.  Round trip of a role assignment.  An account with no role row
    resolves to ['user']; once the operator has assigned ['moderator'] to
    it, it resolves to ['moderator']; once the operator has removed the row
    the panel lists for it, it resolves to ['user'] again. *)
Theorem role_round_trip :
  forall (w : World State) (A : User) (operator : AuthUser),
    (forall rq, fault w rq = None) ->
    user w = Some operator ->
    Store.roles_of (u_id A) (Store.user_roles (db w)) = [] ->
    let w1 := snd (assign A role_moderator w) in
    Resolver w (identity A) = "user" /\
    Resolver w1 (identity A) = "moderator" /\
    exists row,
      JS.find (fun r => String.eqb (ur_user_id r) (u_id A)) (userRoles (view w1))
        = Some row /\
      Resolver (snd (removeRole (ur_id row) w1)) (identity A) = "user".
Proof.
  intros w A operator Hf Hu Hnone w1.
  destruct (assign_inserts w A role_moderator operator Hf Hu (or_introl Hnone))
    as (Hrows & _ & _ & Hf1 & _ & _ & Hview & _).
  fold w1 in Hrows, Hf1, Hview.
  assert (Hone : Store.roles_of (u_id A) (Store.user_roles (db w1))
                 = [assigned w A role_moderator operator]).
  { rewrite Hrows, roles_of_app, Hnone. simpl. rewrite String.eqb_refl. reflexivity. }
  split; [|split].
  - rewrite Resolver_answered by apply Hf. simpl. rewrite Hnone. reflexivity.
  - rewrite Resolver_answered by (rewrite Hf1; apply Hf). simpl.
    rewrite Hone. reflexivity.
  - destruct (find_in_permuted
                (fun r => String.eqb (ur_user_id r) (u_id A))
                (Store.user_roles (db w1)) (userRoles (view w1))
                (assigned w A role_moderator operator))
      as (row & Hfind & Hin & Hp).
    + rewrite Hview. apply order_desc_perm.
    + rewrite Hrows. apply in_or_app. right. left. reflexivity.
    + simpl. apply String.eqb_refl.
    + exists row. split; [exact Hfind|].
      assert (Hrow : row = assigned w A role_moderator operator).
      { assert (Hin' : In row (Store.roles_of (u_id A) (Store.user_roles (db w1))))
          by (apply filter_In; split; assumption).
        rewrite Hone in Hin'. destruct Hin' as [E|[]]. symmetry. exact E. }
      destruct (removeRole_deletes w1 (ur_id row)) as (Hdel & Hf2).
      { rewrite Hf1. apply Hf. }
      rewrite Resolver_answered by (rewrite Hf2, Hf1; apply Hf). simpl.
      rewrite Hdel. unfold Store.roles_of. rewrite filter_filter_comm.
      fold (Store.roles_of (u_id A) (Store.user_roles (db w1))).
      rewrite Hone, Hrow. simpl. rewrite String.eqb_refl. reflexivity.
Qed.

Lemma role_round_trip_witness :
  Store.roles_of "A" (Store.user_roles (db (Scenario.loaded true))) = [] /\
  Resolver (Scenario.loaded true) (identity Scenario.alice) = "user" /\
  Resolver (snd (assign Scenario.alice role_moderator (Scenario.loaded true)))
    (identity Scenario.alice) = "moderator" /\
  exists row,
    JS.find (fun r => String.eqb (ur_user_id r) "A")
      (userRoles
         (view (snd (assign Scenario.alice role_moderator (Scenario.loaded true)))))
      = Some row /\
    Resolver
      (snd (removeRole (ur_id row)
              (snd (assign Scenario.alice role_moderator (Scenario.loaded true)))))
      (identity Scenario.alice) = "user".
Proof.
  split; [reflexivity|].
  apply (role_round_trip (Scenario.loaded true) Scenario.alice Scenario.root).
  - intros rq. reflexivity.
  - reflexivity.
  - reflexivity.
Defined.

(** Two assignments in a row to an account that had no row, on a table
    keyed on [id]: under a UNIQUE constraint on [user_id] the second one is
    rejected and the first role stays; without the constraint the account
    ends with two rows. *)
Lemma assign_twice (w : World State) (A : User) (r1 r2 : Role) (op : AuthUser) :
  (forall rq, fault w rq = None) ->
  user w = Some op ->
  Store.upsert_key (db w) = Store.key_id ->
  Store.roles_of (u_id A) (Store.user_roles (db w)) = [] ->
  let w2 := snd (assign A r2 (snd (assign A r1 w))) in
  map ur_role (Store.roles_of (u_id A) (Store.user_roles (db w2)))
    = if Store.user_id_unique (db w) then [r1] else [r1; r2].
Proof.
  intros Hf Hu Hkey Hnone w2.
  destruct (assign_inserts w A r1 op Hf Hu (or_introl Hnone))
    as (Hrows & Huniq & Hkey1 & Hf1 & Hu1 & _).
  rewrite Hkey in Hkey1.
  set (w1 := snd (assign A r1 w)) in *.
  assert (Hone : Store.roles_of (u_id A) (Store.user_roles (db w1))
                 = [assigned w A r1 op]).
  { rewrite Hrows, roles_of_app, Hnone. simpl. rewrite String.eqb_refl. reflexivity. }
  assert (Hf1' : forall rq, fault w1 rq = None) by (intros rq; rewrite Hf1; apply Hf).
  rewrite Hu in Hu1.
  destruct (Store.user_id_unique (db w)) eqn:Hunique.
  - destruct (assign_rejected w1 A r2 op Hf1' Hu1 Hkey1 Huniq) as (Hdb & _).
    { rewrite Hone. discriminate. }
    subst w2. rewrite Hdb, Hone. reflexivity.
  - destruct (assign_inserts w1 A r2 op Hf1' Hu1 (or_intror (conj Hkey1 Huniq)))
      as (Hrows2 & _).
    subst w2. rewrite Hrows2, roles_of_app, Hone. simpl.
    rewrite String.eqb_refl. reflexivity.
Qed.

(** What a table keyed on [id] does with the same call when the written
    row carries the [id] of the account's row: the row is overwritten, and
    the account keeps one row, with the new role. *)
Lemma upsert_by_id_overwrites (t : string) (d : Store.Database)
    (r0 : UserRole) (role : Role) (by_ : string) :
  Store.upsert_key d = Store.key_id ->
  Store.roles_of (ur_user_id r0) (Store.user_roles d) = [r0] ->
  (forall r, In r (Store.user_roles d) -> ur_id r = ur_id r0 -> r = r0) ->
  let v := {| Store.w_id := Some (ur_id r0);
              Store.w_user_id := ur_user_id r0;
              Store.w_role := role;
              Store.w_assigned_by := by_ |} in
  Store.error (snd (Store.upsert_user_role t v d)) = None /\
  map ur_role
    (Store.roles_of (ur_user_id r0)
       (Store.user_roles (fst (Store.upsert_user_role t v d))))
    = [role].
Proof.
  intros Hk Hone Hkey v.
  assert (Hin : In r0 (Store.user_roles d)).
  { assert (H : In r0 (Store.roles_of (ur_user_id r0) (Store.user_roles d)))
      by (rewrite Hone; left; reflexivity).
    apply filter_In in H. apply H. }
  assert (Hid : existsb (fun r => String.eqb (ur_id r) (ur_id r0))
                  (Store.user_roles d) = true).
  { apply existsb_exists. exists r0. split; [exact Hin|apply String.eqb_refl]. }
  assert (Hother : existsb
                     (fun r => String.eqb (ur_user_id r) (ur_user_id r0)
                               && negb (String.eqb (ur_id r) (ur_id r0)))
                     (Store.user_roles d) = false).
  { apply Bool.not_true_is_false. intros E.
    apply existsb_exists in E. destruct E as (r & Hr & Hp).
    apply Bool.andb_true_iff in Hp. destruct Hp as (Hp1 & Hp2).
    assert (H : In r (Store.roles_of (ur_user_id r0) (Store.user_roles d)))
      by (apply filter_In; split; assumption).
    rewrite Hone in H. destruct H as [H|[]]. subst r.
    rewrite String.eqb_refl in Hp2. discriminate. }
  unfold Store.upsert_user_role, Store.upsert_on_id. rewrite Hk. simpl.
  rewrite Hid, Hother, Bool.andb_false_r.
  simpl. split; [reflexivity|].
  unfold Store.roles_of. rewrite filter_map_stable.
  - fold (Store.roles_of (ur_user_id r0) (Store.user_roles d)).
    rewrite Hone. simpl. rewrite String.eqb_refl. reflexivity.
  - intros r Hr. destruct (String.eqb (ur_id r) (ur_id r0)) eqn:E; [|reflexivity].
    apply String.eqb_eq in E. rewrite (Hkey r Hr E). simpl.
    rewrite String.eqb_refl. reflexivity.
Qed.

(** One assignment on a table keyed on [user_id], to an account with at
    most one row: the account ends with one row, holding the role
    assigned, and the rows of the other accounts are as they were. *)
Lemma assign_keyed (w : World State) (A : User) (r : Role) (op : AuthUser) :
  Store.upsert_key (db w) = Store.key_user_id ->
  (forall rq, fault w rq = None) ->
  user w = Some op ->
  length (Store.roles_of (u_id A) (Store.user_roles (db w))) <= 1 ->
  let w' := snd (assign A r w) in
  (exists row,
     Store.roles_of (u_id A) (Store.user_roles (db w')) = [row] /\
     ur_role row = r /\ ur_assigned_by row = auth_id op) /\
  (forall uid, uid <> u_id A ->
     Store.roles_of uid (Store.user_roles (db w'))
       = Store.roles_of uid (Store.user_roles (db w))) /\
  Store.upsert_key (db w') = Store.key_user_id /\
  fault w' = fault w /\ user w' = user w /\
  alerts w' = alerts w ++ [("Role " ++ role_name r ++ " assigned successfully!")%string].
Proof.
  intros Hkey Hf Hu Hle w'.
  destruct (Store.roles_of (u_id A) (Store.user_roles (db w)))
    as [|x [|y rest]] eqn:Hrows.
  - destruct (assign_inserts w A r op Hf Hu (or_introl Hrows))
      as (Hnew & _ & Hkey' & Hf' & Hu' & _ & _ & Hal).
    fold w' in Hnew, Hkey', Hf', Hu', Hal.
    split; [|split; [|split; [|split; [|split]]]]; try assumption.
    + exists (assigned w A r op).
      rewrite Hnew, roles_of_app, Hrows. simpl. rewrite String.eqb_refl.
      repeat split; reflexivity.
    + intros uid Hne. rewrite Hnew, roles_of_app. simpl.
      destruct (String.eqb (u_id A) uid) eqn:E.
      * apply String.eqb_eq in E. congruence.
      * apply app_nil_r.
    + congruence.
  - assert (Hsome : Store.roles_of (u_id A) (Store.user_roles (db w)) <> [])
      by (rewrite Hrows; discriminate).
    destruct (assign_overwrites w A r op Hf Hu Hkey Hsome)
      as (Hnew & Hkey' & Hf' & Hu' & _ & Hal).
    fold w' in Hnew, Hkey', Hf', Hu', Hal.
    set (v := {| Store.w_id := None; Store.w_user_id := u_id A;
                 Store.w_role := r; Store.w_assigned_by := auth_id op |}) in *.
    split; [|split; [|split; [|split; [|split]]]]; try assumption.
    + exists (Store.overwrite_account v x).
      rewrite Hnew, (roles_of_overwritten (u_id A) v), Hrows. simpl.
      assert (Hx : String.eqb (ur_user_id x) (u_id A) = true).
      { assert (Hin : In x (Store.roles_of (u_id A) (Store.user_roles (db w))))
          by (rewrite Hrows; left; reflexivity).
        apply filter_In in Hin. apply Hin. }
      rewrite Hx. repeat split; reflexivity.
    + intros uid Hne. rewrite Hnew, (roles_of_overwritten uid v).
      rewrite <- (map_id (Store.roles_of uid (Store.user_roles (db w)))) at 2.
      apply map_ext_in. intros z Hz. apply filter_In in Hz.
      destruct Hz as (_ & Hz). apply String.eqb_eq in Hz. simpl.
      destruct (String.eqb (ur_user_id z) (u_id A)) eqn:E; [|reflexivity].
      apply String.eqb_eq in E. congruence.
    + congruence.
  - simpl in Hle. lia.
Qed.

(** C1.  Idempotent overwrite.  Over a store whose role table is keyed on
    the account reference, in an environment without faults, the operator
    assigns role [r1] and then role [r2] to an account; the account has at
    most one role row, as every account of a table with that key has.  The
    account ends with exactly one row; the row holds [r2], the last value
    applied, and names the operator; the account resolves to [r2]; the
    rows of every other account are as they were; both assignments are
    reported as done. *)
Theorem assignRole_twice_overwrites :
  forall (w : World State) (A : User) (r1 r2 : Role) (operator : AuthUser),
    Store.upsert_key (db w) = Store.key_user_id ->
    (forall rq, fault w rq = None) ->
    user w = Some operator ->
    length (Store.roles_of (u_id A) (Store.user_roles (db w))) <= 1 ->
    let w2 := snd (assign A r2 (snd (assign A r1 w))) in
    (exists row,
       Store.roles_of (u_id A) (Store.user_roles (db w2)) = [row] /\
       ur_role row = r2 /\ ur_assigned_by row = auth_id operator) /\
    Resolver w2 (identity A) = role_name r2 /\
    (forall uid, uid <> u_id A ->
       Store.roles_of uid (Store.user_roles (db w2))
         = Store.roles_of uid (Store.user_roles (db w))) /\
    alerts w2
      = alerts w ++ [("Role " ++ role_name r1 ++ " assigned successfully!")%string;
                     ("Role " ++ role_name r2 ++ " assigned successfully!")%string].
Proof.
  intros w A r1 r2 operator Hkey Hf Hu Hle w2.
  destruct (assign_keyed w A r1 operator Hkey Hf Hu Hle)
    as ((row1 & Hone1 & _) & Hrest1 & Hkey1 & Hf1 & Hu1 & Hal1).
  set (w1 := snd (assign A r1 w)) in *.
  assert (Hf1' : forall rq, fault w1 rq = None) by (intros rq; rewrite Hf1; apply Hf).
  rewrite Hu in Hu1.
  assert (Hle1 : length (Store.roles_of (u_id A) (Store.user_roles (db w1))) <= 1)
    by (rewrite Hone1; simpl; lia).
  destruct (assign_keyed w1 A r2 operator Hkey1 Hf1' Hu1 Hle1)
    as ((row2 & Hone2 & Hrole2 & Hby2) & Hrest2 & _ & Hf2 & _ & Hal2).
  fold w2 in Hone2, Hrest2, Hf2, Hal2.
  split; [|split; [|split]].
  - exists row2. repeat split; assumption.
  - rewrite Resolver_answered by (rewrite Hf2; apply Hf1'). simpl.
    rewrite Hone2, Hrole2. reflexivity.
  - intros uid Hne. rewrite (Hrest2 uid Hne). apply Hrest1. exact Hne.
  - rewrite Hal2, Hal1, <- app_assoc. reflexivity.
Qed.

Lemma assignRole_twice_overwrites_witness :
  Store.upsert_key (db Cases.keyed_panel) = Store.key_user_id /\
  user Cases.keyed_panel = Some Scenario.root /\
  let w2 := snd (assign Scenario.alice role_admin
                   (snd (assign Scenario.alice role_moderator
                           Cases.keyed_panel))) in
  (exists row,
     Store.roles_of (u_id Scenario.alice) (Store.user_roles (db w2)) = [row] /\
     ur_role row = role_admin /\ ur_assigned_by row = auth_id Scenario.root) /\
  Resolver w2 (identity Scenario.alice) = role_name role_admin /\
  (forall uid, uid <> u_id Scenario.alice ->
     Store.roles_of uid (Store.user_roles (db w2))
       = Store.roles_of uid (Store.user_roles (db Cases.keyed_panel))) /\
  alerts w2
    = alerts Cases.keyed_panel
      ++ [("Role " ++ role_name role_moderator ++ " assigned successfully!")%string;
          ("Role " ++ role_name role_admin ++ " assigned successfully!")%string].
Proof.
  split; [reflexivity|]. split; [reflexivity|].
  apply (assignRole_twice_overwrites Cases.keyed_panel Scenario.alice
           role_moderator role_admin Scenario.root).
  - reflexivity.
  - intros rq. reflexivity.
  - reflexivity.
  - vm_compute. repeat constructor.
Defined.

(* ================================================================= *)
(** ** The Complaint Resolution Service *)

(** A submission with a blank draft returns at the guard of the handler. *)
Lemma handleReply_at_guard (w : World State) :
  forallb JS.is_white_space (replyMessage (view w)) = true ->
  handleReply w = (Returned tt, w).
Proof.
  destruct w as [d f t u rq co al un [us urs cs il cur srm su nr spm sc msg ir]].
  simpl. intros Hblank. run.
  destruct sc as [c|]; [rewrite (trim_blank msg Hblank)|]; reflexivity.
Qed.

(** C6.  A reply that is empty or made of white space only is turned down
    before any store call: the handler returns with the world as it was,
    so no request is issued, and the store (and with it the status of
    every complaint) and the panel are unchanged. *)
Theorem handleReply_rejects_blank :
  forall w : World State,
    forallb JS.is_white_space (replyMessage (view w)) = true ->
    let w' := snd (handleReply w) in
    fst (handleReply w) = Returned tt /\
    issued w w' = [] /\
    db w' = db w /\
    view w' = view w /\
    alerts w' = alerts w.
Proof.
  intros w Hblank. rewrite (handleReply_at_guard w Hblank). simpl.
  repeat split. unfold issued. apply skipn_all.
Qed.

Lemma handleReply_rejects_blank_witness :
  forallb JS.is_white_space
    (replyMessage (view (Scenario.drafting None "   "))) = true /\
  selectedComplaint (view (Scenario.drafting None "   "))
    = Some Scenario.bug_report /\
  issued (Scenario.drafting None "   ")
    (snd (handleReply (Scenario.drafting None "   "))) = [] /\
  Store.complaints (db (snd (handleReply (Scenario.drafting None "   "))))
    = [Scenario.bug_report].
Proof.
  pose proof (handleReply_rejects_blank (Scenario.drafting None "   ") eq_refl)
    as (_ & Hissued & Hdb & _).
  split; [reflexivity|]. split; [reflexivity|]. split; [exact Hissued|].
  rewrite Hdb. reflexivity.
Defined.

Lemma truthy_units_trim (s : JS.code_units) :
  JS.trim s <> [] -> negb (JS.truthy_units (JS.trim s)) = false.
Proof. destruct (JS.trim s); [congruence|reflexivity]. Qed.

(** C7.  When the store write of a resolution fails (the call resolves with
    an error, or its promise rejects), nothing is written, so the status of
    every complaint is as before; the failure is logged and shown to the
    operator; the draft, the selected complaint and the dialog stay. *)
Theorem handleReply_store_failure :
  forall (w : World State) (c : Complaint) (how : Fault),
    selectedComplaint (view w) = Some c ->
    JS.trim (replyMessage (view w)) <> [] ->
    fault w (Store.UpdateComplaint (c_id c)
               (resolution (replyMessage (view w)) (now w) (user w))) = Some how ->
    let w' := snd (handleReply w) in
    fst (handleReply w) = Returned tt /\
    db w' = db w /\
    replyMessage (view w') = replyMessage (view w) /\
    selectedComplaint (view w') = Some c /\
    showReplyModal (view w') = showReplyModal (view w) /\
    isReplying (view w') = false /\
    alerts w' = alerts w ++ ["Failed to send reply. Please try again."] /\
    console w'
      = console w
        ++ [("Error sending reply:",
             match how with
             | FaultError e => ExnStore e
             | FaultReject reason => ExnRejected reason
             end)].
Proof.
  intros [d f t u rq co al un [us urs cs il cur srm su nr spm sc msg ir]] c how.
  simpl. intros Hsel Hdraft Hf. subst sc.
  run. rewrite (truthy_units_trim msg Hdraft).
  unfold resolution in Hf. rewrite Hf.
  destruct how as [e|reason]; repeat split; reflexivity.
Qed.

Lemma handleReply_store_failure_witness :
  JS.trim (replyMessage (view (Scenario.drafting (Some Scenario.denied) "Fixed in v2")))
    <> [] /\
  Store.complaints
    (db (snd (handleReply (Scenario.drafting (Some Scenario.denied) "Fixed in v2"))))
    = [Scenario.bug_report] /\
  replyMessage
    (view (snd (handleReply (Scenario.drafting (Some Scenario.denied) "Fixed in v2"))))
    = JS.of_string "Fixed in v2" /\
  alerts (snd (handleReply (Scenario.drafting (Some Scenario.denied) "Fixed in v2")))
    = ["Failed to send reply. Please try again."].
Proof.
  pose proof (handleReply_store_failure
                (Scenario.drafting (Some Scenario.denied) "Fixed in v2")
                Scenario.bug_report Scenario.denied) as H.
  assert (Hdraft : JS.trim (JS.of_string "Fixed in v2") <> [])
    by (vm_compute; discriminate).
  specialize (H eq_refl Hdraft eq_refl).
  destruct H as (_ & Hdb & Hmsg & _ & _ & _ & Halerts & _).
  split; [exact Hdraft|]. split; [|split].
  - rewrite Hdb. reflexivity.
  - rewrite Hmsg. reflexivity.
  - rewrite Halerts. reflexivity.
Defined.

(** A resolution that the store answers: every complaint with the selected
    [id] is rewritten by the one update, the dialog is closed and the draft
    cleared. *)
Lemma handleReply_answered (w : World State) (c : Complaint) :
  selectedComplaint (view w) = Some c ->
  JS.trim (replyMessage (view w)) <> [] ->
  fault w (Store.UpdateComplaint (c_id c)
             (resolution (replyMessage (view w)) (now w) (user w))) = None ->
  let w' := snd (handleReply w) in
  fst (handleReply w) = Returned tt /\
  Store.complaints (db w')
    = map (fun x =>
             if String.eqb (c_id x) (c_id c)
             then Store.apply_patch
                    (resolution (replyMessage (view w)) (now w) (user w)) x
             else x)
          (Store.complaints (db w)) /\
  replyMessage (view w') = [] /\
  selectedComplaint (view w') = None /\
  showReplyModal (view w') = false /\
  isReplying (view w') = false /\
  alerts w' = alerts w ++ ["Reply sent successfully!"].
Proof.
  destruct w as [d f t u rq co al un [us urs cs il cur srm su nr spm sc msg ir]].
  simpl. intros Hsel Hdraft Hf. subst sc.
  run. rewrite (truthy_units_trim msg Hdraft).
  unfold resolution in Hf. rewrite Hf.
  destruct (f (Store.SelectAll Store.t_complaints)) as [[e|reason]|];
    repeat split; reflexivity.
Qed.

(** With an operator signed in, an answered resolution leaves every
    complaint with the selected [id] resolved, with the trimmed reply, the
    time of the call and the operator's identity. *)
Lemma handleReply_resolves (w : World State) (c : Complaint) (op : AuthUser) :
  selectedComplaint (view w) = Some c ->
  JS.trim (replyMessage (view w)) <> [] ->
  user w = Some op ->
  fault w (Store.UpdateComplaint (c_id c)
             (resolution (replyMessage (view w)) (now w) (user w))) = None ->
  forall x,
    In x (Store.complaints (db (snd (handleReply w)))) ->
    c_id x = c_id c ->
    c_status x = resolved /\
    c_admin_reply x = Some (JS.trim (replyMessage (view w))) /\
    c_replied_at x = Some (now w) /\
    c_replied_by x = Some (auth_id op) /\
    well_replied x.
Proof.
  intros Hsel Hdraft Hu Hf x Hin Hid.
  destruct (handleReply_answered w c Hsel Hdraft Hf) as (_ & Hrows & _).
  rewrite Hrows in Hin. apply in_map_iff in Hin.
  destruct Hin as (y & Hy & _).
  destruct (String.eqb (c_id y) (c_id c)) eqn:E.
  - subst x. rewrite Hu. unfold well_replied. simpl.
    repeat split; try reflexivity; discriminate.
  - exfalso. subst y. apply String.eqb_neq in E. contradiction.
Qed.

(** *** What every event keeps *)

Section Preserves.
Context {S : Type} (I : Store.Database -> Prop).

Lemma preserves_ret {A} (a : A) : preserves I (@ret S A a).
Proof. intros w H. exact H. Qed.

Lemma preserves_throw {A} (x : Exn) : preserves I (@throw S A x).
Proof. intros w H. exact H. Qed.

Lemma preserves_bind {A B} (m : M S A) (k : A -> M S B) :
  preserves I m -> (forall a, preserves I (k a)) -> preserves I (bind m k).
Proof.
  intros Hm Hk w H. unfold bind. specialize (Hm w H).
  destruct (m w) as [[a|x] w1]; simpl in *; [apply Hk|]; assumption.
Qed.

Lemma preserves_try_catch {A} (m : M S A) (h : Exn -> M S A) :
  preserves I m -> (forall x, preserves I (h x)) -> preserves I (try_catch m h).
Proof.
  intros Hm Hh w H. unfold try_catch. specialize (Hm w H).
  destruct (m w) as [[a|x] w1]; simpl in *; [|apply Hh]; assumption.
Qed.

Lemma preserves_try_finally {A} (m : M S A) (f : M S unit) :
  preserves I m -> preserves I f -> preserves I (try_finally m f).
Proof.
  intros Hm Hf w H. unfold try_finally. specialize (Hm w H).
  destruct (m w) as [o w1]; simpl in *. specialize (Hf w1 Hm).
  destruct (f w1) as [[a|x] w2]; assumption.
Qed.

Lemma preserves_detached (m : M S unit) :
  preserves I m -> preserves I (detached m).
Proof.
  intros Hm w H. unfold detached. specialize (Hm w H).
  destruct (m w) as [[a|x] w1]; assumption.
Qed.

Lemma preserves_promise_all (ms : list (M S unit)) :
  Forall (preserves I) ms -> preserves I (promise_all ms).
Proof.
  induction 1 as [|m ms Hm _ IH]; simpl; [apply preserves_ret|].
  intros w H. specialize (Hm w H).
  destruct (m w) as [[a|x] w1]; simpl in *.
  - apply IH. exact Hm.
  - specialize (IH w1 Hm). destruct (promise_all ms w1). exact IH.
Qed.

Lemma preserves_get_view : preserves I (@get_view S).
Proof. intros w H. exact H. Qed.

Lemma preserves_get_user : preserves I (@get_user S).
Proof. intros w H. exact H. Qed.

Lemma preserves_get_now : preserves I (@get_now S).
Proof. intros w H. exact H. Qed.

Lemma preserves_set_view (f : S -> S) : preserves I (set_view f).
Proof. intros w H. exact H. Qed.

Lemma preserves_console_error (msg : string) (x : Exn) :
  preserves I (@console_error S msg x).
Proof. intros w H. exact H. Qed.

Lemma preserves_alert (msg : string) : preserves I (@alert S msg).
Proof. intros w H. exact H. Qed.

Lemma preserves_await_store {A} (rq : Store.Request)
    (exec : string -> Store.Database -> Store.Database * Store.Response A) :
  (forall t d, I d -> I (fst (exec t d))) ->
  preserves I (@await_store S A rq exec).
Proof.
  intros Hexec w H. unfold await_store.
  destruct (fault w rq) as [[e|reason]|]; simpl; try assumption.
  specialize (Hexec (now w) (db w) H).
  destruct (exec (now w) (db w)). exact Hexec.
Qed.

End Preserves.

Create HintDb preserves.

#[local] Hint Resolve preserves_ret preserves_throw preserves_get_view
  preserves_get_user preserves_get_now preserves_set_view
  preserves_console_error preserves_alert : preserves.

(** Takes a handler apart along its control structure. *)
Ltac preserve :=
  repeat first
    [ progress intros
    | apply preserves_bind
    | apply preserves_try_catch
    | apply preserves_try_finally
    | apply preserves_detached
    | apply preserves_promise_all; repeat constructor
    | apply preserves_await_store
    | solve [auto with preserves]
    | match goal with
      | |- preserves _ (match ?x with _ => _ end) => destruct x
      | |- preserves _ (if ?x then _ else _) => destruct x
      end ].

Lemma replies_present_upsert (t : string) (v : Store.RoleWrite)
    (d : Store.Database) :
  replies_present d ->
  replies_present (fst (Store.upsert_user_role t v d)).
Proof.
  unfold Store.upsert_user_role, Store.upsert_on_id, Store.upsert_on_account,
    Store.insert_user_role. intros H.
  destruct (Store.upsert_key d); destruct (Store.w_id v) as [i|];
    repeat match goal with
           | |- context [if ?b then _ else _] => destruct b
           end;
    exact H.
Qed.

Lemma replies_present_resolution (id : string) (msg : JS.code_units)
    (t : string) (u : option AuthUser) (d : Store.Database) :
  replies_present d ->
  replies_present (fst (Store.update_complaint id (resolution msg t u) d)).
Proof.
  unfold replies_present. simpl. intros H.
  apply Forall_map. eapply Forall_impl; [|exact H].
  intros c Hc. destruct (String.eqb (c_id c) id); [|exact Hc].
  intros _. simpl. discriminate.
Qed.

#[local] Hint Resolve replies_present_upsert replies_present_resolution
  : preserves.

Lemma handle_keeps_replies (e : Event) : preserves replies_present (handle e).
Proof.
  destruct e; simpl;
    unfold onUserChange, onCurrentUserRoleChange, checkUserRole, loadAdminData,
      assignRole, removeRole, handleReply, clickManageRole, clickReply,
      loadUsers, loadUserRoles, loadComplaints,
      setUsers, setUserRoles, setComplaints, setIsLoading, setCurrentUserRole,
      setShowRoleModal, setSelectedUser, setNewRole, setShowReplyModal,
      setSelectedComplaint, setReplyMessage, setIsReplying,
      select_role_of, select_users, select_user_roles, select_complaints,
      upsert_role, delete_role, update_complaint;
    preserve.
  - intros w H. exact H.
  - intros w H. exact H.
  - intros w H. unfold replies_present in *. simpl.
    apply Forall_app. split; [exact H|].
    constructor; [|constructor]. intros E. discriminate E.
Qed.

(** In every state the panel and the submission form can bring the store
    to, a resolved complaint carries a reply. *)
Lemma after_keeps_replies (es : list Event) (w : World State) :
  replies_present (db w) -> replies_present (db (after es w)).
Proof.
  revert w. induction es as [|e es IH]; intros w H; simpl; [exact H|].
  apply IH. apply preserves_detached; [apply handle_keeps_replies|exact H].
Qed.

(** C2 (the code departs from it).  The reply dialog is open on a pending
    complaint and the operator's session has ended since: [user] is [null],
    the role is still ['admin'] and the panel is still shown.  The
    submission succeeds and tells the operator so; the complaint is then
    resolved, with the reply and its time, and with no responder:
    [replied_by: user?.id] is [undefined] and the update leaves the column
    as it was. *)
Theorem handleReply_signed_out_leaves_no_responder :
  let w := Scenario.drafting_signed_out "Fixed in v2" in
  let w' := snd (handleReply w) in
  user w = None /\
  currentUserRole (view w) = "admin" /\
  fst (handleReply w) = Returned tt /\
  alerts w' = ["Reply sent successfully!"] /\
  issued w w'
    = [Store.UpdateComplaint "C-1"
         {| Store.p_status := Some resolved;
            Store.p_admin_reply := Some (JS.of_string "Fixed in v2");
            Store.p_replied_at := Some "2024-05-01T10:00:00.000Z";
            Store.p_replied_by := None |};
       Store.SelectAll Store.t_complaints] /\
  map (fun c => (c_status c, c_admin_reply c, c_replied_at c, c_replied_by c))
      (Store.complaints (db w'))
    = [(resolved, Some (JS.of_string "Fixed in v2"),
        Some "2024-05-01T10:00:00.000Z", None)] /\
  ~ Forall well_replied (Store.complaints (db w')).
Proof.
  cbv zeta. repeat (split; [vm_compute; reflexivity|]).
  intros H. vm_compute in H.
  inversion H as [|c l Hc _ E]; subst.
  destruct Hc as (_ & _ & Hby). apply Hby. reflexivity.
Qed.

(* ================================================================= *)
(** ** The Admin Data Aggregator *)

Lemma issued_app {S} (w w' : World S) (rs : list Store.Request) :
  requests w' = requests w ++ rs -> issued w w' = rs.
Proof.
  intros E. unfold issued. rewrite E. clear E.
  induction (requests w) as [|x l IH]; simpl; [reflexivity|exact IH].
Qed.

(** C8 (as amended).  A run of the aggregator in which the read of exactly
    one collection fails, by an error or by a rejection: all three reads
    are issued, the two other collections hold what their reads returned,
    the collection whose read failed holds what it held before the run,
    one line is logged, nothing is shown to the operator and the loading
    flag is cleared. *)
Theorem loadAdminData_partial :
  forall (w : World State) (c : Collection) (how : Fault),
    fault w (Store.SelectAll (table_of c)) = Some how ->
    (forall c', c' <> c -> fault w (Store.SelectAll (table_of c')) = None) ->
    let w' := snd (loadAdminData w) in
    fst (loadAdminData w) = Returned tt /\
    issued w w'
      = [Store.SelectAll Store.t_users; Store.SelectAll Store.t_user_roles;
         Store.SelectAll Store.t_complaints] /\
    users (view w')
      = match c with
        | Accounts => users (view w)
        | _ => Store.order_desc u_created_at (Store.users (db w))
        end /\
    userRoles (view w')
      = match c with
        | Roles => userRoles (view w)
        | _ => Store.order_desc ur_created_at (Store.user_roles (db w))
        end /\
    complaints (view w')
      = match c with
        | Complaints => complaints (view w)
        | _ => Store.order_desc c_created_at (Store.complaints (db w))
        end /\
    console w' = console w ++ [load_failure c how] /\
    alerts w' = alerts w /\
    isLoading (view w') = false.
Proof.
  intros [d f t u rq co al un [us urs cs il cur srm su nr spm sc msg ir]] c how.
  simpl. intros Hfail Hothers.
  assert (Hu : c <> Accounts -> f (Store.SelectAll Store.t_users) = None)
    by (intros H; apply (Hothers Accounts); congruence).
  assert (Hr : c <> Roles -> f (Store.SelectAll Store.t_user_roles) = None)
    by (intros H; apply (Hothers Roles); congruence).
  assert (Hc : c <> Complaints -> f (Store.SelectAll Store.t_complaints) = None)
    by (intros H; apply (Hothers Complaints); congruence).
  destruct c; simpl in Hfail; destruct how as [e|reason];
    repeat (run; first [ rewrite Hfail
                       | rewrite Hu by discriminate
                       | rewrite Hr by discriminate
                       | rewrite Hc by discriminate ]);
    run; repeat split; try reflexivity;
    apply issued_app; simpl; rewrite <- ?app_assoc; reflexivity.
Qed.

Lemma loadAdminData_partial_witness :
  fault (Scenario.reloading Scenario.denied)
    (Store.SelectAll (table_of Complaints)) = Some Scenario.denied /\
  users (view (snd (loadAdminData (Scenario.reloading Scenario.denied))))
    = [Scenario.alice] /\
  complaints (view (snd (loadAdminData (Scenario.reloading Scenario.denied))))
    = complaints (view (Scenario.reloading Scenario.denied)) /\
  console (snd (loadAdminData (Scenario.reloading Scenario.denied)))
    = console (Scenario.reloading Scenario.denied)
      ++ [load_failure Complaints Scenario.denied].
Proof.
  pose proof (loadAdminData_partial (Scenario.reloading Scenario.denied)
                Complaints Scenario.denied) as H.
  assert (Hothers : forall c', c' <> Complaints ->
            fault (Scenario.reloading Scenario.denied)
              (Store.SelectAll (table_of c')) = None).
  { intros c' Hne. destruct c'; [reflexivity|reflexivity|contradiction]. }
  specialize (H eq_refl Hothers).
  destruct H as (_ & _ & Husers & _ & Hcomplaints & Hconsole & _).
  split; [reflexivity|]. split; [|split].
  - rewrite Husers. reflexivity.
  - exact Hcomplaints.
  - exact Hconsole.
Defined.

(** The claim with "left empty" fails.  The panel has loaded the store; a
    role lookup fails while the network is down and a later one is
    answered, so the role is ['admin'] again and the aggregator runs a
    second time; in that run the read of the complaints, and it alone, is
    rejected.  The complaints collection is not empty afterwards: it holds
    the rows of the first load. *)
Lemma loadAdminData_failed_read_keeps_rows :
  currentUserRole (view (Scenario.reloading Scenario.network_down)) = "admin" /\
  fault (Scenario.reloading Scenario.network_down)
    (Store.SelectAll Store.t_complaints) = Some Scenario.network_down /\
  fault (Scenario.reloading Scenario.network_down)
    (Store.SelectAll Store.t_users) = None /\
  fault (Scenario.reloading Scenario.network_down)
    (Store.SelectAll Store.t_user_roles) = None /\
  complaints
    (view (snd (onCurrentUserRoleChange
                  (Scenario.reloading Scenario.network_down))))
    = [Scenario.bug_report] /\
  complaints
    (view (snd (loadAdminData (Scenario.reloading Scenario.network_down))))
    <> [].
Proof.
  repeat (split; [vm_compute; reflexivity|]).
  vm_compute. discriminate.
Qed.

(* ================================================================= *)
(** ** The ungated dashboard *)

Ltac run_dashboard :=
  cbv [AdminDashboard.onMount AdminDashboard.fetchData
       AdminDashboard.setComplaints AdminDashboard.setContacts
       AdminDashboard.setLoading AdminDashboard.render
       AdminDashboard.complaints AdminDashboard.contacts
       AdminDashboard.loading
       select_complaints select_contacts
       bind ret throw try_catch try_finally get_view get_user get_now
       set_view console_error alert await_store detached
       Store.error Store.data Store.ok Store.done Store.failed
       Store.select_all
       db fault now user requests console alerts unhandled view fst snd].

(** Two mounts of the dashboard that agree on the two tables, on what the
    environment does to the two reads and on the state of the component. *)
Lemma fetchData_two_runs (w1 w2 : World AdminDashboard.State) :
  Store.complaints (db w1) = Store.complaints (db w2) ->
  Store.contacts (db w1) = Store.contacts (db w2) ->
  fault w1 (Store.SelectAll Store.t_complaints)
    = fault w2 (Store.SelectAll Store.t_complaints) ->
  fault w1 (Store.SelectAll Store.t_contacts)
    = fault w2 (Store.SelectAll Store.t_contacts) ->
  view w1 = view w2 ->
  let w1' := snd (AdminDashboard.onMount w1) in
  let w2' := snd (AdminDashboard.onMount w2) in
  issued w1 w1' = issued w2 w2' /\
  view w1' = view w2' /\
  AdminDashboard.render (view w1') = AdminDashboard.render (view w2') /\
  ((forall reason, fault w1 (Store.SelectAll Store.t_complaints)
                   <> Some (FaultReject reason)) ->
   issued w1 w1'
     = [Store.SelectAll Store.t_complaints; Store.SelectAll Store.t_contacts]).
Proof.
  destruct w1 as [d1 f1 t1 u1 rq1 co1 al1 un1 st1].
  destruct w2 as [d2 f2 t2 u2 rq2 co2 al2 un2 st2].
  simpl. intros Hcs Hks Hf Hg Hst. subst st2.
  assert (Hissued : forall S (w w' : World S) rs,
            requests w' = requests w ++ rs -> issued w w' = rs)
    by (intros; apply issued_app; assumption).
  run_dashboard. rewrite <- Hf.
  destruct (f1 (Store.SelectAll Store.t_complaints)) as [[e|reason]|];
    run_dashboard; rewrite <- ?Hg, <- ?Hcs, <- ?Hks;
    destruct (f1 (Store.SelectAll Store.t_contacts)) as [[e'|reason']|];
    run_dashboard;
    (split; [|split; [|split]]);
    try reflexivity;
    try (intros _; apply Hissued; simpl; rewrite <- ?app_assoc; reflexivity);
    try (erewrite !Hissued; [reflexivity| |];
         simpl; rewrite <- ?app_assoc; reflexivity).
  all: intros Hno; exfalso; eapply Hno; reflexivity.
Qed.

(** When the two reads are answered, the dashboard shows the rows read. *)
Lemma fetchData_shows_rows (w : World AdminDashboard.State) :
  fault w (Store.SelectAll Store.t_complaints) = None ->
  fault w (Store.SelectAll Store.t_contacts) = None ->
  AdminDashboard.render (view (snd (AdminDashboard.onMount w)))
    = AdminDashboard.Dashboard
        (Store.order_desc c_created_at (Store.complaints (db w)))
        (Store.order_desc k_created_at (Store.contacts (db w))).
Proof.
  destruct w as [d f t u rq co al un st]. simpl. intros Hf Hg.
  run_dashboard. rewrite Hf. run_dashboard. rewrite Hg. run_dashboard.
  reflexivity.
Qed.

(** Wherever [AppRoutes] renders, [/admin] is the [Admin] component
    itself. *)
Lemma admin_route (scope : list string) (u : option AuthUser)
    (t : list (string * Routes.Element)) :
  Routes.AppRoutes scope u = Routes.Value t ->
  Routes.matchRoutes t "/admin" = Some (Routes.Unwrapped Routes.Admin).
Proof.
  unfold Routes.AppRoutes.
  destruct (find _ _); [discriminate|].
  intros E. injection E as E. subst t. destruct u; reflexivity.
Qed.

(** C10.  The dashboard reads no identity and no role.  Two mounts that
    agree on the complaints, on the contact messages and on what the
    environment does to the two reads issue the same requests and show the
    same screen, whoever the viewers are and whatever role rows the store
    holds; when the first read is not rejected the requests are the read
    of the complaints and then the read of the contact messages, and when
    both reads are answered the screen shows the rows read.  The route
    declared for [/admin] is the [Admin] component outside
    [ProtectedRoute], for every visitor, signed in or not, and that is
    what [/admin] renders wherever [AppRoutes] renders. *)
Theorem fetchData_ignores_viewer :
  forall w1 w2 : World AdminDashboard.State,
    Store.complaints (db w1) = Store.complaints (db w2) ->
    Store.contacts (db w1) = Store.contacts (db w2) ->
    fault w1 (Store.SelectAll Store.t_complaints)
      = fault w2 (Store.SelectAll Store.t_complaints) ->
    fault w1 (Store.SelectAll Store.t_contacts)
      = fault w2 (Store.SelectAll Store.t_contacts) ->
    view w1 = view w2 ->
    let w1' := snd (AdminDashboard.onMount w1) in
    let w2' := snd (AdminDashboard.onMount w2) in
    issued w1 w1' = issued w2 w2' /\
    view w1' = view w2' /\
    AdminDashboard.render (view w1') = AdminDashboard.render (view w2') /\
    ((forall reason, fault w1 (Store.SelectAll Store.t_complaints)
                     <> Some (FaultReject reason)) ->
     issued w1 w1'
       = [Store.SelectAll Store.t_complaints; Store.SelectAll Store.t_contacts]) /\
    (fault w1 (Store.SelectAll Store.t_complaints) = None ->
     fault w1 (Store.SelectAll Store.t_contacts) = None ->
     AdminDashboard.render (view w1')
       = AdminDashboard.Dashboard
           (Store.order_desc c_created_at (Store.complaints (db w1)))
           (Store.order_desc k_created_at (Store.contacts (db w1)))) /\
    (forall u, In ("/admin", Routes.Unwrapped Routes.Admin) (Routes.routes u)) /\
    (forall scope u t,
       Routes.AppRoutes scope u = Routes.Value t ->
       Routes.matchRoutes t "/admin" = Some (Routes.Unwrapped Routes.Admin)).
Proof.
  intros w1 w2 Hcs Hks Hf Hg Hst w1' w2'.
  destruct (fetchData_two_runs w1 w2 Hcs Hks Hf Hg Hst) as (H1 & H2 & H3 & H4).
  repeat (split; [assumption|]).
  split; [apply fetchData_shows_rows|].
  split; [|apply admin_route].
  intros u. simpl. do 9 right. left. reflexivity.
Qed.

Lemma fetchData_ignores_viewer_witness :
  Resolver (Scenario.dashboard [Scenario.root_row] (Some Scenario.root))
    Scenario.root = "admin" /\
  Resolver (Scenario.dashboard [Scenario.root_row] (Some (identity Scenario.alice)))
    (identity Scenario.alice) = "user" /\
  issued (Scenario.dashboard [Scenario.root_row] (Some (identity Scenario.alice)))
    (snd (AdminDashboard.onMount
            (Scenario.dashboard [Scenario.root_row]
               (Some (identity Scenario.alice)))))
    = [Store.SelectAll Store.t_complaints; Store.SelectAll Store.t_contacts] /\
  AdminDashboard.render
    (view (snd (AdminDashboard.onMount
                  (Scenario.dashboard [Scenario.root_row]
                     (Some (identity Scenario.alice))))))
    = AdminDashboard.render
        (view (snd (AdminDashboard.onMount
                      (Scenario.dashboard [Scenario.root_row]
                         (Some Scenario.root))))) /\
  AdminDashboard.render
    (view (snd (AdminDashboard.onMount
                  (Scenario.dashboard [Scenario.root_row]
                     (Some (identity Scenario.alice))))))
    = AdminDashboard.Dashboard [Scenario.bug_report] [Scenario.hello] /\
  Routes.matchRoutes (Routes.routes None) "/admin"
    = Some (Routes.Unwrapped Routes.Admin).
Proof.
  pose proof (fetchData_ignores_viewer
                (Scenario.dashboard [Scenario.root_row]
                   (Some (identity Scenario.alice)))
                (Scenario.dashboard [Scenario.root_row] (Some Scenario.root))
                eq_refl eq_refl eq_refl eq_refl eq_refl)
    as (_ & _ & Hrender & Hreads & Hrows & _ & Hroute).
  split; [reflexivity|]. split; [reflexivity|]. split; [|split; [|split]].
  - apply Hreads. intros reason. discriminate.
  - exact Hrender.
  - apply Hrows; reflexivity.
  - apply (Hroute ("ModeratorPanel" :: Routes.module_scope) None).
    reflexivity.
Defined.

(* ================================================================= *)
(** ** More on the Admin Data Aggregator and the gate of the panel *)

Import Frames.

(** Splits on what the environment does to the next request. *)
Ltac answer f :=
  match goal with
  | |- context [match f ?rq with _ => _ end] => destruct (f rq) as [[?|?]|]
  end.

(** X1.  Whatever the environment does to the three reads, a run of the
    aggregator returns normally, issues the three reads in the order
    accounts, role rows, complaints, writes nothing to the store, shows no
    alert, leaves the resolved role alone and ends with the loading flag
    cleared. *)
Theorem loadAdminData_always_settles :
  forall w : World State,
    let w' := snd (loadAdminData w) in
    fst (loadAdminData w) = Returned tt /\
    issued w w'
      = [Store.SelectAll Store.t_users; Store.SelectAll Store.t_user_roles;
         Store.SelectAll Store.t_complaints] /\
    db w' = db w /\
    alerts w' = alerts w /\
    unhandled w' = unhandled w /\
    currentUserRole (view w') = currentUserRole (view w) /\
    isLoading (view w') = false.
Proof.
  intros [d f t u rq co al un [us urs cs il cur srm su nr spm sc msg ir]].
  run. answer f; run; answer f; run; answer f; run;
    repeat split; try reflexivity;
    apply issued_app; simpl; rewrite <- ?app_assoc; reflexivity.
Qed.

(** A run of the aggregator whose three reads are answered: every
    collection holds its table, newest first, and nothing is logged. *)
Lemma loadAdminData_answered (w : World State) :
  fault w (Store.SelectAll Store.t_users) = None ->
  fault w (Store.SelectAll Store.t_user_roles) = None ->
  fault w (Store.SelectAll Store.t_complaints) = None ->
  let w' := snd (loadAdminData w) in
  users (view w') = Store.order_desc u_created_at (Store.users (db w)) /\
  userRoles (view w') = Store.order_desc ur_created_at (Store.user_roles (db w)) /\
  complaints (view w') = Store.order_desc c_created_at (Store.complaints (db w)) /\
  console w' = console w /\
  currentUserRole (view w') = currentUserRole (view w) /\
  isLoading (view w') = false /\
  db w' = db w /\ fault w' = fault w /\ user w' = user w.
Proof.
  destruct w as [d f t u rq co al un [us urs cs il cur srm su nr spm sc msg ir]].
  simpl. intros Hu Hr Hc.
  run. rewrite Hu. run. rewrite Hr. run. rewrite Hc. run.
  repeat split; reflexivity.
Qed.

Lemma filter_length_perm {R} (p : R -> bool) (l l' : list R) :
  Permutation l l' -> length (filter p l) = length (filter p l').
Proof.
  induction 1 as [|x l l' _ IH|x y l|l l' l'' _ IH1 _ IH2]; simpl.
  - reflexivity.
  - destruct (p x); simpl; rewrite IH; reflexivity.
  - destruct (p x), (p y); reflexivity.
  - rewrite IH1. exact IH2.
Qed.

(** X2.  After a run of the aggregator whose three reads are answered, the
    panel lists exactly the rows of the store, and the four counters of
    its header are the counts over the store: the accounts, the role rows
    holding ['moderator'], those holding ['admin'], and the pending
    complaints. *)
Theorem loadAdminData_shows_the_store :
  forall w : World State,
    fault w (Store.SelectAll Store.t_users) = None ->
    fault w (Store.SelectAll Store.t_user_roles) = None ->
    fault w (Store.SelectAll Store.t_complaints) = None ->
    let st := view (snd (loadAdminData w)) in
    Permutation (users st) (Store.users (db w)) /\
    Permutation (userRoles st) (Store.user_roles (db w)) /\
    Permutation (complaints st) (Store.complaints (db w)) /\
    totalUsers st = length (Store.users (db w)) /\
    moderators st = holding role_moderator (Store.user_roles (db w)) /\
    admins st = holding role_admin (Store.user_roles (db w)) /\
    pendingComplaints st = pending_among (Store.complaints (db w)).
Proof.
  intros w Hu Hr Hc st.
  destruct (loadAdminData_answered w Hu Hr Hc) as (Eu & Er & Ec & _).
  fold st in Eu, Er, Ec.
  unfold totalUsers, moderators, admins, pendingComplaints, holding, pending_among.
  rewrite Eu, Er, Ec.
  repeat split;
    try apply order_desc_perm;
    try (apply filter_length_perm; apply order_desc_perm).
  apply Permutation_length. apply order_desc_perm.
Qed.

Lemma loadAdminData_shows_the_store_witness :
  fault (Scenario.loaded true) (Store.SelectAll Store.t_users) = None /\
  totalUsers (view (snd (loadAdminData (Scenario.loaded true)))) = 1 /\
  admins (view (snd (loadAdminData (Scenario.loaded true)))) = 1 /\
  moderators (view (snd (loadAdminData (Scenario.loaded true)))) = 0 /\
  pendingComplaints (view (snd (loadAdminData (Scenario.loaded true)))) = 1.
Proof.
  destruct (loadAdminData_shows_the_store (Scenario.loaded true)
              eq_refl eq_refl eq_refl)
    as (_ & _ & _ & Ht & Hm & Ha & Hp).
  split; [reflexivity|]. split; [|split; [|split]].
  - rewrite Ht. reflexivity.
  - rewrite Ha. reflexivity.
  - rewrite Hm. reflexivity.
  - rewrite Hp. reflexivity.
Defined.

(** Unfolds a sequence of events on a world given by its fields. *)
Ltac run_events :=
  cbv [after handle sign_in Scenario.sign_in
       checkUserRole loadUsers loadUserRoles loadComplaints loadAdminData
       assignRole removeRole handleReply clickManageRole clickReply
       onUserChange onCurrentUserRoleChange assign resolution
       setUsers setUserRoles setComplaints setIsLoading setCurrentUserRole
       setShowRoleModal setSelectedUser setNewRole setShowReplyModal
       setSelectedComplaint setReplyMessage setIsReplying rows_or_empty
       select_role_of select_users select_user_roles select_complaints
       select_contacts upsert_role delete_role update_complaint
       bind ret throw try_catch try_finally get_view get_user get_now
       set_view console_error alert await_store detached promise_all
       Resolver session identity render
       Store.error Store.data Store.ok Store.done Store.failed
       Store.select_all Store.delete_user_role Store.update_complaint
       Store.select_role_single option_map
       db fault now user requests console alerts unhandled view fst snd
       users userRoles complaints isLoading currentUserRole showRoleModal
       selectedUser newRole showReplyModal selectedComplaint replyMessage
       isReplying].

(** X3.  The gate denies.  When account [a] signs in on a mounted panel
    and the Resolver does not yield ['admin'] for it, the panel shows
    "Access Denied", the only request issued is the role lookup (none of
    the three collections is read) and the store is untouched, whatever
    the panel showed before. *)
Theorem gate_denies :
  forall (w : World State) (a : AuthUser),
    Resolver w a <> "admin" ->
    let w' := after (sign_in a) w in
    render (view w') = AccessDenied /\
    issued w w' = [Store.SelectRoleSingle (auth_id a)] /\
    db w' = db w /\
    users (view w') = users (view w) /\
    complaints (view w') = complaints (view w).
Proof.
  intros [d f t u rq co al un [us urs cs il cur srm su nr spm sc msg ir]] a.
  run_events.
  destruct (f (Store.SelectRoleSingle (auth_id a))) as [[e|reason]|];
    [| |destruct (Store.roles_of (auth_id a) (Store.user_roles d))
          as [|r [|r' rest]]; [|destruct (ur_role r)|]];
    run_events; simpl; intros Hrole;
    try (exfalso; apply Hrole; reflexivity);
    repeat split; try reflexivity;
    apply issued_app; reflexivity.
Qed.

Lemma gate_denies_witness :
  Resolver (Scenario.mounted true) (identity Scenario.alice) <> "admin" /\
  render (view (after (sign_in (identity Scenario.alice)) (Scenario.mounted true)))
    = AccessDenied /\
  issued (Scenario.mounted true)
    (after (sign_in (identity Scenario.alice)) (Scenario.mounted true))
    = [Store.SelectRoleSingle "A"].
Proof.
  assert (H : Resolver (Scenario.mounted true) (identity Scenario.alice) <> "admin")
    by (vm_compute; discriminate).
  destruct (gate_denies (Scenario.mounted true) (identity Scenario.alice) H)
    as (Hr & Hi & _).
  split; [exact H|]. split; [exact Hr|exact Hi].
Defined.

(** X4.  The gate admits.  Account [a] has exactly one role row, holding
    ['admin'], nothing is failed, and [a] signs in on a rendered panel.
    The role becomes ['admin'] and nothing is written.  When the panel did
    not hold the role ['admin'] before, the lookup is followed by the three
    reads and the panel is shown, not loading, with the three tables of
    the store, newest first.  When it held ['admin'] already, the effect
    on the role does not run: the lookup is the only request and the
    panel keeps the state it had, stale collections included. *)
Theorem gate_admits :
  forall (w : World State) (a : AuthUser) (r : UserRole),
    Store.roles_of (auth_id a) (Store.user_roles (db w)) = [r] ->
    ur_role r = role_admin ->
    (forall rq, fault w rq = None) ->
    let w' := signs_in a w in
    currentUserRole (view w') = "admin" /\
    db w' = db w /\
    (currentUserRole (view w) <> "admin" ->
     (exists st, render (view w') = Panel st) /\
     users (view w') = Store.order_desc u_created_at (Store.users (db w)) /\
     userRoles (view w')
       = Store.order_desc ur_created_at (Store.user_roles (db w)) /\
     complaints (view w')
       = Store.order_desc c_created_at (Store.complaints (db w)) /\
     issued w w'
       = [Store.SelectRoleSingle (auth_id a); Store.SelectAll Store.t_users;
          Store.SelectAll Store.t_user_roles;
          Store.SelectAll Store.t_complaints]) /\
    (currentUserRole (view w) = "admin" ->
     issued w w' = [Store.SelectRoleSingle (auth_id a)] /\
     view w' = view w).
Proof.
  intros w a r Hone Hadmin Hf. cbv zeta. unfold signs_in. cbv zeta.
  destruct (String.eqb
              (currentUserRole (view (after [EvUserChange (Some a)] w)))
              (currentUserRole (view w))) eqn:E; revert E;
    destruct w as [d f t u rq co al un [us urs cs il cur srm su nr spm sc msg ir]];
    simpl in Hone, Hf;
    do 3 (run_events; rewrite ?Hf, ?Hone, ?Hadmin;
          change (JS.or_else (Some (role_name role_admin)) "user") with "admin";
          change (String.eqb "admin" "admin") with true);
    run_events; intros E.
  - apply String.eqb_eq in E. subst cur.
    split; [reflexivity|]. split; [reflexivity|]. split.
    + intros Hne. exfalso. apply Hne. reflexivity.
    + intros _. split; [|reflexivity]. apply issued_app. reflexivity.
  - split; [reflexivity|]. split; [reflexivity|]. split.
    + intros _. repeat split; try reflexivity.
      * eexists. reflexivity.
      * apply issued_app. simpl. rewrite <- ?app_assoc. reflexivity.
    + intros Hc. subst cur. simpl in E. discriminate.
Qed.

Lemma gate_admits_witness :
  Store.roles_of "root" (Store.user_roles (db (Scenario.mounted true)))
    = [Scenario.root_row] /\
  currentUserRole (view (Scenario.mounted true)) <> "admin" /\
  users (view (signs_in Scenario.root (Scenario.mounted true)))
    = [Scenario.alice] /\
  complaints (view (signs_in Scenario.root (Scenario.mounted true)))
    = [Scenario.bug_report] /\
  issued (Scenario.loaded true) (signs_in Scenario.root (Scenario.loaded true))
    = [Store.SelectRoleSingle "root"].
Proof.
  assert (Hne : currentUserRole (view (Scenario.mounted true)) <> "admin")
    by (vm_compute; discriminate).
  destruct (gate_admits (Scenario.mounted true) Scenario.root Scenario.root_row
              eq_refl eq_refl (fun _ => eq_refl))
    as (_ & _ & Hfresh & _).
  destruct (Hfresh Hne) as (_ & Hu & _ & Hc & _).
  destruct (gate_admits (Scenario.loaded true) Scenario.root Scenario.root_row
              eq_refl eq_refl (fun _ => eq_refl))
    as (_ & _ & _ & Hstale).
  destruct (Hstale eq_refl) as (Hi & _).
  split; [reflexivity|]. split; [exact Hne|]. split; [|split].
  - rewrite Hu. reflexivity.
  - rewrite Hc. reflexivity.
  - exact Hi.
Defined.

(* ================================================================= *)
(** ** What the events of the panel keep *)

Section Maintains.
Context {S : Type} (P : Store.Database -> S -> Prop).

Lemma maintains_ret {A} (a : A) : maintains P (@ret S A a).
Proof. intros w H. exact H. Qed.

Lemma maintains_throw {A} (x : Exn) : maintains P (@throw S A x).
Proof. intros w H. exact H. Qed.

Lemma maintains_bind {A B} (m : M S A) (k : A -> M S B) :
  maintains P m -> (forall a, maintains P (k a)) -> maintains P (bind m k).
Proof.
  intros Hm Hk w H. unfold bind. specialize (Hm w H).
  destruct (m w) as [[a|x] w1]; simpl in *; [apply Hk|]; assumption.
Qed.

Lemma maintains_try_catch {A} (m : M S A) (h : Exn -> M S A) :
  maintains P m -> (forall x, maintains P (h x)) -> maintains P (try_catch m h).
Proof.
  intros Hm Hh w H. unfold try_catch. specialize (Hm w H).
  destruct (m w) as [[a|x] w1]; simpl in *; [|apply Hh]; assumption.
Qed.

Lemma maintains_try_finally {A} (m : M S A) (f : M S unit) :
  maintains P m -> maintains P f -> maintains P (try_finally m f).
Proof.
  intros Hm Hf w H. unfold try_finally. specialize (Hm w H).
  destruct (m w) as [o w1]; simpl in *. specialize (Hf w1 Hm).
  destruct (f w1) as [[a|x] w2]; assumption.
Qed.

Lemma maintains_detached (m : M S unit) :
  maintains P m -> maintains P (detached m).
Proof.
  intros Hm w H. unfold detached. specialize (Hm w H).
  destruct (m w) as [[a|x] w1]; assumption.
Qed.

Lemma maintains_promise_all (ms : list (M S unit)) :
  Forall (maintains P) ms -> maintains P (promise_all ms).
Proof.
  induction 1 as [|m ms Hm _ IH]; simpl; [apply maintains_ret|].
  intros w H. specialize (Hm w H).
  destruct (m w) as [[a|x] w1]; simpl in *.
  - apply IH. exact Hm.
  - specialize (IH w1 Hm). destruct (promise_all ms w1). exact IH.
Qed.

Lemma maintains_get_view : maintains P (@get_view S).
Proof. intros w H. exact H. Qed.

Lemma maintains_get_user : maintains P (@get_user S).
Proof. intros w H. exact H. Qed.

Lemma maintains_get_now : maintains P (@get_now S).
Proof. intros w H. exact H. Qed.

Lemma maintains_console_error (msg : string) (x : Exn) :
  maintains P (@console_error S msg x).
Proof. intros w H. exact H. Qed.

Lemma maintains_alert (msg : string) : maintains P (@alert S msg).
Proof. intros w H. exact H. Qed.

Lemma maintains_set_view (g : S -> S) :
  (forall d s, P d s -> P d (g s)) -> maintains P (set_view g).
Proof. intros Hg w H. simpl. apply Hg. exact H. Qed.

Lemma maintains_await_store {A} (rq : Store.Request)
    (exec : string -> Store.Database -> Store.Database * Store.Response A) :
  (forall t d s, P d s -> P (fst (exec t d)) s) ->
  maintains P (@await_store S A rq exec).
Proof.
  intros Hexec w H. unfold await_store.
  destruct (fault w rq) as [[e|reason]|]; simpl; try assumption.
  specialize (Hexec (now w) (db w) (view w) H).
  destruct (exec (now w) (db w)). exact Hexec.
Qed.

End Maintains.

Create HintDb maintains.

#[local] Hint Resolve maintains_ret maintains_throw maintains_get_view
  maintains_get_user maintains_get_now maintains_console_error
  maintains_alert : maintains.

(** Takes a handler apart along its control structure; what is left is
    what its state setters and its store calls do to the property. *)
Ltac maintain :=
  repeat first
    [ progress intros
    | apply maintains_bind
    | apply maintains_try_catch
    | apply maintains_try_finally
    | apply maintains_detached
    | apply maintains_promise_all; repeat constructor
    | apply maintains_await_store
    | apply maintains_set_view
    | solve [auto with maintains]
    | match goal with
      | |- maintains _ (match ?x with _ => _ end) => destruct x
      | |- maintains _ (if ?x then _ else _) => destruct x
      end ].

(** Names the handlers and the state setters apart. *)
Ltac open_handlers :=
  unfold onUserChange, onCurrentUserRoleChange, checkUserRole, loadAdminData,
    assignRole, removeRole, handleReply, clickManageRole, clickReply,
    loadUsers, loadUserRoles, loadComplaints,
    setUsers, setUserRoles, setComplaints, setIsLoading, setCurrentUserRole,
    setShowRoleModal, setSelectedUser, setNewRole, setShowReplyModal,
    setSelectedComplaint, setReplyMessage, setIsReplying,
    select_role_of, select_users, select_user_roles, select_complaints,
    upsert_role, delete_role, update_complaint.

(** X5.  The resolved role changes through the role lookup only: every
    event of the panel other than a sign-in (the operator's actions, the
    reloads, a change of the environment, and a sign-out) leaves
    [currentUserRole] as it was.  In particular a panel opened by an admin
    keeps the role ['admin'] after the operator has signed out. *)
Theorem role_changes_only_on_sign_in :
  forall (e : Event) (w : World State),
    (forall a, e <> EvUserChange (Some a)) ->
    currentUserRole (view (snd (detached (handle e) w)))
      = currentUserRole (view w).
Proof.
  intros e w Hne.
  destruct e as [[a|]| | | | | | | | | | | |];
    try (exfalso; apply (Hne a); reflexivity);
    try reflexivity.
  all: match goal with
       | |- currentUserRole (view (snd (detached ?m ?w0))) = ?r =>
           apply (maintains_detached (fun _ s => currentUserRole s = r) m);
           [|reflexivity]
       end.
  all: simpl; open_handlers; maintain; simpl; assumption.
Qed.

Lemma role_changes_only_on_sign_in_witness :
  currentUserRole (view (Scenario.loaded true)) = "admin" /\
  user (snd (detached (handle (EvUserChange None)) (Scenario.loaded true))) = None /\
  currentUserRole
    (view (snd (detached (handle (EvUserChange None)) (Scenario.loaded true))))
    = "admin".
Proof.
  pose proof (role_changes_only_on_sign_in (EvUserChange None)
                (Scenario.loaded true)) as H.
  assert (Hne : forall a, EvUserChange None <> EvUserChange (Some a))
    by (intros a; discriminate).
  specialize (H Hne).
  split; [reflexivity|]. split; [reflexivity|].
  rewrite H. reflexivity.
Defined.

(** Closes what a store call does to a property of the tables. *)
Ltac store_call :=
  unfold Store.upsert_user_role, Store.upsert_on_id, Store.upsert_on_account,
    Store.insert_user_role, Store.delete_user_role, Store.update_complaint;
  simpl;
  repeat match goal with
         | |- context [match Store.upsert_key ?d with _ => _ end] =>
             destruct (Store.upsert_key d)
         | |- context [if ?b then _ else _] => destruct b
         end;
  simpl in *; intuition auto.

(** X6.  The panel writes to role rows and complaints only: whatever the
    operator and the environment do, in whatever order, the accounts, the
    contact messages and the UNIQUE setting of the store stay as they
    were. *)
Theorem panel_never_writes_accounts :
  forall (es : list Event) (w : World State),
    Store.users (db (after es w)) = Store.users (db w) /\
    Store.contacts (db (after es w)) = Store.contacts (db w) /\
    Store.user_id_unique (db (after es w)) = Store.user_id_unique (db w).
Proof.
  intros es w.
  set (I := fun d => Store.users d = Store.users (db w) /\
                     Store.contacts d = Store.contacts (db w) /\
                     Store.user_id_unique d = Store.user_id_unique (db w)).
  assert (Hstep : forall e, preserves I (handle e)).
  { intros e. destruct e; simpl; open_handlers; preserve;
      try (intros w0 H; exact H);
      try (unfold I in *; store_call). }
  assert (H : forall w0, I (db w0) -> I (db (after es w0))).
  { induction es as [|e es IH]; intros w0 H0; simpl; [exact H0|].
    apply IH. apply preserves_detached; [apply Hstep|exact H0]. }
  apply (H w). unfold I. repeat split.
Qed.

(** X7.  Each table has its writers.  An event other than "Assign Role"
    and a removal leaves the role rows as they were, and an event other
    than the submission of a reply and the filing of a complaint leaves
    the complaints as they were, whatever the environment does. *)
Theorem writes_are_confined :
  forall (e : Event) (w : World State),
    let d' := db (snd (detached (handle e) w)) in
    (e <> EvAssignRole -> (forall roleId, e <> EvRemoveRole roleId) ->
     Store.user_roles d' = Store.user_roles (db w)) /\
    (e <> EvSubmitReply ->
     (forall id email phone subject message,
        e <> EvComplaintFiled id email phone subject message) ->
     Store.complaints d' = Store.complaints (db w)).
Proof.
  intros e w d'. subst d'. split.
  - intros Ha Hr.
    apply (preserves_detached
             (fun d => Store.user_roles d = Store.user_roles (db w)));
      [|reflexivity].
    destruct e; try congruence;
      try (exfalso; eapply Hr; reflexivity);
      simpl; open_handlers; preserve;
      try (intros w0 H; exact H); store_call.
  - intros Hs Hc.
    apply (preserves_detached
             (fun d => Store.complaints d = Store.complaints (db w)));
      [|reflexivity].
    destruct e; try congruence;
      try (exfalso; eapply Hc; reflexivity);
      simpl; open_handlers; preserve;
      try (intros w0 H; exact H); store_call.
Qed.

Lemma writes_are_confined_witness :
  Store.user_roles
    (db (snd (detached (handle EvSubmitReply)
                (Scenario.drafting None "Fixed in v2"))))
    = [Scenario.root_row] /\
  Store.complaints
    (db (snd (detached (handle (EvRemoveRole "R0")) (Scenario.loaded true))))
    = [Scenario.bug_report].
Proof.
  split.
  - destruct (writes_are_confined EvSubmitReply
                (Scenario.drafting None "Fixed in v2")) as (H & _).
    rewrite H; [reflexivity|discriminate|intros; discriminate].
  - destruct (writes_are_confined (EvRemoveRole "R0") (Scenario.loaded true))
      as (_ & H).
    rewrite H; [reflexivity|discriminate|intros; discriminate].
Defined.

(** As [preserve], leaving a step that is not built from the operations of
    the monad as it stands. *)
Ltac preserve_steps :=
  repeat first
    [ match goal with |- forall _, _ => intro end
    | apply preserves_bind
    | apply preserves_try_catch
    | apply preserves_try_finally
    | apply preserves_detached
    | match goal with
      | |- preserves _ (promise_all _) =>
          apply preserves_promise_all;
          repeat first [apply Forall_cons | apply Forall_nil]
      end
    | apply preserves_await_store
    | solve [auto with preserves]
    | match goal with
      | |- preserves _ (match ?x with _ => _ end) => destruct x
      | |- preserves _ (if ?x then _ else _) => destruct x
      end ].






Lemma resolved_at_resolution (i : nat) (id0 id : string) (msg : JS.code_units)
    (t : string) (u : option AuthUser) (d : Store.Database) :
  resolved_at i id0 d ->
  resolved_at i id0 (fst (Store.update_complaint id (resolution msg t u) d)).
Proof.
  intros (c & Hnth & Hid & Hst). unfold resolved_at. simpl.
  rewrite nth_error_map, Hnth. simpl.
  destruct (String.eqb (c_id c) id).
  - eexists. split; [reflexivity|]. split; [exact Hid|reflexivity].
  - exists c. repeat split; assumption.
Qed.

Lemma answered_resolution (id : string) (msg : JS.code_units)
    (t : string) (u : option AuthUser) (d : Store.Database) :
  Forall answered (Store.complaints d) ->
  Forall answered
    (Store.complaints (fst (Store.update_complaint id (resolution msg t u) d))).
Proof.
  simpl. intros H.
  apply Forall_map. eapply Forall_impl; [|exact H].
  intros c Hc. destruct (String.eqb (c_id c) id); [|exact Hc].
  intros _. simpl. split; discriminate.
Qed.

(** X9.  Resolution is terminal.  A complaint that is resolved in the
    store stays in its place, with its identifier, and stays resolved,
    whatever the operator and the environment do afterwards. *)
Theorem resolved_stays_resolved :
  forall (es : list Event) (w : World State) (i : nat) (c : Complaint),
    nth_error (Store.complaints (db w)) i = Some c ->
    c_status c = resolved ->
    exists c',
      nth_error (Store.complaints (db (after es w))) i = Some c' /\
      c_id c' = c_id c /\ c_status c' = resolved.
Proof.
  intros es w i c Hnth Hst.
  assert (Hstep : forall e, preserves (resolved_at i (c_id c)) (handle e)).
  { intros e. destruct e; simpl; open_handlers; preserve_steps;
      try (intros w0 H; exact H);
      try (apply resolved_at_resolution; assumption);
      try (simpl; assumption);
      try solve [store_call].
    intros w0 (c0 & H0 & Hid & Hs). exists c0. simpl.
    rewrite nth_error_app1 by (apply nth_error_Some; congruence).
    repeat split; assumption. }
  assert (H : forall w0, resolved_at i (c_id c) (db w0) ->
                         resolved_at i (c_id c) (db (after es w0))).
  { induction es as [|e es IH]; intros w0 H0; simpl; [exact H0|].
    apply IH. apply preserves_detached; [apply Hstep|exact H0]. }
  apply (H w). exists c. repeat split; assumption.
Qed.

Lemma resolved_stays_resolved_witness :
  exists c',
    nth_error
      (Store.complaints
         (db (after [EvReply Scenario.bug_report;
                     EvTypeReply (JS.of_string "Once more");
                     EvSubmitReply]
                (after [EvSubmitReply] (Scenario.drafting None "Fixed in v2")))))
      0 = Some c' /\
    c_id c' = "C-1" /\ c_status c' = resolved.
Proof.
  destruct (nth_error
              (Store.complaints
                 (db (after [EvSubmitReply] (Scenario.drafting None "Fixed in v2"))))
              0) as [c|] eqn:E; [|vm_compute in E; discriminate].
  assert (Hc : c_id c = "C-1" /\ c_status c = resolved).
  { vm_compute in E. injection E as E. subst c. split; reflexivity. }
  destruct Hc as (Hid & Hst). rewrite <- Hid.
  apply (resolved_stays_resolved
           [EvReply Scenario.bug_report; EvTypeReply (JS.of_string "Once more");
            EvSubmitReply]
           (after [EvSubmitReply] (Scenario.drafting None "Fixed in v2"))
           0 c E Hst).
Defined.

(** X10.  In every state the panel and the submission form bring the
    store to, a resolved complaint carries a reply and the time of the
    reply: no sequence of events leaves a complaint resolved with either
    of them absent. *)
Theorem resolved_complaints_are_answered :
  forall (es : list Event) (w : World State),
    Forall answered (Store.complaints (db w)) ->
    Forall answered (Store.complaints (db (after es w))).
Proof.
  intros es w H0.
  assert (Hstep : forall e,
            preserves (fun d => Forall answered (Store.complaints d)) (handle e)).
  { intros e. destruct e; simpl; open_handlers; preserve_steps;
      try (intros w0 H; exact H);
      try (apply answered_resolution; assumption);
      try (simpl; assumption);
      try solve [store_call].
    intros w0 H. simpl. apply Forall_app. split; [exact H|].
    constructor; [|constructor]. intros E. discriminate E. }
  revert w H0. induction es as [|e es IH]; intros w H0; simpl; [exact H0|].
  apply IH. apply preserves_detached; [apply Hstep|exact H0].
Qed.

Lemma resolved_complaints_are_answered_witness :
  Forall answered (Store.complaints (db (Scenario.drafting_signed_out "Fixed in v2"))) /\
  Forall answered
    (Store.complaints
       (db (after [EvSubmitReply] (Scenario.drafting_signed_out "Fixed in v2")))).
Proof.
  assert (H : Forall answered
                (Store.complaints (db (Scenario.drafting_signed_out "Fixed in v2")))).
  { vm_compute. constructor; [|constructor]. intros E. discriminate E. }
  split; [exact H|].
  apply (resolved_complaints_are_answered [EvSubmitReply]
           (Scenario.drafting_signed_out "Fixed in v2") H).
Defined.

(* ================================================================= *)
(** ** More on the Complaint Resolution Service *)

Lemma trimEnd_head (c : N) (s : JS.code_units) :
  JS.is_white_space c = false ->
  exists t, JS.trimEnd (c :: s) = c :: t.
Proof.
  intros Hc. simpl. destruct (JS.trimEnd s) as [|x t].
  - rewrite Hc. exists []. reflexivity.
  - exists (x :: t). reflexivity.
Qed.

Lemma trimEnd_idempotent (s : JS.code_units) :
  JS.trimEnd (JS.trimEnd s) = JS.trimEnd s.
Proof.
  induction s as [|c s IH]; simpl; [reflexivity|].
  destruct (JS.trimEnd s) as [|x t] eqn:E.
  - destruct (JS.is_white_space c) eqn:Hc; simpl; [reflexivity|].
    rewrite Hc. reflexivity.
  - simpl in *. rewrite IH. reflexivity.
Qed.

Lemma trimStart_head (s : JS.code_units) :
  JS.trimStart s = [] \/
  exists c t, JS.trimStart s = c :: t /\ JS.is_white_space c = false.
Proof.
  induction s as [|c s IH]; simpl; [left; reflexivity|].
  destruct (JS.is_white_space c) eqn:Hc; [exact IH|].
  right. exists c, s. split; [reflexivity|exact Hc].
Qed.

Lemma trim_idempotent (s : JS.code_units) : JS.trim (JS.trim s) = JS.trim s.
Proof.
  unfold JS.trim.
  destruct (trimStart_head s) as [E|(c & t & E & Hc)]; rewrite E.
  - reflexivity.
  - destruct (trimEnd_head c t Hc) as (t' & E').
    rewrite E'. simpl JS.trimStart. rewrite Hc. rewrite <- E'.
    apply trimEnd_idempotent.
Qed.

(** X11.  What an answered resolution stores.  Every complaint with the
    [id] of the selected one, whatever it held before, is resolved and
    holds the draft trimmed (not empty, and with no white space left at
    either end), the time of the call, and the identity of the operator
    when one is signed in; the dialog is closed and the draft cleared. *)
Theorem handleReply_stores_trimmed_reply :
  forall (w : World State) (c : Complaint),
    selectedComplaint (view w) = Some c ->
    JS.trim (replyMessage (view w)) <> [] ->
    fault w (Store.UpdateComplaint (c_id c)
               (resolution (replyMessage (view w)) (now w) (user w))) = None ->
    let w' := snd (handleReply w) in
    (forall x, In x (Store.complaints (db w')) -> c_id x = c_id c ->
       c_status x = resolved /\
       (exists r, c_admin_reply x = Some r /\
                  r = JS.trim (replyMessage (view w)) /\
                  r <> [] /\ JS.trim r = r) /\
       c_replied_at x = Some (now w) /\
       (forall op, user w = Some op -> c_replied_by x = Some (auth_id op))) /\
    (forall x, In x (Store.complaints (db w')) -> c_id x <> c_id c ->
       In x (Store.complaints (db w))) /\
    length (Store.complaints (db w')) = length (Store.complaints (db w)) /\
    showReplyModal (view w') = false /\
    replyMessage (view w') = [].
Proof.
  intros w c Hsel Hdraft Hf w'.
  destruct (handleReply_answered w c Hsel Hdraft Hf)
    as (_ & Hrows & Hmsg & _ & Hmodal & _).
  fold w' in Hrows, Hmsg, Hmodal.
  repeat split; try assumption.
  - rewrite Hrows in H. apply in_map_iff in H. destruct H as (y & Hy & _).
    destruct (String.eqb (c_id y) (c_id c)) eqn:E; subst x; [reflexivity|].
    apply String.eqb_neq in E. contradiction.
  - rewrite Hrows in H. apply in_map_iff in H. destruct H as (y & Hy & _).
    destruct (String.eqb (c_id y) (c_id c)) eqn:E; subst x.
    + eexists. split; [reflexivity|]. split; [reflexivity|].
      split; [exact Hdraft|apply trim_idempotent].
    + apply String.eqb_neq in E. contradiction.
  - rewrite Hrows in H. apply in_map_iff in H. destruct H as (y & Hy & _).
    destruct (String.eqb (c_id y) (c_id c)) eqn:E; subst x; [reflexivity|].
    apply String.eqb_neq in E. contradiction.
  - intros op Hop. rewrite Hrows in H. apply in_map_iff in H.
    destruct H as (y & Hy & _).
    destruct (String.eqb (c_id y) (c_id c)) eqn:E; subst x.
    + rewrite Hop. reflexivity.
    + apply String.eqb_neq in E. contradiction.
  - intros x Hx Hid. rewrite Hrows in Hx. apply in_map_iff in Hx.
    destruct Hx as (y & Hy & Hin).
    destruct (String.eqb (c_id y) (c_id c)) eqn:E; subst x; [|exact Hin].
    exfalso. apply Hid. simpl. apply String.eqb_eq. exact E.
  - rewrite Hrows. apply length_map.
Qed.

Lemma handleReply_stores_trimmed_reply_witness :
  JS.trim (replyMessage (view (Scenario.drafting None "  Fixed in v2  "))) <> [] /\
  map (fun x => (c_status x, c_admin_reply x, c_replied_by x))
    (Store.complaints
       (db (snd (handleReply (Scenario.drafting None "  Fixed in v2  ")))))
    = [(resolved, Some (JS.of_string "Fixed in v2"), Some "root")].
Proof.
  assert (Hdraft : JS.trim (replyMessage
                              (view (Scenario.drafting None "  Fixed in v2  ")))
                   <> []) by (vm_compute; discriminate).
  destruct (handleReply_stores_trimmed_reply
              (Scenario.drafting None "  Fixed in v2  ") Scenario.bug_report
              eq_refl Hdraft eq_refl) as (_ & _ & _ & _ & _).
  split; [exact Hdraft|]. vm_compute. reflexivity.
Defined.

(** X12.  After a resolution and a reload that are both answered, the
    panel lists the complaints of the store again: no complaint with the
    [id] of the selected one is listed as pending, so no "Reply" button is
    offered for it, and the counter of pending complaints is the count
    over the store. *)
Theorem handleReply_refreshes_the_list :
  forall (w : World State) (c : Complaint),
    selectedComplaint (view w) = Some c ->
    JS.trim (replyMessage (view w)) <> [] ->
    fault w (Store.UpdateComplaint (c_id c)
               (resolution (replyMessage (view w)) (now w) (user w))) = None ->
    fault w (Store.SelectAll Store.t_complaints) = None ->
    let w' := snd (handleReply w) in
    complaints (view w')
      = Store.order_desc c_created_at (Store.complaints (db w')) /\
    (forall x, In x (complaints (view w')) -> c_id x = c_id c ->
       c_status x = resolved) /\
    pendingComplaints (view w') = pending_among (Store.complaints (db w')).
Proof.
  intros [d f t u rq co al un [us urs cs il cur srm su nr spm sc msg ir]] c.
  simpl. intros Hsel Hdraft Hf Hr. subst sc.
  assert (E : complaints
                (view (snd (handleReply
                   {| db := d; fault := f; now := t; user := u; requests := rq;
                      console := co; alerts := al; unhandled := un;
                      view := {| users := us; userRoles := urs; complaints := cs;
                                 isLoading := il; currentUserRole := cur;
                                 showRoleModal := srm; selectedUser := su;
                                 newRole := nr; showReplyModal := spm;
                                 selectedComplaint := Some c;
                                 replyMessage := msg; isReplying := ir |} |})))
              = Store.order_desc c_created_at
                  (Store.complaints
                     (db (snd (handleReply
                        {| db := d; fault := f; now := t; user := u;
                           requests := rq; console := co; alerts := al;
                           unhandled := un;
                           view := {| users := us; userRoles := urs;
                                      complaints := cs; isLoading := il;
                                      currentUserRole := cur;
                                      showRoleModal := srm; selectedUser := su;
                                      newRole := nr; showReplyModal := spm;
                                      selectedComplaint := Some c;
                                      replyMessage := msg;
                                      isReplying := ir |} |}))))).
  { run. rewrite (truthy_units_trim msg Hdraft).
    unfold resolution in Hf. rewrite Hf. run. rewrite Hr. run. reflexivity. }
  split; [exact E|]. split.
  - intros x Hx Hid. rewrite E in Hx.
    apply (Permutation_in _ (order_desc_perm c_created_at _)) in Hx.
    revert Hx. run. rewrite (truthy_units_trim msg Hdraft).
    unfold resolution in Hf. rewrite Hf. run. rewrite Hr. run.
    intros Hx. apply in_map_iff in Hx. destruct Hx as (y & Hy & _).
    destruct (String.eqb (c_id y) (c_id c)) eqn:Ey; subst x; [reflexivity|].
    apply String.eqb_neq in Ey. contradiction.
  - unfold pendingComplaints, pending_among. rewrite E.
    apply filter_length_perm. apply order_desc_perm.
Qed.

Lemma handleReply_refreshes_the_list_witness :
  JS.trim (replyMessage (view (Scenario.drafting None "Fixed in v2"))) <> [] /\
  pendingComplaints (view (Scenario.drafting None "Fixed in v2")) = 1 /\
  pendingComplaints
    (view (snd (handleReply (Scenario.drafting None "Fixed in v2")))) = 0.
Proof.
  assert (Hdraft : JS.trim (replyMessage (view (Scenario.drafting None "Fixed in v2")))
                   <> []) by (vm_compute; discriminate).
  destruct (handleReply_refreshes_the_list
              (Scenario.drafting None "Fixed in v2") Scenario.bug_report
              eq_refl Hdraft eq_refl eq_refl) as (_ & _ & Hp).
  split; [exact Hdraft|]. split; [reflexivity|].
  rewrite Hp. vm_compute. reflexivity.
Defined.

(* ================================================================= *)
(** ** More on the Role Mutation Service *)

(** X13.  When the store write of an assignment fails (the call resolves
    with an error, or its promise rejects), nothing is written and nothing
    is reloaded; the failure is logged and shown to the operator, and the
    dialog stays open on the selected account. *)
Theorem assignRole_store_failure :
  forall (w : World State) (sel : User) (op : AuthUser) (how : Fault),
    selectedUser (view w) = Some sel ->
    user w = Some op ->
    fault w (Store.UpsertUserRole
               {| Store.w_id := None; Store.w_user_id := u_id sel;
                  Store.w_role := newRole (view w);
                  Store.w_assigned_by := auth_id op |}) = Some how ->
    let w' := snd (assignRole w) in
    fst (assignRole w) = Returned tt /\
    db w' = db w /\
    issued w w'
      = [Store.UpsertUserRole
           {| Store.w_id := None; Store.w_user_id := u_id sel;
              Store.w_role := newRole (view w);
              Store.w_assigned_by := auth_id op |}] /\
    view w' = view w /\
    alerts w' = alerts w ++ ["Failed to assign role. Please try again."] /\
    console w' = console w ++ [("Error assigning role:", caught how)].
Proof.
  intros [d f t u rq co al un [us urs cs il cur srm su nr spm sc msg ir]]
         sel op how.
  simpl. intros Hsel Hu Hf. subst su u.
  run. rewrite Hf. destruct how as [e|reason]; run;
    repeat split; try reflexivity; apply issued_app; reflexivity.
Qed.

Lemma assignRole_store_failure_witness :
  selectedUser
    (view (after [EvManageRole Scenario.alice; EvSelectRole role_moderator;
                  EvEnvironment (Scenario.writes_fail Scenario.denied)
                    "2024-05-01T10:03:00.000Z"]
             (Scenario.loaded true)))
    = Some Scenario.alice /\
  Store.user_roles
    (db (snd (assignRole
                (after [EvManageRole Scenario.alice; EvSelectRole role_moderator;
                        EvEnvironment (Scenario.writes_fail Scenario.denied)
                          "2024-05-01T10:03:00.000Z"]
                   (Scenario.loaded true)))))
    = [Scenario.root_row] /\
  alerts
    (snd (assignRole
            (after [EvManageRole Scenario.alice; EvSelectRole role_moderator;
                    EvEnvironment (Scenario.writes_fail Scenario.denied)
                      "2024-05-01T10:03:00.000Z"]
               (Scenario.loaded true))))
    = ["Failed to assign role. Please try again."].
Proof.
  destruct (assignRole_store_failure
              (after [EvManageRole Scenario.alice; EvSelectRole role_moderator;
                      EvEnvironment (Scenario.writes_fail Scenario.denied)
                        "2024-05-01T10:03:00.000Z"]
                 (Scenario.loaded true))
              Scenario.alice Scenario.root Scenario.denied
              eq_refl eq_refl eq_refl)
    as (_ & Hdb & _ & _ & Hal & _).
  split; [reflexivity|]. split.
  - rewrite Hdb. reflexivity.
  - rewrite Hal. reflexivity.
Defined.

(** A removal that is answered. *)
Lemma removeRole_answered (w : World State) (roleId : string) :
  fault w (Store.DeleteUserRole roleId) = None ->
  let w' := snd (removeRole roleId w) in
  fst (removeRole roleId w) = Returned tt /\
  db w' = fst (Store.delete_user_role roleId (db w)) /\
  fault w' = fault w /\
  alerts w' = alerts w ++ ["Role removed successfully!"].
Proof.
  destruct w as [d f t u rq co al un st]; simpl. intros Hf.
  run. rewrite Hf. run.
  destruct (f (Store.SelectAll Store.t_user_roles)) as [[e|reason]|];
    repeat split; reflexivity.
Qed.

Lemma filter_idempotent {R} (p : R -> bool) (l : list R) :
  filter p (filter p l) = filter p l.
Proof.
  induction l as [|x l IH]; simpl; [reflexivity|].
  destruct (p x) eqn:E; simpl; rewrite ?E, IH; reflexivity.
Qed.

Lemma filter_all {R} (p : R -> bool) (l : list R) :
  (forall x, In x l -> p x = true) -> filter p l = l.
Proof.
  induction l as [|x l IH]; intros H; simpl; [reflexivity|].
  rewrite (H x (or_introl eq_refl)), IH by (intros y Hy; apply H; right; exact Hy).
  reflexivity.
Qed.

(** X14.  Removal is idempotent.  Removing a role row a second time, once
    the first removal has been answered, leaves the store as the first
    removal left it and is reported as a success again: deleting a row
    that is not there is not an error. *)
Theorem removeRole_twice :
  forall (w : World State) (roleId : string),
    fault w (Store.DeleteUserRole roleId) = None ->
    let w1 := snd (removeRole roleId w) in
    let w2 := snd (removeRole roleId w1) in
    fst (removeRole roleId w1) = Returned tt /\
    db w2 = db w1 /\
    (forall r, In r (Store.user_roles (db w1)) -> ur_id r <> roleId) /\
    alerts w2 = alerts w ++ ["Role removed successfully!";
                             "Role removed successfully!"].
Proof.
  intros w roleId Hf w1 w2.
  destruct (removeRole_answered w roleId Hf) as (_ & Hdb1 & Hf1 & Hal1).
  fold w1 in Hdb1, Hf1, Hal1.
  assert (Hf' : fault w1 (Store.DeleteUserRole roleId) = None)
    by (rewrite Hf1; exact Hf).
  destruct (removeRole_answered w1 roleId Hf') as (Hret & Hdb2 & _ & Hal2).
  fold w2 in Hdb2, Hal2.
  split; [exact Hret|]. split; [|split].
  - rewrite Hdb2, Hdb1. unfold Store.delete_user_role, Store.with_user_roles.
    simpl. rewrite filter_idempotent. reflexivity.
  - intros r Hr. rewrite Hdb1 in Hr. simpl in Hr. apply filter_In in Hr.
    destruct Hr as (_ & Hne). intros E. subst roleId.
    rewrite String.eqb_refl in Hne. discriminate.
  - rewrite Hal2, Hal1, <- app_assoc. reflexivity.
Qed.

Lemma removeRole_twice_witness :
  fault (Scenario.loaded true) (Store.DeleteUserRole "R0") = None /\
  Store.user_roles
    (db (snd (removeRole "R0" (snd (removeRole "R0" (Scenario.loaded true))))))
    = [].
Proof.
  destruct (removeRole_twice (Scenario.loaded true) "R0" eq_refl)
    as (_ & Hdb & _).
  split; [reflexivity|]. rewrite Hdb. reflexivity.
Defined.

(** X15.  A removal touches the rows with the given [id] only: an account
    none of whose role rows has that [id] resolves afterwards to the role
    it resolved to before. *)
Theorem removeRole_spares_other_accounts :
  forall (w : World State) (roleId : string) (a : AuthUser),
    fault w (Store.DeleteUserRole roleId) = None ->
    fault w (Store.SelectRoleSingle (auth_id a)) = None ->
    (forall r, In r (Store.roles_of (auth_id a) (Store.user_roles (db w))) ->
               ur_id r <> roleId) ->
    Resolver (snd (removeRole roleId w)) a = Resolver w a.
Proof.
  intros w roleId a Hf Hl Hother.
  destruct (removeRole_answered w roleId Hf) as (_ & Hdb & Hf1 & _).
  rewrite !Resolver_answered by (rewrite ?Hf1; exact Hl).
  rewrite Hdb. simpl. unfold Store.roles_of.
  rewrite filter_filter_comm.
  fold (Store.roles_of (auth_id a) (Store.user_roles (db w))).
  rewrite filter_all; [reflexivity|].
  intros r Hr. apply Bool.negb_true_iff. apply String.eqb_neq.
  apply Hother. exact Hr.
Qed.

Lemma removeRole_spares_other_accounts_witness :
  Resolver (Scenario.alice_with [Scenario.moderator_row]) (identity Scenario.alice)
    = "moderator" /\
  Resolver (snd (removeRole "R0" (Scenario.alice_with [Scenario.moderator_row])))
    (identity Scenario.alice) = "moderator".
Proof.
  assert (H : forall r,
            In r (Store.roles_of (auth_id (identity Scenario.alice))
                    (Store.user_roles
                       (db (Scenario.alice_with [Scenario.moderator_row])))) ->
            ur_id r <> "R0").
  { intros r Hr. simpl in Hr. destruct Hr as [E|[]]. subst r. discriminate. }
  pose proof (removeRole_spares_other_accounts
                (Scenario.alice_with [Scenario.moderator_row]) "R0"
                (identity Scenario.alice) eq_refl eq_refl H) as E.
  split; [reflexivity|]. rewrite E. reflexivity.
Defined.

(** X16.  When the store write of a removal fails, nothing is deleted and
    nothing is reloaded; the failure is logged and shown to the
    operator. *)
Theorem removeRole_store_failure :
  forall (w : World State) (roleId : string) (how : Fault),
    fault w (Store.DeleteUserRole roleId) = Some how ->
    let w' := snd (removeRole roleId w) in
    fst (removeRole roleId w) = Returned tt /\
    db w' = db w /\
    issued w w' = [Store.DeleteUserRole roleId] /\
    view w' = view w /\
    alerts w' = alerts w ++ ["Failed to remove role. Please try again."] /\
    console w' = console w ++ [("Error removing role:", caught how)].
Proof.
  intros [d f t u rq co al un st] roleId how. simpl. intros Hf.
  run. rewrite Hf. destruct how as [e|reason]; run;
    repeat split; try reflexivity; apply issued_app; reflexivity.
Qed.

Lemma removeRole_store_failure_witness :
  fault Scenario.offline (Store.DeleteUserRole "R0") = Some Scenario.network_down /\
  Store.user_roles (db (snd (removeRole "R0" Scenario.offline)))
    = [Scenario.root_row] /\
  alerts (snd (removeRole "R0" Scenario.offline))
    = ["Failed to remove role. Please try again."].
Proof.
  destruct (removeRole_store_failure Scenario.offline "R0" Scenario.network_down
              eq_refl) as (_ & Hdb & _ & _ & Hal & _).
  split; [reflexivity|]. split.
  - rewrite Hdb. reflexivity.
  - rewrite Hal. reflexivity.
Defined.

(** X17.  The role the table shows for an account is the role the Resolver
    yields for it, when the panel lists the role rows of the store, the
    account has at most one of them and the lookup is answered. *)
Theorem getUserRole_agrees_with_Resolver :
  forall (w : World State) (a : AuthUser),
    Permutation (userRoles (view w)) (Store.user_roles (db w)) ->
    length (Store.roles_of (auth_id a) (Store.user_roles (db w))) <= 1 ->
    fault w (Store.SelectRoleSingle (auth_id a)) = None ->
    getUserRole (view w) (auth_id a) = Resolver w a.
Proof.
  intros w a Hperm Hlen Hf.
  rewrite Resolver_answered by exact Hf.
  unfold getUserRole, JS.find.
  destruct (Store.roles_of (auth_id a) (Store.user_roles (db w)))
    as [|r [|r' rest]] eqn:Hrows; [| |simpl in Hlen; lia].
  - destruct (find _ (userRoles (view w))) as [y|] eqn:Hfind; [|reflexivity].
    exfalso. apply find_some in Hfind. destruct Hfind as (Hin & Hp).
    assert (H : In y (Store.roles_of (auth_id a) (Store.user_roles (db w)))).
    { apply filter_In. split; [|exact Hp].
      eapply Permutation_in; eassumption. }
    rewrite Hrows in H. exact H.
  - destruct (find_in_permuted
                (fun x => String.eqb (ur_user_id x) (auth_id a))
                (Store.user_roles (db w)) (userRoles (view w)) r)
      as (y & Hfind & Hin & Hp).
    + exact Hperm.
    + assert (H : In r (Store.roles_of (auth_id a) (Store.user_roles (db w))))
        by (rewrite Hrows; left; reflexivity).
      apply filter_In in H. apply H.
    + assert (H : In r (Store.roles_of (auth_id a) (Store.user_roles (db w))))
        by (rewrite Hrows; left; reflexivity).
      apply filter_In in H. apply H.
    + rewrite Hfind. simpl.
      assert (H : In y (Store.roles_of (auth_id a) (Store.user_roles (db w))))
        by (apply filter_In; split; assumption).
      rewrite Hrows in H. destruct H as [E|[]]. subst y.
      rewrite role_name_truthy. reflexivity.
Qed.

Lemma getUserRole_agrees_with_Resolver_witness :
  length (Store.roles_of "root" (Store.user_roles (db (Scenario.loaded true)))) <= 1 /\
  getUserRole (view (Scenario.loaded true)) "root" = "admin" /\
  Resolver (Scenario.loaded true) Scenario.root = "admin".
Proof.
  assert (Hperm : Permutation (userRoles (view (Scenario.loaded true)))
                    (Store.user_roles (db (Scenario.loaded true))))
    by (vm_compute; apply Permutation_refl).
  assert (Hlen : length (Store.roles_of (auth_id Scenario.root)
                           (Store.user_roles (db (Scenario.loaded true)))) <= 1)
    by (vm_compute; lia).
  pose proof (getUserRole_agrees_with_Resolver (Scenario.loaded true)
                Scenario.root Hperm Hlen eq_refl) as E.
  split; [exact Hlen|]. split; [reflexivity|].
  rewrite <- E. reflexivity.
Defined.

Lemma as_role_role_name (r : Role) : as_role (role_name r) = r.
Proof. destruct r; reflexivity. Qed.

Lemma getUserRole_is_role (st : State) (userId : string) :
  exists r, getUserRole st userId = role_name r.
Proof.
  unfold getUserRole, JS.find.
  destruct (find _ (userRoles st)) as [x|]; simpl.
  - exists (ur_role x). rewrite role_name_truthy. reflexivity.
  - exists role_user. reflexivity.
Qed.

(** X18.  "Manage Role" opens the dialog on the account with the role the
    table shows for it preselected: the role of the first row the panel
    lists for the account, ['user'] when it lists none.  It issues no
    request. *)
Theorem clickManageRole_preselects :
  forall (w : World State) (u : User),
    let w' := snd (clickManageRole u w) in
    selectedUser (view w') = Some u /\
    showRoleModal (view w') = true /\
    role_name (newRole (view w')) = getUserRole (view w) (u_id u) /\
    (forall r, JS.find (fun x => String.eqb (ur_user_id x) (u_id u))
                 (userRoles (view w)) = Some r ->
               newRole (view w') = ur_role r) /\
    (JS.find (fun x => String.eqb (ur_user_id x) (u_id u))
       (userRoles (view w)) = None ->
     newRole (view w') = role_user) /\
    requests w' = requests w /\ db w' = db w.
Proof.
  intros [d f t a rq co al un [us urs cs il cur srm su nr spm sc msg ir]] u.
  run. repeat split.
  - destruct (getUserRole_is_role
                {| users := us; userRoles := urs; complaints := cs;
                   isLoading := il; currentUserRole := cur;
                   showRoleModal := srm; selectedUser := su; newRole := nr;
                   showReplyModal := spm; selectedComplaint := sc;
                   replyMessage := msg; isReplying := ir |} (u_id u))
      as (r & E).
    rewrite E. rewrite as_role_role_name. reflexivity.
  - intros r Hr. unfold getUserRole. simpl. rewrite Hr. simpl.
    rewrite role_name_truthy. apply as_role_role_name.
  - intros Hnone. unfold getUserRole. simpl. rewrite Hnone. reflexivity.
Qed.

(* ================================================================= *)
(** ** More on the ungated dashboard *)

(** X19.  When the promise of one of the two reads rejects, [fetchData]
    stops there: no collection is set, the loading flag is not cleared (a
    dashboard that was loading keeps showing "Loading..."), nothing is
    logged or shown, and the rejection stays unhandled. *)
Theorem fetchData_rejection_hangs :
  forall (w : World AdminDashboard.State) (reason : string),
    fault w (Store.SelectAll Store.t_complaints) = Some (FaultReject reason) \/
    ((forall r, fault w (Store.SelectAll Store.t_complaints)
                <> Some (FaultReject r)) /\
     fault w (Store.SelectAll Store.t_contacts) = Some (FaultReject reason)) ->
    let w' := snd (AdminDashboard.onMount w) in
    view w' = view w /\
    (AdminDashboard.loading (view w) = true ->
     AdminDashboard.render (view w') = AdminDashboard.LoadingDashboard) /\
    unhandled w' = unhandled w ++ [ExnRejected reason] /\
    console w' = console w /\
    alerts w' = alerts w /\
    db w' = db w.
Proof.
  intros [d f t u rq co al un [cs ks ld]] reason. simpl. intros H.
  run_dashboard.
  destruct H as [Hc|(Hc & Hk)].
  - rewrite Hc. run_dashboard. repeat split; try reflexivity.
    intros E. rewrite E. reflexivity.
  - destruct (f (Store.SelectAll Store.t_complaints)) as [[e|r]|];
      [| exfalso; apply (Hc r); reflexivity |];
      run_dashboard; rewrite Hk; run_dashboard;
      repeat split; try reflexivity; intros E; rewrite E; reflexivity.
Qed.

Lemma fetchData_rejection_hangs_witness :
  fault (Scenario.world (Scenario.store true)
           (Scenario.read_fails Store.t_contacts Scenario.network_down)
           None AdminDashboard.mount)
    (Store.SelectAll Store.t_contacts) = Some Scenario.network_down /\
  AdminDashboard.render
    (view (snd (AdminDashboard.onMount
                  (Scenario.world (Scenario.store true)
                     (Scenario.read_fails Store.t_contacts Scenario.network_down)
                     None AdminDashboard.mount))))
    = AdminDashboard.LoadingDashboard.
Proof.
  destruct (fetchData_rejection_hangs
              (Scenario.world (Scenario.store true)
                 (Scenario.read_fails Store.t_contacts Scenario.network_down)
                 None AdminDashboard.mount)
              "Failed to fetch") as (_ & Hload & _).
  - right. split; [intros r; discriminate|reflexivity].
  - split; [reflexivity|]. apply Hload. reflexivity.
Defined.

(** X20.  When neither read is rejected, [fetchData] clears the loading
    flag; a read that is answered sets its collection to the table,
    newest first, and a read that resolves with an error leaves its
    collection as it was, without a word: nothing is logged, nothing is
    shown, nothing stays unhandled. *)
Theorem fetchData_settles :
  forall w : World AdminDashboard.State,
    (forall r, fault w (Store.SelectAll Store.t_complaints)
               <> Some (FaultReject r)) ->
    (forall r, fault w (Store.SelectAll Store.t_contacts)
               <> Some (FaultReject r)) ->
    let w' := snd (AdminDashboard.onMount w) in
    AdminDashboard.loading (view w') = false /\
    AdminDashboard.complaints (view w')
      = match fault w (Store.SelectAll Store.t_complaints) with
        | None => Store.order_desc c_created_at (Store.complaints (db w))
        | Some _ => AdminDashboard.complaints (view w)
        end /\
    AdminDashboard.contacts (view w')
      = match fault w (Store.SelectAll Store.t_contacts) with
        | None => Store.order_desc k_created_at (Store.contacts (db w))
        | Some _ => AdminDashboard.contacts (view w)
        end /\
    console w' = console w /\
    alerts w' = alerts w /\
    unhandled w' = unhandled w.
Proof.
  intros [d f t u rq co al un [cs ks ld]]. simpl. intros Hc Hk.
  run_dashboard.
  destruct (f (Store.SelectAll Store.t_complaints)) as [[e|r]|];
    [| exfalso; apply (Hc r); reflexivity |];
    run_dashboard;
    (destruct (f (Store.SelectAll Store.t_contacts)) as [[e'|r']|];
     [| exfalso; apply (Hk r'); reflexivity |]);
    run_dashboard; repeat split; reflexivity.
Qed.

Lemma fetchData_settles_witness :
  AdminDashboard.render
    (view (snd (AdminDashboard.onMount
                  (Scenario.world (Scenario.store true)
                     (Scenario.read_fails Store.t_complaints Scenario.denied)
                     None AdminDashboard.mount))))
    = AdminDashboard.Dashboard [] [Scenario.hello] /\
  console (snd (AdminDashboard.onMount
                  (Scenario.world (Scenario.store true)
                     (Scenario.read_fails Store.t_complaints Scenario.denied)
                     None AdminDashboard.mount)))
    = [].
Proof.
  destruct (fetchData_settles
              (Scenario.world (Scenario.store true)
                 (Scenario.read_fails Store.t_complaints Scenario.denied)
                 None AdminDashboard.mount))
    as (Hl & Hc & Hk & Hco & _).
  - intros r. discriminate.
  - intros r. discriminate.
  - split; [|rewrite Hco; reflexivity].
    unfold AdminDashboard.render. rewrite Hl, Hc, Hk. reflexivity.
Defined.

(** X21.  The dashboard only reads.  Whatever the environment does, a
    mount of the dashboard returns normally, writes nothing to the store
    and issues at most the two reads, none of them a write. *)
Theorem dashboard_only_reads :
  forall w : World AdminDashboard.State,
    let w' := snd (AdminDashboard.onMount w) in
    fst (AdminDashboard.onMount w) = Returned tt /\
    db w' = db w /\
    Forall (fun rq => Store.is_write rq = false) (issued w w') /\
    length (issued w w') <= 2.
Proof.
  intros [d f t u rq co al un [cs ks ld]].
  assert (Hissued : forall S (w w' : World S) rs,
            requests w' = requests w ++ rs -> issued w w' = rs)
    by (intros; apply issued_app; assumption).
  run_dashboard.
  destruct (f (Store.SelectAll Store.t_complaints)) as [[e|r]|];
    run_dashboard;
    destruct (f (Store.SelectAll Store.t_contacts)) as [[e'|r']|];
    run_dashboard;
    (split; [reflexivity|split; [reflexivity|]]);
    (erewrite Hissued; [|simpl; rewrite <- ?app_assoc; reflexivity]);
    split; simpl; repeat constructor.
Qed.

(* ================================================================= *)
(** ** The route table *)

Lemma bound_In (scope : list string) (name : string) :
  Routes.bound scope name = true <-> In name scope.
Proof.
  unfold Routes.bound. rewrite existsb_exists. split.
  - intros (x & Hx & E). apply String.eqb_eq in E. subst x. exact Hx.
  - intros H. exists name. split; [exact H|apply String.eqb_refl].
Qed.

(** The evaluation goes past the identifiers that are bound. *)
Lemma find_unbound_app (scope l rest : list string) :
  (forall name, In name l -> In name scope) ->
  find (fun name => negb (Routes.bound scope name)) (l ++ rest)
    = find (fun name => negb (Routes.bound scope name)) rest.
Proof.
  induction l as [|x l IH]; intros H; simpl; [reflexivity|].
  rewrite (proj2 (bound_In scope x)) by (apply H; left; reflexivity).
  simpl. apply IH. intros name Hn. apply H. right. exact Hn.
Qed.




(** X22.  [AppRoutes] refers to [ModeratorPanel], which the module does
    not import.  In the module as it stands a render of [AppRoutes] throws
    a [ReferenceError] on that identifier, for every visitor and at every
    pathname, so no route is rendered.  In a module that binds the
    identifiers of this one, a render returns the route table exactly when
    [ModeratorPanel] is bound as well. *)
Theorem AppRoutes_needs_ModeratorPanel :
  forall (scope : list string) (u : option AuthUser),
    (forall name, In name Routes.module_scope -> In name scope) ->
    (forall pathname,
       Routes.render Routes.module_scope u pathname
         = Routes.ReferenceError "ModeratorPanel") /\
    (~ In "ModeratorPanel" scope ->
     Routes.AppRoutes scope u = Routes.ReferenceError "ModeratorPanel") /\
    (In "ModeratorPanel" scope ->
     Routes.AppRoutes scope u = Routes.Value (Routes.routes u)).
Proof.
  intros scope u Hsub.
  split; [intros pathname; destruct u; reflexivity|].
  unfold Routes.AppRoutes.
  set (names := "useAuth" :: "Routes"
                :: flat_map (fun r => "Route" :: Routes.references (snd r))
                     (Routes.routes u)).
  assert (Hn : names = removelast names ++ ["ModeratorPanel"])
    by (destruct u; reflexivity).
  assert (Hp : forall name, In name (removelast names) -> In name scope).
  { intros name Hin. apply Hsub. apply bound_In. revert name Hin.
    apply forallb_forall. destruct u; vm_compute; reflexivity. }
  rewrite Hn, (find_unbound_app scope _ _ Hp). simpl.
  destruct (Routes.bound scope "ModeratorPanel") eqn:B; simpl; split.
  - intros Hno. exfalso. apply Hno. apply bound_In. exact B.
  - reflexivity.
  - reflexivity.
  - intros Hin. apply bound_In in Hin. congruence.
Qed.

Lemma AppRoutes_needs_ModeratorPanel_witness :
  ~ In "ModeratorPanel" Routes.module_scope /\
  Routes.AppRoutes Routes.module_scope (Some Scenario.root)
    = Routes.ReferenceError "ModeratorPanel" /\
  Routes.AppRoutes ("ModeratorPanel" :: Routes.module_scope) (Some Scenario.root)
    = Routes.Value (Routes.routes (Some Scenario.root)).
Proof.
  assert (Hno : ~ In "ModeratorPanel" Routes.module_scope).
  { intros Hin. apply bound_In in Hin. vm_compute in Hin. discriminate Hin. }
  split; [exact Hno|]. split.
  - apply (AppRoutes_needs_ModeratorPanel Routes.module_scope
             (Some Scenario.root)); [intros name Hin; exact Hin|exact Hno].
  - apply (AppRoutes_needs_ModeratorPanel
             ("ModeratorPanel" :: Routes.module_scope) (Some Scenario.root)).
    + intros name Hin. right. exact Hin.
    + left. reflexivity.
Defined.





(* ================================================================= *)
(** ** The contact form *)

(** Unfolds [handleSubmit] of the contact form on a world given by its
    fields. *)
Ltac run_form :=
  cbv [ContactForm.handleSubmit
       ContactForm.setName ContactForm.setEmail ContactForm.setMessage
       ContactForm.setLoading ContactForm.setError
       ContactForm.bind ContactForm.ret ContactForm.throw
       ContactForm.try_catch ContactForm.try_finally
       ContactForm.get_view ContactForm.get_now ContactForm.set_view
       ContactForm.call ContactForm.insert_contact ContactForm.message_of
       ContactForm.db ContactForm.fault ContactForm.now ContactForm.calls
       ContactForm.view ContactForm.name ContactForm.email
       ContactForm.message ContactForm.loading ContactForm.error
       Store.error Store.done Store.failed fst snd].

Lemma truthy_nonempty (s : string) : s <> "" -> JS.truthy s = true.
Proof. destruct s; [congruence|reflexivity]. Qed.

(** X25.  A submission with the name, the email or the message empty is
    turned down before any store call: the form shows "Please fill in all
    fields", nothing is inserted, the fields and the loading flag stay and
    the parent is not called. *)
Theorem handleSubmit_requires_all_fields :
  forall w : ContactForm.World,
    ContactForm.name (ContactForm.view w) = "" \/
    ContactForm.email (ContactForm.view w) = "" \/
    ContactForm.message (ContactForm.view w) = "" ->
    let w' := snd (ContactForm.handleSubmit w) in
    fst (ContactForm.handleSubmit w) = Returned tt /\
    ContactForm.db w' = ContactForm.db w /\
    ContactForm.calls w' = ContactForm.calls w /\
    ContactForm.error (ContactForm.view w') = "Please fill in all fields" /\
    ContactForm.name (ContactForm.view w') = ContactForm.name (ContactForm.view w) /\
    ContactForm.email (ContactForm.view w') = ContactForm.email (ContactForm.view w) /\
    ContactForm.message (ContactForm.view w')
      = ContactForm.message (ContactForm.view w) /\
    ContactForm.loading (ContactForm.view w')
      = ContactForm.loading (ContactForm.view w).
Proof.
  intros [d f t cl [n e m ld er]]. simpl. intros H. run_form.
  assert (E : negb (JS.truthy n) || negb (JS.truthy e) || negb (JS.truthy m) = true).
  { destruct H as [H|[H|H]]; subst; simpl;
      rewrite ?Bool.orb_true_r; reflexivity. }
  rewrite E. repeat split; reflexivity.
Qed.

Lemma handleSubmit_requires_all_fields_witness :
  Store.contacts
    (ContactForm.db (snd (ContactForm.handleSubmit
                            (Cases.form None "Bob" "" "Hello again"))))
    = [Scenario.hello] /\
  ContactForm.error
    (ContactForm.view (snd (ContactForm.handleSubmit
                              (Cases.form None "Bob" "" "Hello again"))))
    = "Please fill in all fields".
Proof.
  destruct (handleSubmit_requires_all_fields
              (Cases.form None "Bob" "" "Hello again"))
    as (_ & Hdb & _ & Herr & _).
  - right. left. reflexivity.
  - split; [rewrite Hdb; reflexivity|exact Herr].
Defined.

(** X26.  A submission with the three fields filled (white space counts:
    the fields are not trimmed) that the store answers appends one row to
    the contact messages, holding the three fields as typed and the time
    of the call, and touches no other table; the form is cleared, with no
    error and not loading, and the parent is told of the success and then
    asked to close, once each. *)
Theorem handleSubmit_inserts :
  forall w : ContactForm.World,
    ContactForm.name (ContactForm.view w) <> "" ->
    ContactForm.email (ContactForm.view w) <> "" ->
    ContactForm.message (ContactForm.view w) <> "" ->
    ContactForm.fault w = None ->
    let w' := snd (ContactForm.handleSubmit w) in
    fst (ContactForm.handleSubmit w) = Returned tt /\
    Store.contacts (ContactForm.db w')
      = Store.contacts (ContactForm.db w)
        ++ [ContactForm.inserted (ContactForm.db w)
              (ContactForm.name (ContactForm.view w))
              (ContactForm.email (ContactForm.view w))
              (ContactForm.message (ContactForm.view w))
              (ContactForm.now w)] /\
    Store.users (ContactForm.db w') = Store.users (ContactForm.db w) /\
    Store.user_roles (ContactForm.db w') = Store.user_roles (ContactForm.db w) /\
    Store.complaints (ContactForm.db w') = Store.complaints (ContactForm.db w) /\
    ContactForm.view w' = ContactForm.mount /\
    ContactForm.calls w'
      = ContactForm.calls w ++ [ContactForm.onSuccess; ContactForm.onClose].
Proof.
  intros [d f t cl [n e m ld er]]. simpl. intros Hn He Hm Hf. subst f.
  run_form.
  rewrite (truthy_nonempty n Hn), (truthy_nonempty e He), (truthy_nonempty m Hm).
  simpl. repeat split; try reflexivity.
  rewrite <- app_assoc. reflexivity.
Qed.

Lemma handleSubmit_inserts_witness :
  map (fun k => (k_name k, k_email k, k_message k))
    (Store.contacts
       (ContactForm.db (snd (ContactForm.handleSubmit
                               (Cases.form None " " "carol@example.org" "Hi")))))
    = [("Bob", "bob@example.org", "Hello");
       (" ", "carol@example.org", "Hi")] /\
  ContactForm.calls
    (snd (ContactForm.handleSubmit (Cases.form None " " "carol@example.org" "Hi")))
    = [ContactForm.onSuccess; ContactForm.onClose].
Proof.
  assert (Hn : " " <> "") by discriminate.
  assert (He : "carol@example.org" <> "") by discriminate.
  assert (Hm : "Hi" <> "") by discriminate.
  destruct (handleSubmit_inserts (Cases.form None " " "carol@example.org" "Hi")
              Hn He Hm eq_refl)
    as (_ & Hc & _ & _ & _ & _ & Hcalls).
  split; [rewrite Hc; reflexivity|exact Hcalls].
Defined.

(** X27.  When the insert fails (the call resolves with an error, or its
    promise rejects), nothing is inserted, the fields stay as typed, the
    parent is not called, the loading flag is cleared and the form shows
    the message of the error, or "Something went wrong" when the error
    has none. *)
Theorem handleSubmit_insert_failure :
  forall (w : ContactForm.World) (how : Fault),
    ContactForm.name (ContactForm.view w) <> "" ->
    ContactForm.email (ContactForm.view w) <> "" ->
    ContactForm.message (ContactForm.view w) <> "" ->
    ContactForm.fault w = Some how ->
    let w' := snd (ContactForm.handleSubmit w) in
    fst (ContactForm.handleSubmit w) = Returned tt /\
    ContactForm.db w' = ContactForm.db w /\
    ContactForm.calls w' = ContactForm.calls w /\
    ContactForm.name (ContactForm.view w') = ContactForm.name (ContactForm.view w) /\
    ContactForm.email (ContactForm.view w') = ContactForm.email (ContactForm.view w) /\
    ContactForm.message (ContactForm.view w')
      = ContactForm.message (ContactForm.view w) /\
    ContactForm.loading (ContactForm.view w') = false /\
    ContactForm.error (ContactForm.view w')
      = match ContactForm.message_of (caught how) with
        | EmptyString => "Something went wrong"
        | m => m
        end.
Proof.
  intros [d f t cl [n e m ld er]] how. simpl. intros Hn He Hm Hf. subst f.
  run_form.
  rewrite (truthy_nonempty n Hn), (truthy_nonempty e He), (truthy_nonempty m Hm).
  simpl. destruct how as [err|reason]; simpl;
    [destruct (Store.message err)|destruct reason];
    repeat split; reflexivity.
Qed.

Lemma handleSubmit_insert_failure_witness :
  Store.contacts
    (ContactForm.db (snd (ContactForm.handleSubmit
                            (Cases.form (Some Scenario.denied)
                               "Carol" "carol@example.org" "Hi"))))
    = [Scenario.hello] /\
  ContactForm.error
    (ContactForm.view (snd (ContactForm.handleSubmit
                              (Cases.form (Some Scenario.denied)
                                 "Carol" "carol@example.org" "Hi"))))
    = "permission denied" /\
  ContactForm.error
    (ContactForm.view (snd (ContactForm.handleSubmit
                              (Cases.form (Some (FaultReject ""))
                                 "Carol" "carol@example.org" "Hi"))))
    = "Something went wrong".
Proof.
  assert (Hn : "Carol" <> "") by discriminate.
  assert (He : "carol@example.org" <> "") by discriminate.
  assert (Hm : "Hi" <> "") by discriminate.
  destruct (handleSubmit_insert_failure
              (Cases.form (Some Scenario.denied) "Carol" "carol@example.org" "Hi")
              Scenario.denied Hn He Hm eq_refl)
    as (_ & Hdb & _ & _ & _ & _ & _ & Herr).
  destruct (handleSubmit_insert_failure
              (Cases.form (Some (FaultReject "")) "Carol" "carol@example.org" "Hi")
              (FaultReject "") Hn He Hm eq_refl)
    as (_ & _ & _ & _ & _ & _ & _ & Herr').
  split; [rewrite Hdb; reflexivity|]. split; [exact Herr|exact Herr'].
Defined.

(** X28.  A contact message reaches the dashboard.  After a submission of
    the contact form that the store answers, a dashboard mounted over the
    resulting store whose reads are answered lists the message, with the
    three fields as typed, among the contact messages. *)
Theorem contact_reaches_the_dashboard :
  forall (w : ContactForm.World) (dash : World AdminDashboard.State),
    ContactForm.name (ContactForm.view w) <> "" ->
    ContactForm.email (ContactForm.view w) <> "" ->
    ContactForm.message (ContactForm.view w) <> "" ->
    ContactForm.fault w = None ->
    db dash = ContactForm.db (snd (ContactForm.handleSubmit w)) ->
    fault dash (Store.SelectAll Store.t_complaints) = None ->
    fault dash (Store.SelectAll Store.t_contacts) = None ->
    exists k,
      In k (AdminDashboard.contacts (view (snd (AdminDashboard.onMount dash)))) /\
      k_name k = ContactForm.name (ContactForm.view w) /\
      k_email k = ContactForm.email (ContactForm.view w) /\
      k_message k = ContactForm.message (ContactForm.view w) /\
      k_created_at k = ContactForm.now w.
Proof.
  intros [d f t cl [n e m ld er]] [d2 f2 t2 u2 rq2 co2 al2 un2 [cs ks l2]].
  simpl. intros Hn He Hm Hf Hdb Hc Hk. subst f.
  revert Hdb. run_form.
  rewrite (truthy_nonempty n Hn), (truthy_nonempty e He), (truthy_nonempty m Hm).
  simpl. intros Hdb. subst d2.
  exists (ContactForm.inserted d n e m t).
  split; [|repeat split; reflexivity].
  run_dashboard. rewrite Hc. run_dashboard. rewrite Hk. run_dashboard.
  eapply Permutation_in; [symmetry; apply order_desc_perm|].
  simpl. apply in_or_app. right. left. reflexivity.
Qed.

Lemma contact_reaches_the_dashboard_witness :
  map k_message
    (AdminDashboard.contacts
       (view (snd (AdminDashboard.onMount
                     (Cases.dashboard_over
                        (ContactForm.db
                           (snd (ContactForm.handleSubmit
                                   (Cases.form None "Carol" "carol@example.org"
                                      "Hi")))))))))
    = ["Hi"; "Hello"] /\
  exists k,
    In k (AdminDashboard.contacts
            (view (snd (AdminDashboard.onMount
                          (Cases.dashboard_over
                             (ContactForm.db
                                (snd (ContactForm.handleSubmit
                                        (Cases.form None "Carol"
                                           "carol@example.org" "Hi")))))))))
    /\ k_name k = "Carol".
Proof.
  assert (Hn : "Carol" <> "") by discriminate.
  assert (He : "carol@example.org" <> "") by discriminate.
  assert (Hm : "Hi" <> "") by discriminate.
  destruct (contact_reaches_the_dashboard
              (Cases.form None "Carol" "carol@example.org" "Hi")
              (Cases.dashboard_over
                 (ContactForm.db
                    (snd (ContactForm.handleSubmit
                            (Cases.form None "Carol" "carol@example.org" "Hi")))))
              Hn He Hm eq_refl eq_refl eq_refl eq_refl)
    as (k & Hin & Hname & _).
  split; [vm_compute; reflexivity|].
  exists k. split; [exact Hin|exact Hname].
Defined.

(* ================================================================= *)
(** ** The exam form *)

Lemma added_app (l1 l2 : list ExamForm.Callback) :
  ExamForm.added (l1 ++ l2) = ExamForm.added l1 ++ ExamForm.added l2.
Proof.
  induction l1 as [|c l1 IH]; simpl; [reflexivity|].
  destruct c; simpl; rewrite IH; reflexivity.
Qed.

Lemma truthy_true (s : string) : JS.truthy s = true -> s <> "".
Proof. destruct s; [discriminate|discriminate]. Qed.

(** X29.  The exam form never hands over an exam with an empty field.
    Whatever the user types and presses, in whatever order, every exam
    passed to [addExam] has a subject, a date and a time, and there are no
    more of them than submissions. *)
Theorem exams_added_are_filled :
  forall (es : list ExamForm.Event) (w : ExamForm.World),
    Forall Cases.filled (ExamForm.added (ExamForm.calls w)) ->
    Forall Cases.filled
      (ExamForm.added (ExamForm.calls (ExamForm.after es w))) /\
    length (ExamForm.added (ExamForm.calls (ExamForm.after es w)))
      <= length (ExamForm.added (ExamForm.calls w)) + Cases.submissions es.
Proof.
  unfold ExamForm.after.
  induction es as [|e es IH]; intros w H; simpl.
  - split; [exact H|unfold Cases.submissions; simpl; lia].
  - assert (Hstep :
      Forall Cases.filled (ExamForm.added (ExamForm.calls (ExamForm.handle e w)))
      /\ length (ExamForm.added (ExamForm.calls (ExamForm.handle e w)))
         <= length (ExamForm.added (ExamForm.calls w))
            + Cases.submissions [e]).
    { destruct e; simpl; try (split; [exact H|unfold Cases.submissions; simpl; lia]).
      - unfold ExamForm.handleSubmit.
        destruct (JS.truthy (ExamForm.subject (ExamForm.view w))) eqn:Es;
          destruct (JS.truthy (ExamForm.date (ExamForm.view w))) eqn:Ed;
          destruct (JS.truthy (ExamForm.time (ExamForm.view w))) eqn:Et;
          simpl; try (split; [exact H|unfold Cases.submissions; simpl; lia]).
        rewrite added_app. simpl. split.
        + apply Forall_app. split; [exact H|].
          constructor; [|constructor].
          repeat split; simpl; apply truthy_true; assumption.
        + rewrite length_app. unfold Cases.submissions. simpl. lia.
      - rewrite added_app. simpl. rewrite app_nil_r.
        split; [exact H|unfold Cases.submissions; simpl; lia]. }
    destruct Hstep as (Hf & Hl).
    destruct (IH (ExamForm.handle e w) Hf) as (Hf' & Hl').
    split; [exact Hf'|].
    unfold Cases.submissions in *. simpl in *.
    destruct e; simpl in *; lia.
Qed.

Lemma exams_added_are_filled_witness :
  ExamForm.added
    (ExamForm.calls
       (ExamForm.after
          [ExamForm.SetSubject "Mathematics"; ExamForm.Submit;
           ExamForm.SetDate "2024-06-01"; ExamForm.SetTime "09:00";
           ExamForm.Submit]
          Cases.exam_form))
    = [{| ExamForm.e_subject := "Mathematics";
          ExamForm.e_date := "2024-06-01";
          ExamForm.e_time := "09:00" |}] /\
  Forall Cases.filled
    (ExamForm.added
       (ExamForm.calls
          (ExamForm.after
             [ExamForm.SetSubject "Mathematics"; ExamForm.Submit;
              ExamForm.SetDate "2024-06-01"; ExamForm.SetTime "09:00";
              ExamForm.Submit]
             Cases.exam_form))).
Proof.
  split; [reflexivity|].
  apply (exams_added_are_filled
           [ExamForm.SetSubject "Mathematics"; ExamForm.Submit;
            ExamForm.SetDate "2024-06-01"; ExamForm.SetTime "09:00";
            ExamForm.Submit]
           Cases.exam_form).
  constructor.
Defined.

(* ================================================================= *)
(** ** Newest first *)

Lemma ascii_compare_refl (a : ascii) : Ascii.compare a a = Eq.
Proof. unfold Ascii.compare. apply N.compare_refl. Qed.

Lemma ascii_compare_gt_trans (a b c : ascii) :
  Ascii.compare a b = Gt -> Ascii.compare b c = Gt -> Ascii.compare a c = Gt.
Proof.
  unfold Ascii.compare. rewrite !N.compare_gt_iff. intros H1 H2.
  eapply N.lt_trans; eassumption.
Qed.

(** [String.ltb x y = false], that is [y <= x], is transitive. *)
Lemma not_ltb_trans (x y z : string) :
  String.ltb x y = false -> String.ltb y z = false -> String.ltb x z = false.
Proof.
  unfold String.ltb. revert y z.
  induction x as [|a x IH]; intros [|b y] [|c z]; simpl; try congruence.
  destruct (Ascii.compare a b) eqn:Eab; try congruence;
    destruct (Ascii.compare b c) eqn:Ebc; try congruence.
  - apply Ascii.compare_eq_iff in Eab. apply Ascii.compare_eq_iff in Ebc.
    subst b c. rewrite ascii_compare_refl. apply IH.
  - apply Ascii.compare_eq_iff in Eab. subst b. rewrite Ebc. congruence.
  - apply Ascii.compare_eq_iff in Ebc. subst c. rewrite Eab. congruence.
  - rewrite (ascii_compare_gt_trans a b c Eab Ebc). congruence.
Qed.

Lemma not_ltb_refl (x : string) : String.ltb x x = false.
Proof.
  unfold String.ltb.
  assert (E : String.compare x x = Eq).
  { pose proof (String.compare_antisym x x) as H.
    destruct (String.compare x x); simpl in H; congruence. }
  rewrite E. reflexivity.
Qed.

Lemma not_ltb_total (x y : string) :
  String.ltb x y = true -> String.ltb y x = false.
Proof.
  unfold String.ltb. rewrite (String.compare_antisym y x).
  destruct (String.compare x y); simpl; congruence.
Qed.

Section Newest.
Context {R : Type} (key : R -> string).

Lemma insert_desc_newest_first (x : R) (l : list R) :
  newest_first key l -> newest_first key (Store.insert_desc key x l).
Proof.
  unfold newest_first.
  induction l as [|y l IH]; intros Hs; simpl.
  - constructor; [constructor|constructor].
  - inversion Hs as [|y' l' Hl Hy]; subst.
    destruct (String.ltb (key x) (key y)) eqn:E.
    + constructor; [apply IH; exact Hl|].
      eapply Permutation_Forall; [symmetry; apply insert_desc_perm|].
      constructor; [apply not_ltb_total; exact E|exact Hy].
    + constructor; [exact Hs|].
      constructor; [exact E|].
      eapply Forall_impl; [|exact Hy].
      intros z Hz. eapply not_ltb_trans; eassumption.
Qed.

Lemma order_desc_newest_first (l : list R) :
  newest_first key (Store.order_desc key l).
Proof.
  induction l as [|x l IH]; simpl; [constructor|].
  apply insert_desc_newest_first. exact IH.
Qed.

Lemma find_newest (p : R -> bool) (l : list R) (y : R) :
  newest_first key l ->
  find p l = Some y ->
  forall x, In x l -> p x = true -> String.ltb (key y) (key x) = false.
Proof.
  unfold newest_first.
  induction l as [|z l IH]; intros Hs Hfind x Hx Hp; simpl in *; [contradiction|].
  inversion Hs as [|z' l' Hl Hz]; subst.
  destruct (p z) eqn:Ez.
  - injection Hfind as <-. destruct Hx as [<-|Hx]; [apply not_ltb_refl|].
    rewrite Forall_forall in Hz. apply Hz. exact Hx.
  - destruct Hx as [<-|Hx]; [congruence|].
    apply (IH Hl Hfind x Hx Hp).
Qed.

End Newest.

(** X30.  After a reload of the role rows that is answered, the role the
    table shows for an account that has role rows is the role of one of
    its rows, and none of its rows is newer than that one: with several
    rows the table shows the latest assignment (where the Resolver yields
    ['user']). *)
Theorem table_shows_the_newest_role :
  forall (w : World State) (uid : string),
    fault w (Store.SelectAll Store.t_user_roles) = None ->
    Store.roles_of uid (Store.user_roles (db w)) <> [] ->
    let st := view (snd (loadUserRoles w)) in
    exists r,
      In r (Store.roles_of uid (Store.user_roles (db w))) /\
      getUserRole st uid = role_name (ur_role r) /\
      forall r', In r' (Store.roles_of uid (Store.user_roles (db w))) ->
                 String.ltb (ur_created_at r) (ur_created_at r') = false.
Proof.
  intros [d f t u rq co al un [us urs cs il cur srm su nr spm sc msg ir]] uid.
  simpl. intros Hf Hrows.
  run. rewrite Hf. run.
  destruct (Store.roles_of uid (Store.user_roles d)) as [|r0 rest] eqn:E;
    [congruence|].
  assert (Hin0 : In r0 (Store.roles_of uid (Store.user_roles d)))
    by (rewrite E; left; reflexivity).
  apply filter_In in Hin0. destruct Hin0 as (Hin0 & Hp0).
  destruct (find_in_permuted
              (fun x => String.eqb (ur_user_id x) uid)
              (Store.user_roles d)
              (Store.order_desc ur_created_at (Store.user_roles d)) r0
              (order_desc_perm _ _) Hin0 Hp0)
    as (y & Hfind & Hy & Hpy).
  exists y. split; [|split].
  - rewrite <- E. apply filter_In. split; assumption.
  - unfold getUserRole, JS.find. simpl. rewrite Hfind. simpl.
    rewrite role_name_truthy. reflexivity.
  - intros r' Hr'. rewrite <- E in Hr'. apply filter_In in Hr'.
    destruct Hr' as (Hr' & Hpr').
    eapply (find_newest ur_created_at _ _ y
              (order_desc_newest_first ur_created_at (Store.user_roles d)) Hfind).
    + eapply Permutation_in; [symmetry; apply order_desc_perm|exact Hr'].
    + exact Hpr'.
Qed.

Lemma table_shows_the_newest_role_witness :
  getUserRole
    (view (snd (loadUserRoles
                  (Scenario.alice_with [Scenario.moderator_row; Scenario.admin_row]))))
    "A" = "admin" /\
  exists r,
    In r (Store.roles_of "A"
            (Store.user_roles
               (db (Scenario.alice_with [Scenario.moderator_row; Scenario.admin_row]))))
    /\ getUserRole
         (view (snd (loadUserRoles
                       (Scenario.alice_with
                          [Scenario.moderator_row; Scenario.admin_row]))))
         "A" = role_name (ur_role r).
Proof.
  assert (Hrows : Store.roles_of "A"
                    (Store.user_roles
                       (db (Scenario.alice_with
                              [Scenario.moderator_row; Scenario.admin_row])))
                  <> []) by (vm_compute; discriminate).
  destruct (table_shows_the_newest_role
              (Scenario.alice_with [Scenario.moderator_row; Scenario.admin_row])
              "A" eq_refl Hrows) as (r & Hin & Hrole & _).
  split; [reflexivity|].
  exists r. split; [exact Hin|exact Hrole].
Defined.
